(** * ct-visualizer: volume assembly, orthogonal slicing and display metadata

    A shallow embedding of the computational core of the CT viewer:
    - [app/helpers/dcm_manager.py]: volume assembly and DICOM field readers,
    - [app/model/model.py]: [Model] and [ProjectionModel],
    - [app/controllers/main_controller.py]: the event handlers.

    Python values are modelled as the interpreter has them: integers as [Z],
    floats as IEEE-754 binary64 ([spec_float] at precision 53, emax 1024),
    dictionaries as insertion-ordered association lists, numpy arrays as a
    shape together with nested lists, exceptions as an error result. *)

From Stdlib Require Import ZArith Ascii String.
From Stdlib Require Import Floats.SpecFloat.
From stdpp Require Import base option list strings pretty.

Local Open Scope Z_scope.

(** ** Python: exceptions, indexing, loops *)

Module Py.

Inductive exn : Set :=
| IndexError
| ValueError
| TypeError
| OverflowError
| AssertionError.

Inductive result (A : Type) : Type :=
| Ok (a : A)
| Raise (e : exn).
Arguments Ok {A} a.
Arguments Raise {A} e.

#[export] Instance exn_eq_dec : EqDecision exn.
Proof. solve_decision. Defined.

#[export] Instance result_ret : MRet result := @Ok.
#[export] Instance result_bind : MBind result := λ A B f m,
  match m with
  | Ok a => f a
  | Raise e => Raise e
  end.

Definition raises {A} (m : result A) : Prop := ∃ e, m = Raise e.

(** [seq[i]] on a sequence of length [n]: a negative index counts from the
    end, anything outside [-n, n) raises [IndexError]. *)
Definition norm_index (i : Z) (n : nat) : result nat :=
  if bool_decide (0 ≤ i < Z.of_nat n) then Ok (Z.to_nat i)
  else if bool_decide (- Z.of_nat n ≤ i < 0) then Ok (Z.to_nat (Z.of_nat n + i))
  else Raise IndexError.

Definition getitem {A} (l : list A) (i : Z) : result A :=
  k ← norm_index i (length l);
  match l !! k with
  | Some x => Ok x
  | None => Raise IndexError
  end.

(** [for z, x in enumerate(l): s = body(z, x, s)], stopping at the first
    exception. *)
Fixpoint for_enumerate {S B} (body : Z → B → S → result S)
    (z : Z) (l : list B) (s : S) : result S :=
  match l with
  | [] => Ok s
  | x :: xs => s' ← body z x s; for_enumerate body (z + 1) xs s'
  end.

End Py.
Import Py.

(** ** numpy: two- and three-dimensional arrays *)

Module Np.

Record ndarray2 (A : Type) : Type := Array2 {
  shape2 : nat * nat;
  data2 : list (list A)
}.
Arguments Array2 {A} shape2 data2.
Arguments shape2 {A} n.
Arguments data2 {A} n.

(** [data3 m] is indexed [x], then [y], then [z], as [m[x, y, z]]. *)
Record ndarray3 (A : Type) : Type := Array3 {
  shape3 : nat * nat * nat;
  data3 : list (list (list A))
}.
Arguments Array3 {A} shape3 data3.
Arguments shape3 {A} n.
Arguments data3 {A} n.

Section arrays.
Context {A : Type}.

Definition rows_have_shape (r c : nat) (rows : list (list A)) : Prop :=
  length rows = r ∧ Forall (λ row, length row = c) rows.

(** The data of an array fills its shape. *)
Definition wf2 (a : ndarray2 A) : Prop :=
  rows_have_shape (shape2 a).1 (shape2 a).2 (data2 a).

Definition wf3 (m : ndarray3 A) : Prop :=
  length (data3 m) = (shape3 m).1.1 ∧
  Forall (rows_have_shape (shape3 m).1.2 (shape3 m).2) (data3 m).

#[export] Instance rows_have_shape_dec r c rows : Decision (rows_have_shape r c rows).
Proof. unfold rows_have_shape. apply _. Defined.

#[export] Instance wf2_dec a : Decision (wf2 a).
Proof. unfold wf2. apply _. Defined.

#[export] Instance wf3_dec m : Decision (wf3 m).
Proof. unfold wf3. apply _. Defined.

Definition getitem2 (a : ndarray2 A) (i j : nat) : option A :=
  row ← data2 a !! i; row !! j.

Definition getitem3 (m : ndarray3 A) (x y z : nat) : option A :=
  plane ← data3 m !! x; col ← plane !! y; col !! z.

(** [np.zeros([x, y, z])] *)
Definition zeros (zero : A) (sh : nat * nat * nat) : ndarray3 A :=
  let '(x, y, z) := sh in
  Array3 sh (replicate x (replicate y (replicate z zero))).

(** [np.flip(a, 0)] and [np.flip(a, 1)] *)
Definition flip_ud (a : ndarray2 A) : ndarray2 A :=
  Array2 (shape2 a) (reverse (data2 a)).

Definition flip_lr (a : ndarray2 A) : ndarray2 A :=
  Array2 (shape2 a) (reverse <$> data2 a).

Fixpoint transpose_rows (c : nat) (rows : list (list A)) : list (list A) :=
  match rows with
  | [] => replicate c []
  | row :: rest => zip_with cons row (transpose_rows c rest)
  end.

Definition transpose (a : ndarray2 A) : ndarray2 A :=
  let '(r, c) := shape2 a in
  Array2 (c, r) (transpose_rows c (data2 a)).

(** [np.rot90(a, k)]: [k] is reduced modulo 4, then
    0: the array itself; 1: [transpose(flip(a, 1))];
    2: [flip(flip(a, 0), 1)]; 3: [flip(transpose(a), 1)]. *)
Definition rot90 (a : ndarray2 A) (k : Z) : ndarray2 A :=
  match k `mod` 4 with
  | 0 => a
  | 1 => transpose (flip_lr a)
  | 2 => flip_lr (flip_ud a)
  | _ => flip_lr (transpose a)
  end.

(** Broadcasting of one axis: a length equal to the target is kept, a
    length of one is repeated. *)
Definition broadcastable (p n : nat) : Prop := p = n ∨ p = 1%nat.

#[export] Instance broadcastable_dec p n : Decision (broadcastable p n).
Proof. unfold broadcastable. apply _. Defined.

Definition stretch {B} (n p : nat) (l : list B) : list B :=
  if decide (p = n) then l
  else match l with
       | x :: _ => replicate n x
       | [] => []
       end.

(** A value of shape [sh] can be stored into a target of shape [target]. *)
Definition fits (sh target : nat * nat) : Prop :=
  broadcastable sh.1 target.1 ∧ broadcastable sh.2 target.2.

#[export] Instance fits_dec sh target : Decision (fits sh target).
Proof. unfold fits. apply _. Defined.

Definition broadcast_to (a : ndarray2 A) (sh : nat * nat) : result (ndarray2 A) :=
  if bool_decide (fits (shape2 a) sh)
  then Ok (Array2 sh
             (stretch sh.1 (shape2 a).1 (stretch sh.2 (shape2 a).2 <$> data2 a)))
  else Raise ValueError.

(** [m[:, :, k] = b] *)
Definition setitem_z (m : ndarray3 A) (k : Z) (b : ndarray2 A) : result (ndarray3 A) :=
  let '(x, y, n) := shape3 m in
  idx ← norm_index k n;
  b' ← broadcast_to b (x, y);
  Ok (Array3 (shape3 m)
        (zip_with (zip_with (λ col v, <[idx := v]> col)) (data3 m) (data2 b'))).

(** [m[:, :, n]], [m[:, n, :]] and [m[n, :, :]]. The index is checked
    against the shape; in an array whose data fills its shape every lookup
    below then finds its element. *)
Definition take_z (m : ndarray3 A) (n : Z) : result (ndarray2 A) :=
  let '(x, y, z) := shape3 m in
  idx ← norm_index n z;
  Ok (Array2 (x, y)
        ((λ plane : list (list A), omap (λ col : list A, col !! idx) plane) <$> data3 m)).

Definition take_y (m : ndarray3 A) (n : Z) : result (ndarray2 A) :=
  let '(x, y, z) := shape3 m in
  idx ← norm_index n y;
  Ok (Array2 (x, z) (omap (λ plane : list (list A), plane !! idx) (data3 m))).

Definition take_x (m : ndarray3 A) (n : Z) : result (ndarray2 A) :=
  let '(x, y, z) := shape3 m in
  idx ← norm_index n x;
  Ok (Array2 (y, z) (default [] (data3 m !! idx))).

End arrays.
End Np.
Import Np.

(** ** Python floats: IEEE-754 binary64 *)

Module PyFloat.

Definition float : Type := spec_float.

Definition prec : Z := 53.
Definition emax : Z := 1024.

Definition add : float → float → float := SFadd prec emax.
Definition sub : float → float → float := SFsub prec emax.
Definition mul : float → float → float := SFmul prec emax.

Definition is_finite (x : float) : bool :=
  match x with
  | S754_zero _ | S754_finite _ _ _ => true
  | S754_infinity _ | S754_nan => false
  end.

(** [float(n)] for a Python int, rounded to nearest even. Array extents and
    pixel counts stay far below [2^1024], where the conversion is defined. *)
Definition of_int (n : Z) : float := binary_normalize prec emax n 0 false.

(** [int(x)]: truncation towards zero; [nan] and the infinities raise. *)
Definition to_int (x : float) : result Z :=
  match x with
  | S754_zero _ => Ok 0
  | S754_finite s m e => Ok (cond_Zopp s (Z.shiftl (Z.pos m) e))
  | S754_infinity _ => Raise OverflowError
  | S754_nan => Raise ValueError
  end.

(** [w / 2] for a Python int [w]: the quotient rounded to nearest even,
    [OverflowError] when it is too large for a float. *)
Definition int_half (w : Z) : result float :=
  match binary_normalize prec emax w (-1) false with
  | S754_infinity _ => Raise OverflowError
  | q => Ok q
  end.

(** [n / d] for [0 ≤ n], [0 < d], rounded half to even. *)
Definition div_half_even (n d : Z) : Z :=
  let q := n `div` d in
  let r := n `mod` d in
  match 2 * r ?= d with
  | Lt => q
  | Gt => q + 1
  | Eq => if Z.even q then q else q + 1
  end.

(** The magnitude [m * 2^e], in hundredths, rounded half to even. *)
Definition hundredths (m : positive) (e : Z) : Z :=
  if bool_decide (0 ≤ e) then Z.pos m * 2 ^ e * 100
  else div_half_even (Z.pos m * 100) (2 ^ (- e)).

Definition two_digits (n : Z) : string :=
  if bool_decide (n < 10) then "0" +:+ pretty n else pretty n.

Definition sign_str (s : bool) : string := if s then "-" else "".

(** [f"{x:.2f}"] *)
Definition format_2f (x : float) : string :=
  match x with
  | S754_nan => "nan"
  | S754_infinity s => sign_str s +:+ "inf"
  | S754_zero s => sign_str s +:+ "0.00"
  | S754_finite s m e =>
      let h := hundredths m e in
      sign_str s +:+ pretty (h `div` 100) +:+ "." +:+ two_digits (h `mod` 100)
  end.

(** The value of a finite float as a multiple of [2^-1074], the spacing of
    the smallest floats; zero for the other floats. *)
Definition units (x : float) : Z :=
  match x with
  | S754_finite s m e => cond_Zopp s (Z.pos m * 2 ^ (e + 1074))
  | _ => 0
  end.

(** The largest float, [(2^53 - 1) * 2^971], in the same units. *)
Definition max_units : Z := (2 ^ 53 - 1) * 2 ^ 2045.

Definition exponent_ok (x : float) : Prop :=
  match x with
  | S754_finite _ _ e => -1074 ≤ e
  | _ => True
  end.

(** [x] is a binary64 value: its mantissa and exponent are canonical. *)
Definition valid (x : float) : Prop := valid_binary prec emax x = true.

End PyFloat.
Import PyFloat.

(** ** Python strings *)

Module PyStr.

Definition ascii_upper (c : ascii) : ascii :=
  let n := nat_of_ascii c in
  if bool_decide (97 ≤ n ≤ 122)%nat then ascii_of_nat (n - 32) else c.

Definition ascii_lower (c : ascii) : ascii :=
  let n := nat_of_ascii c in
  if bool_decide (65 ≤ n ≤ 90)%nat then ascii_of_nat (n + 32) else c.

Fixpoint map_string (f : ascii → ascii) (s : string) : string :=
  match s with
  | EmptyString => EmptyString
  | String c rest => String (f c) (map_string f rest)
  end.

(** [s.upper()] and [s.capitalize()] on ASCII text *)
Definition upper (s : string) : string := map_string ascii_upper s.

Definition capitalize (s : string) : string :=
  match s with
  | EmptyString => EmptyString
  | String c rest => String (ascii_upper c) (map_string ascii_lower rest)
  end.

(** [str(v)] for a value that is a string or [None] *)
Definition str (v : option string) : string :=
  match v with
  | Some s => s
  | None => "None"
  end.

(** Truth value of a string or [None]: only [None] and [""] are false. *)
Definition truthy (v : option string) : bool :=
  match v with
  | Some (String _ _) => true
  | Some EmptyString | None => false
  end.

End PyStr.

(** ** Insertion-ordered dictionaries with string keys *)

Module Dict.

Definition dict (V : Type) : Type := list (string * V).

Section dict.
Context {V : Type}.

Definition keys (d : dict V) : list string := d.*1.

Fixpoint get (d : dict V) (k : string) : option V :=
  match d with
  | [] => None
  | (k', v) :: rest => if decide (k' = k) then Some v else get rest k
  end.

(** [d[k] = v]: an existing key keeps its position, a new key goes last. *)
Fixpoint set (d : dict V) (k : string) (v : V) : dict V :=
  match d with
  | [] => [(k, v)]
  | (k', v') :: rest =>
      if decide (k' = k) then (k, v) :: rest else (k', v') :: set rest k v
  end.

(** [for k, v in p.items(): d[k] = v] *)
Definition update (d p : dict V) : dict V :=
  foldl (λ acc kv, set acc kv.1 kv.2) d p.

(** A dictionary display [{k1: v1, ...}] *)
Definition literal (items : list (string * V)) : dict V := update [] items.

End dict.
End Dict.
Import Dict.

(** ** app/helpers/enums.py *)

Inductive Plain : Set := XY | XZ | YZ.

#[export] Instance Plain_eq_dec : EqDecision Plain.
Proof. solve_decision. Defined.

(** ** app/helpers/dcm_manager.py *)

Module dcm_manager.

(** The part of a pydicom data set the viewer reads. [pixel_array] holds the
    stored integer samples; an element that is absent from the file is
    [None], which is what [dcm_dataset.get] returns for it. *)
Record FileDataset : Type := {
  pixel_array : ndarray2 Z;
  SliceThickness : option float;
  PixelSpacing : option (float * float);
  PatientID : option string;
  PatientName : option string;
  PatientAge : option string;
  PatientSex : option string;
  StudyID : option string;
  Date : option string;
  BodyPartExamined : option string
}.

(** Storing integer samples into the float64 volume converts each of them. *)
Definition astype_float (a : ndarray2 Z) : ndarray2 float :=
  Array2 (shape2 a) ((λ row : list Z, of_int <$> row) <$> data2 a).

Definition get_ct_model_as_matrix (dcm_files : list FileDataset) (rot_k : Z)
    : result (ndarray3 float) :=
  let z_size := length dcm_files in
  mid ← getitem dcm_files (Z.of_nat z_size `div` 2);
  let '(x_size, y_size) := shape2 (pixel_array mid) in
  let matrix_3d := zeros (S754_zero false) (x_size, y_size, z_size) in
  if bool_decide (rot_k `mod` 4 ≠ 0) then
    for_enumerate
      (λ z ct_s m, setitem_z m (- z) (astype_float (rot90 (pixel_array ct_s) rot_k)))
      0 dcm_files matrix_3d
  else
    for_enumerate
      (λ z ct_s m, setitem_z m (- z) (astype_float (pixel_array ct_s)))
      0 dcm_files matrix_3d.

Definition get_ct_thickness (dcm_dataset : FileDataset) : option float :=
  SliceThickness dcm_dataset.

(** Unpacking [None] into two names raises [TypeError]. *)
Definition get_ct_pixel_spacing (dcm_dataset : FileDataset) : result (float * float) :=
  match PixelSpacing dcm_dataset with
  | Some (row_spacing, col_spacing) => Ok (row_spacing, col_spacing)
  | None => Raise TypeError
  end.

(** [for key, value in d.items(): if not value: d[key] = "unknown"];
    afterwards every value is a string. *)
Definition unknown_if_falsy (value : option string) : string :=
  if PyStr.truthy value then PyStr.str value else "unknown".

Definition get_patient_data (dcm_dataset : FileDataset) : dict string :=
  let patient_id := PatientID dcm_dataset in
  let name := PatientName dcm_dataset in
  let age := PatientAge dcm_dataset in
  let sex := PatientSex dcm_dataset in
  let patient_data := literal [
    ("Patient ID", patient_id);
    ("Name", Some (PyStr.upper (PyStr.str name)));
    ("Age", Some (PyStr.str age));
    ("Sex", Some (PyStr.capitalize (PyStr.str sex)))
  ] in
  prod_map id unknown_if_falsy <$> patient_data.

Definition get_examination_data (dcm_dataset : FileDataset) : dict string :=
  let study_id := StudyID dcm_dataset in
  let date := Date dcm_dataset in
  let body_part := BodyPartExamined dcm_dataset in
  let examination_data := literal [
    ("Study ID", Some (PyStr.str study_id));
    ("Date", Some (PyStr.str date));
    ("Body Part Examined", Some (PyStr.capitalize (PyStr.str body_part)))
  ] in
  prod_map id unknown_if_falsy <$> examination_data.

End dcm_manager.
Import dcm_manager.

(** ** app/model/model.py *)

Module model.

Record ProjectionModel : Type := {
  plain : option Plain;
  anatomical_plane : option string;
  projection_orientation : dict string;
  slices_count : nat;
  current_slice_num : Z;
  current_slice_image : option (ndarray2 float);
  slices_width : nat;
  slices_height : nat;
  slice_thickness : option float;
  col_spacing : option float;
  row_spacing : option float;
  image_metadata : dict string;
  roi_metadata : dict string;
  prev_roi_pix_size : nat * nat
}.

(** [ProjectionModel.__init__]. A spacing is a float, or [None] when the
    data set it was read from lacks the element; the integer [0] they start
    from is written as the float zero it multiplies and prints equal to. *)
Definition ProjectionModel_init (plain : option Plain) : ProjectionModel := {|
  plain := plain;
  anatomical_plane := None;
  projection_orientation := [];
  slices_count := 0;
  current_slice_num := 0;
  current_slice_image := None;
  slices_width := 0;
  slices_height := 0;
  slice_thickness := Some (S754_zero false);
  col_spacing := Some (S754_zero false);
  row_spacing := Some (S754_zero false);
  image_metadata := [];
  roi_metadata := [];
  prev_roi_pix_size := (0%nat, 0%nat)
|}.

Definition set_shape (self : ProjectionModel) (width height depth : nat) : ProjectionModel := {|
  plain := plain self;
  anatomical_plane := anatomical_plane self;
  projection_orientation := projection_orientation self;
  slices_count := depth;
  current_slice_num := current_slice_num self;
  current_slice_image := current_slice_image self;
  slices_width := width;
  slices_height := height;
  slice_thickness := slice_thickness self;
  col_spacing := col_spacing self;
  row_spacing := row_spacing self;
  image_metadata := image_metadata self;
  roi_metadata := roi_metadata self;
  prev_roi_pix_size := prev_roi_pix_size self
|}.

Definition set_spacings (self : ProjectionModel)
    (col_spacing row_spacing thickness : option float) : ProjectionModel := {|
  plain := plain self;
  anatomical_plane := anatomical_plane self;
  projection_orientation := projection_orientation self;
  slices_count := slices_count self;
  current_slice_num := current_slice_num self;
  current_slice_image := current_slice_image self;
  slices_width := slices_width self;
  slices_height := slices_height self;
  slice_thickness := thickness;
  col_spacing := col_spacing;
  row_spacing := row_spacing;
  image_metadata := image_metadata self;
  roi_metadata := roi_metadata self;
  prev_roi_pix_size := prev_roi_pix_size self
|}.

Definition get_spacings (self : ProjectionModel) : option float * option float :=
  (col_spacing self, row_spacing self).

Definition get_slices_thickness (self : ProjectionModel) : option float :=
  slice_thickness self.

Definition get_slices_count (self : ProjectionModel) : nat := slices_count self.

Definition get_img_size (self : ProjectionModel) : nat * nat :=
  (slices_width self, slices_height self).

Definition get_current_slice_img (self : ProjectionModel) : option (ndarray2 float) :=
  current_slice_image self.

Definition set_current_slice (self : ProjectionModel) (img : ndarray2 float) (n : Z)
    : ProjectionModel := {|
  plain := plain self;
  anatomical_plane := anatomical_plane self;
  projection_orientation := projection_orientation self;
  slices_count := slices_count self;
  current_slice_num := n;
  current_slice_image := Some img;
  slices_width := slices_width self;
  slices_height := slices_height self;
  slice_thickness := slice_thickness self;
  col_spacing := col_spacing self;
  row_spacing := row_spacing self;
  image_metadata := image_metadata self;
  roi_metadata := roi_metadata self;
  prev_roi_pix_size := prev_roi_pix_size self
|}.

Definition set_img_metadata (self : ProjectionModel) (img_metadata : dict string)
    : ProjectionModel := {|
  plain := plain self;
  anatomical_plane := anatomical_plane self;
  projection_orientation := projection_orientation self;
  slices_count := slices_count self;
  current_slice_num := current_slice_num self;
  current_slice_image := current_slice_image self;
  slices_width := slices_width self;
  slices_height := slices_height self;
  slice_thickness := slice_thickness self;
  col_spacing := col_spacing self;
  row_spacing := row_spacing self;
  image_metadata := img_metadata;
  roi_metadata := roi_metadata self;
  prev_roi_pix_size := prev_roi_pix_size self
|}.

(** [update_img_metadata] returns the stored dictionary next to the updated
    projection. *)
Definition update_img_metadata (self : ProjectionModel) (metadata : dict string)
    : dict string * ProjectionModel :=
  let self' := set_img_metadata self (update (image_metadata self) metadata) in
  (image_metadata self', self').

Definition get_img_metadata (self : ProjectionModel) : dict string := image_metadata self.

Definition set_roi_metadata (self : ProjectionModel) (roi_metadata : dict string)
    : ProjectionModel := {|
  plain := plain self;
  anatomical_plane := anatomical_plane self;
  projection_orientation := projection_orientation self;
  slices_count := slices_count self;
  current_slice_num := current_slice_num self;
  current_slice_image := current_slice_image self;
  slices_width := slices_width self;
  slices_height := slices_height self;
  slice_thickness := slice_thickness self;
  col_spacing := col_spacing self;
  row_spacing := row_spacing self;
  image_metadata := image_metadata self;
  roi_metadata := roi_metadata;
  prev_roi_pix_size := prev_roi_pix_size self
|}.

Definition update_roi_metadata (self : ProjectionModel) (data : dict string)
    : dict string * ProjectionModel :=
  let self' := set_roi_metadata self (update (roi_metadata self) data) in
  (roi_metadata self', self').

Definition get_roi_metadata (self : ProjectionModel) : dict string := roi_metadata self.

(** The assignment [proj_model.prev_roi_pix_size = w, h] of the controller *)
Definition set_prev_roi_pix_size (self : ProjectionModel) (size : nat * nat)
    : ProjectionModel := {|
  plain := plain self;
  anatomical_plane := anatomical_plane self;
  projection_orientation := projection_orientation self;
  slices_count := slices_count self;
  current_slice_num := current_slice_num self;
  current_slice_image := current_slice_image self;
  slices_width := slices_width self;
  slices_height := slices_height self;
  slice_thickness := slice_thickness self;
  col_spacing := col_spacing self;
  row_spacing := row_spacing self;
  image_metadata := image_metadata self;
  roi_metadata := roi_metadata self;
  prev_roi_pix_size := size
|}.

Definition set_anatomical_plane (self : ProjectionModel) (name : string) : ProjectionModel := {|
  plain := plain self;
  anatomical_plane := Some name;
  projection_orientation := projection_orientation self;
  slices_count := slices_count self;
  current_slice_num := current_slice_num self;
  current_slice_image := current_slice_image self;
  slices_width := slices_width self;
  slices_height := slices_height self;
  slice_thickness := slice_thickness self;
  col_spacing := col_spacing self;
  row_spacing := row_spacing self;
  image_metadata := image_metadata self;
  roi_metadata := roi_metadata self;
  prev_roi_pix_size := prev_roi_pix_size self
|}.

Definition get_anatomical_plane (self : ProjectionModel) : option string :=
  anatomical_plane self.

Definition set_projection_orientation (self : ProjectionModel) (orientation : dict string)
    : ProjectionModel := {|
  plain := plain self;
  anatomical_plane := anatomical_plane self;
  projection_orientation := orientation;
  slices_count := slices_count self;
  current_slice_num := current_slice_num self;
  current_slice_image := current_slice_image self;
  slices_width := slices_width self;
  slices_height := slices_height self;
  slice_thickness := slice_thickness self;
  col_spacing := col_spacing self;
  row_spacing := row_spacing self;
  image_metadata := image_metadata self;
  roi_metadata := roi_metadata self;
  prev_roi_pix_size := prev_roi_pix_size self
|}.

Definition get_projection_orientation (self : ProjectionModel) : dict string :=
  projection_orientation self.

Record Model : Type := {
  matrix_3d : option (ndarray3 float);
  patient_metadata : option (dict string);
  examination_metadata : option (dict string);
  xy_projection : ProjectionModel;
  xz_projection : ProjectionModel;
  yz_projection : ProjectionModel
}.

Definition Model_init : Model := {|
  matrix_3d := None;
  patient_metadata := None;
  examination_metadata := None;
  xy_projection := ProjectionModel_init (Some XY);
  xz_projection := ProjectionModel_init (Some XZ);
  yz_projection := ProjectionModel_init (Some YZ)
|}.

Definition set_model_matrix (self : Model) (matrix : ndarray3 float) : Model :=
  let '(x_size, y_size, z_size) := shape3 matrix in {|
  matrix_3d := Some matrix;
  patient_metadata := patient_metadata self;
  examination_metadata := examination_metadata self;
  xy_projection := set_shape (xy_projection self) x_size y_size z_size;
  xz_projection := set_shape (xz_projection self) x_size z_size y_size;
  yz_projection := set_shape (yz_projection self) y_size z_size x_size
|}.

Definition get_model_matrix (self : Model) : option (ndarray3 float) := matrix_3d self.

Definition get_projection_model (self : Model) (plain : Plain) : ProjectionModel :=
  match plain with
  | XY => xy_projection self
  | XZ => xz_projection self
  | YZ => yz_projection self
  end.

(** The projection objects are mutated through the references that
    [get_projection_model] hands out; here the changed projection is put
    back into its slot. *)
Definition put_projection_model (self : Model) (plain : Plain) (pm : ProjectionModel) : Model := {|
  matrix_3d := matrix_3d self;
  patient_metadata := patient_metadata self;
  examination_metadata := examination_metadata self;
  xy_projection := if decide (plain = XY) then pm else xy_projection self;
  xz_projection := if decide (plain = XZ) then pm else xz_projection self;
  yz_projection := if decide (plain = YZ) then pm else yz_projection self
|}.

Definition set_patient_metadata (self : Model) (md : dict string) : Model := {|
  matrix_3d := matrix_3d self;
  patient_metadata := Some md;
  examination_metadata := examination_metadata self;
  xy_projection := xy_projection self;
  xz_projection := xz_projection self;
  yz_projection := yz_projection self
|}.

Definition set_examination_metadata (self : Model) (md : dict string) : Model := {|
  matrix_3d := matrix_3d self;
  patient_metadata := patient_metadata self;
  examination_metadata := Some md;
  xy_projection := xy_projection self;
  xz_projection := xz_projection self;
  yz_projection := yz_projection self
|}.

Definition get_patient_metadata (self : Model) : option (dict string) :=
  patient_metadata self.

Definition get_examination_metadata (self : Model) : option (dict string) :=
  examination_metadata self.

End model.
Import model.

(** ** app/controllers/main_controller.py *)

Module main_controller.

(** What the controller takes from numpy and from the interpreter without
    the viewer depending on how it is computed: [np.mean] and [np.std] of a
    region, and the text [str] gives for a float. *)
Class Numerics : Type := {
  np_mean : ndarray2 float → float;
  np_std : ndarray2 float → float;
  str_float : float → string
}.

(** The two flags of a [ProjectionWidget] that the handlers read. *)
Record ProjectionWidget : Type := {
  histogram_is_visible : bool;
  roi_is_visible : bool
}.

Definition ProjectionWidget_init : ProjectionWidget :=
  {| histogram_is_visible := false; roi_is_visible := false |}.

Definition set_histogram_visibility (w : ProjectionWidget) (visible : bool) : ProjectionWidget :=
  {| histogram_is_visible := visible; roi_is_visible := roi_is_visible w |}.

Definition set_roi_visibility (w : ProjectionWidget) (visible : bool) : ProjectionWidget :=
  {| histogram_is_visible := histogram_is_visible w; roi_is_visible := visible |}.

Record MainController : Type := {
  model : Model;
  xy_widget : ProjectionWidget;
  xz_widget : ProjectionWidget;
  yz_widget : ProjectionWidget
}.

(** The state [MvcApp.__init__] starts from. *)
Definition MainController_init : MainController := {|
  model := Model_init;
  xy_widget := ProjectionWidget_init;
  xz_widget := ProjectionWidget_init;
  yz_widget := ProjectionWidget_init
|}.

Definition with_model (self : MainController) (m : Model) : MainController := {|
  model := m;
  xy_widget := xy_widget self;
  xz_widget := xz_widget self;
  yz_widget := yz_widget self
|}.

Definition get_projection_widget (self : MainController) (plain : Plain) : ProjectionWidget :=
  match plain with
  | XY => xy_widget self
  | XZ => xz_widget self
  | YZ => yz_widget self
  end.

(** Subscripting the [None] of a model without a volume raises [TypeError].
    [Plain] has exactly the three members matched here. *)
Definition orthogonal_slicing (self : MainController) (n : Z) (plain : Plain)
    : result (ndarray2 float) :=
  match get_model_matrix (model self) with
  | None => Raise TypeError
  | Some matrix =>
      match plain with
      | XY => take_z matrix n
      | XZ => take_y matrix n
      | YZ => take_x matrix n
      end
  end.

(** An event handler leaves the controller in some state and either
    returns or lets an exception escape. *)
Definition handled : Type := result () * MainController.

Definition change_slice_handle (self : MainController) (n : Z) (plain : Plain) : handled :=
  let proj_model := get_projection_model (model self) plain in
  match orthogonal_slicing self n plain with
  | Raise e => (Raise e, self)
  | Ok img =>
      let proj_model := set_current_slice proj_model img n in
      let '(updated_md, proj_model) :=
        update_img_metadata proj_model (literal [
          ("Slice", pretty (n + 1) +:+ "/" +:+ pretty (get_slices_count proj_model))
        ]) in
      (Ok (), with_model self (put_projection_model (model self) plain proj_model))
  end.

Definition histogram_mode_handle (self : MainController) (visible : bool) : handled :=
  (Ok (), {|
    model := model self;
    xy_widget := set_histogram_visibility (xy_widget self) visible;
    xz_widget := set_histogram_visibility (xz_widget self) visible;
    yz_widget := set_histogram_visibility (yz_widget self) visible
  |}).

(** [width = int(max_val - min_val); center = int(min_val + width/2)] *)
Definition compute_window (min_val max_val : float) : result (Z * Z) :=
  width ← to_int (sub max_val min_val);
  half ← int_half width;
  center ← to_int (add min_val half);
  Ok (width, center).

(** [levels] is what [histogram.getLevels()] returns. *)
Definition histogram_changed_handle (self : MainController)
    (levels : float * float) (plain : Plain) : handled :=
  let proj_widget := get_projection_widget self plain in
  let proj_model := get_projection_model (model self) plain in
  if negb (histogram_is_visible proj_widget) then (Ok (), self)
  else
    let '(min_val, max_val) := levels in
    match compute_window min_val max_val with
    | Raise e => (Raise e, self)
    | Ok (width, center) =>
        let '(_, proj_model) :=
          update_img_metadata proj_model (literal [
            ("Window Width", pretty width);
            ("Window Level", pretty center)
          ]) in
        (Ok (), with_model self (put_projection_model (model self) plain proj_model))
    end.

Definition roi_mode_handle (self : MainController) (visible : bool) : handled :=
  (Ok (), {|
    model := model self;
    xy_widget := set_roi_visibility (xy_widget self) visible;
    xz_widget := set_roi_visibility (xz_widget self) visible;
    yz_widget := set_roi_visibility (yz_widget self) visible
  |}).

Section handlers.
Context `{Numerics}.

(** [a * b] where [b] may be [None]: multiplying by [None] raises. *)
Definition mul_opt (a : float) (b : option float) : result float :=
  match b with
  | Some b => Ok (mul a b)
  | None => Raise TypeError
  end.

(** [pixel_width * col_spacing * pixel_height * row_spacing], evaluated from
    the left. *)
Definition roi_area (pixel_width pixel_height : nat)
    (col_spacing row_spacing : option float) : result float :=
  a ← mul_opt (of_int (Z.of_nat pixel_width)) col_spacing;
  mul_opt (mul a (of_int (Z.of_nat pixel_height))) row_spacing.

(** The body of [roi_changed_handle] below the visibility test.
    [roi_matrix] is the region [roi.getArrayRegion] cut from the current
    slice. An exception raised by the area product escapes after the
    footprint has been recorded. *)
Definition roi_stats (proj_model : ProjectionModel) (roi_matrix : ndarray2 float)
    : result () * ProjectionModel :=
  let '(pixel_width, pixel_height) := shape2 roi_matrix in
  let '(col_spacing, row_spacing) := get_spacings proj_model in
  let prev_roi_size := prev_roi_pix_size proj_model in
  let '(outcome, proj_model) :=
    if bool_decide ((pixel_width, pixel_height) ≠ prev_roi_size) then
      let proj_model := set_prev_roi_pix_size proj_model (pixel_width, pixel_height) in
      match roi_area pixel_width pixel_height col_spacing row_spacing with
      | Raise e => (Raise e, proj_model)
      | Ok roi_mm_area =>
          (Ok (), (update_roi_metadata proj_model (literal [
             ("Area", format_2f roi_mm_area +:+ " mm2")
           ])).2)
      end
    else (Ok (), proj_model) in
  match outcome with
  | Raise e => (Raise e, proj_model)
  | Ok _ =>
      let roi_mean := np_mean roi_matrix in
      let roi_std := np_std roi_matrix in
      (Ok (), (update_roi_metadata proj_model (literal [
         ("Mean", format_2f roi_mean);
         ("Std Dev", format_2f roi_std)
       ])).2)
  end.

Definition roi_changed_handle (self : MainController)
    (roi_matrix : ndarray2 float) (plain : Plain) : handled :=
  let proj_widget := get_projection_widget self plain in
  let proj_model := get_projection_model (model self) plain in
  if negb (roi_is_visible proj_widget) then (Ok (), self)
  else
    let '(outcome, proj_model) := roi_stats proj_model roi_matrix in
    (outcome, with_model self (put_projection_model (model self) plain proj_model)).

(** [f"{model.get_slices_thickness()}mm"] *)
Definition thickness_label (thickness : option float) : string :=
  match thickness with
  | Some t => str_float t +:+ "mm"
  | None => "Nonemm"
  end.

(** The body of the loop that closes [__model_preset]. *)
Definition preset_metadata (model : ProjectionModel) : ProjectionModel :=
  let '(width, height) := get_img_size model in
  let model := set_img_metadata model (literal [
    ("Plane", PyStr.str (get_anatomical_plane model));
    ("Slice", "unknown");
    ("Window Width", "4000");
    ("Window Level", "2000");
    ("Size", pretty width +:+ "x" +:+ pretty height);
    ("Slice Thickness", thickness_label (get_slices_thickness model))
  ]) in
  set_roi_metadata model (literal [
    ("Area", "");
    ("Mean", "");
    ("Std Dev", "")
  ]).

Definition model_preset (self : MainController) (ct_slices : list FileDataset) : handled :=
  match get_ct_model_as_matrix ct_slices 1 with
  | Raise e => (Raise e, self)
  | Ok matrix =>
      let m := set_model_matrix (model self) matrix in
      let '(x_size, y_size, z_size) := shape3 matrix in
      match
        metadata_slice ← getitem ct_slices (Z.of_nat z_size `div` 2);
        spacing ← get_ct_pixel_spacing metadata_slice;
        Ok (metadata_slice, spacing)
      with
      | Raise e => (Raise e, with_model self m)
      | Ok (metadata_slice, (row_spacing, col_spacing)) =>
          let slice_thickness := get_ct_thickness metadata_slice in
          let xy_model := get_projection_model m XY in
          let xy_model :=
            set_spacings xy_model (Some col_spacing) (Some row_spacing) slice_thickness in
          let xy_model := set_anatomical_plane xy_model "Axial" in
          let xy_model := set_projection_orientation xy_model (literal [
            ("up", "P"); ("bottom", "A"); ("left", "R"); ("right", "L")
          ]) in
          let xz_model := get_projection_model m XZ in
          let xz_model :=
            set_spacings xz_model (Some col_spacing) slice_thickness (Some row_spacing) in
          let xz_model := set_anatomical_plane xz_model "Coronal" in
          let xz_model := set_projection_orientation xz_model (literal [
            ("up", "S"); ("bottom", "I"); ("left", "R"); ("right", "L")
          ]) in
          let yz_model := get_projection_model m YZ in
          let yz_model :=
            set_spacings yz_model (Some row_spacing) slice_thickness (Some col_spacing) in
          let yz_model := set_anatomical_plane yz_model "Sagittal" in
          let yz_model := set_projection_orientation yz_model (literal [
            ("up", "S"); ("bottom", "I"); ("left", "A"); ("right", "P")
          ]) in
          let patient_data := get_patient_data metadata_slice in
          let examination_data := get_examination_data metadata_slice in
          let m := set_patient_metadata m patient_data in
          let m := set_examination_metadata m examination_data in
          let m := put_projection_model m XY (preset_metadata xy_model) in
          let m := put_projection_model m XZ (preset_metadata xz_model) in
          let m := put_projection_model m YZ (preset_metadata yz_model) in
          (Ok (), with_model self m)
      end
  end.

(** [load_model_handle] once the files are read and sorted: the projection
    views it then fills only read the model. *)
Definition load_model_handle (self : MainController) (ct_slices : list FileDataset)
    : handled :=
  model_preset self ct_slices.

(** The notifications the views deliver to the controller. *)
Inductive event : Type :=
| LoadModel (ct_slices : list FileDataset)
| ChangeSlice (n : Z) (plain : Plain)
| HistogramMode (visible : bool)
| HistogramChanged (levels : float * float) (plain : Plain)
| RoiMode (visible : bool)
| RoiChanged (roi_matrix : ndarray2 float) (plain : Plain).

Definition handle (self : MainController) (ev : event) : handled :=
  match ev with
  | LoadModel ct_slices => load_model_handle self ct_slices
  | ChangeSlice n plain => change_slice_handle self n plain
  | HistogramMode visible => histogram_mode_handle self visible
  | HistogramChanged levels plain => histogram_changed_handle self levels plain
  | RoiMode visible => roi_mode_handle self visible
  | RoiChanged roi_matrix plain => roi_changed_handle self roi_matrix plain
  end.


(** The controller after a sequence of notifications; an exception that
    escapes a handler is reported by Qt and the event loop goes on. *)
Definition run (self : MainController) (evs : list event) : MainController :=
  foldl (λ c ev, (handle c ev).2) self evs.

End handlers.
End main_controller.
Import main_controller.

(** ** Inputs used by the examples *)

Module Examples.

(** A data set that carries pixel data and no other element. *)
Definition bare_slice (a : ndarray2 Z) : FileDataset := {|
  pixel_array := a;
  SliceThickness := None;
  PixelSpacing := None;
  PatientID := None;
  PatientName := None;
  PatientAge := None;
  PatientSex := None;
  StudyID := None;
  Date := None;
  BodyPartExamined := None
|}.

Definition px (v : Z) : ndarray2 Z := Array2 (1, 1)%nat [[v]].

Definition square (a b c d : Z) : ndarray2 Z := Array2 (2, 2)%nat [[a; b]; [c; d]].

(** Three one-pixel slices, in input order. *)
Definition stack3 : list FileDataset :=
  [bare_slice (px 10); bare_slice (px 20); bare_slice (px 30)].

(** A one-pixel slice followed by a 2x2 slice. *)
Definition mixed_stack : list FileDataset :=
  [bare_slice (px 7); bare_slice (square 1 2 3 4)].

(** Two 2x3 slices: equal shapes, not square. *)
Definition wide_stack : list FileDataset :=
  [bare_slice (Array2 (2, 3)%nat [[1; 2; 3]; [4; 5; 6]]);
   bare_slice (Array2 (2, 3)%nat [[7; 8; 9]; [10; 11; 12]])].

(** A 2x3x4 volume whose sample at (x, y, z) is 100x + 10y + z. *)
Definition volume_234 : ndarray3 float :=
  Array3 (2, 3, 4)%nat
    ((λ x, (λ y, (λ z, of_int (100 * Z.of_nat x + 10 * Z.of_nat y + Z.of_nat z))
                   <$> seq 0 4) <$> seq 0 3) <$> seq 0 2).

Definition half : float := S754_finite false 4503599627370496 (-53).

Definition max_float : float := SFmax_float prec emax.

(** Mean and standard deviation by summation from the left, and two-decimal
    text for floats: one instance of [Numerics]. *)
Definition mean_of (a : ndarray2 float) : float :=
  let samples := concat (data2 a) in
  SFdiv prec emax (foldl add (S754_zero false) samples) (of_int (Z.of_nat (length samples))).

Definition std_of (a : ndarray2 float) : float :=
  let mu := mean_of a in
  let squares := (λ row : list float, (λ v, mul (sub v mu) (sub v mu)) <$> row) <$> data2 a in
  SFsqrt prec emax (mean_of (Array2 (shape2 a) squares)).

Definition left_to_right : Numerics :=
  {| np_mean := mean_of; np_std := std_of; str_float := format_2f |}.

(** A slice with half-millimetre pixels, 2 mm thick. *)
Definition ct_slice (a : ndarray2 Z) : FileDataset := {|
  pixel_array := a;
  SliceThickness := Some (of_int 2);
  PixelSpacing := Some (half, half);
  PatientID := Some "P-01";
  PatientName := Some "Doe^John";
  PatientAge := Some "042Y";
  PatientSex := Some "m";
  StudyID := Some "S-7";
  Date := None;
  BodyPartExamined := Some "CHEST"
|}.

Definition ct_stack : list FileDataset :=
  [ct_slice (square 1 2 3 4); ct_slice (square 5 6 7 8)].


Definition roi_2x1 : ndarray2 float :=
  Array2 (2, 1)%nat [[of_int 3]; [of_int 5]].

(** The viewer after a load, with the ROI switched on. *)
Definition roi_shown : MainController :=
  @run left_to_right MainController_init [LoadModel ct_stack; RoiMode true].

End Examples.

(** ** app/helpers/dcm_manager.py: the extraction of the CT files *)

Module ct_files.

(** A file as [extract_ct_from_dcm] sees it: the data set the viewer reads
    later, and its [SliceLocation]. An element is taken to be absent or to
    hold a value: [None] is the absent element, for which [hasattr] is
    false and the attribute read raises [AttributeError]. *)
Record DcmFile : Type := {
  dataset : FileDataset;
  SliceLocation : option float
}.

(** [x != 0] on floats: false for the two zeros, true for [nan]. *)
Definition ne_zero (x : float) : bool := negb (SFeqb x (S754_zero false)).

(** [hasattr(dcm_f, 'SliceLocation') or
     (hasattr(dcm_f, 'SliceThickness') and dcm_f.SliceThickness != 0)] *)
Definition is_ct (dcm_f : DcmFile) : bool :=
  match SliceLocation dcm_f with
  | Some _ => true
  | None =>
      match SliceThickness (dataset dcm_f) with
      | Some thickness => ne_zero thickness
      | None => false
      end
  end.

(** The keys [sorted] computes before it compares anything: one attribute
    read per file, and a read that fails ends the call. *)
Fixpoint keyed (ct_slices : list DcmFile) : option (list (float * DcmFile)) :=
  match ct_slices with
  | [] => Some []
  | dcm_f :: rest =>
      k ← SliceLocation dcm_f;
      keyed_rest ← keyed rest;
      Some ((k, dcm_f) :: keyed_rest)
  end.

(** [sorted] compares keys with [<] and is stable: an item goes before the
    first item whose key is greater than its own. On keys that [<] orders
    totally this fixes the result, whatever the algorithm. *)
Fixpoint insert_by_key {A} (k : float) (x : A) (l : list (float * A)) : list (float * A) :=
  match l with
  | [] => [(k, x)]
  | (k', y) :: rest =>
      if SFltb k k' then (k, x) :: (k', y) :: rest
      else (k', y) :: insert_by_key k x rest
  end.

Definition sorted_by_key {A} (l : list (float * A)) : list (float * A) :=
  foldl (λ acc kx, insert_by_key kx.1 kx.2 acc) [] l.

(** What a call of [extract_ct_from_dcm] ends with. *)
Inductive extraction : Type :=
| Extracted (ct_slices : list DcmFile)
| AttributeError.

Definition extract_ct_from_dcm (dcm_files : list DcmFile) : extraction :=
  let ct_slices := filter (λ dcm_f, is_ct dcm_f = true) dcm_files in
  match keyed ct_slices with
  | Some with_keys => Extracted ((sorted_by_key with_keys).*2)
  | None => AttributeError
  end.

(** The position of a file along the scan axis as a multiple of [2^-1074];
    zero for a file without [SliceLocation]. *)
Definition slice_position (dcm_f : DcmFile) : Z :=
  match SliceLocation dcm_f with
  | Some k => units k
  | None => 0
  end.

(** The [SliceLocation] of the file, if any, is a finite binary64 value. *)
Definition located (dcm_f : DcmFile) : Prop :=
  ∀ k, SliceLocation dcm_f = Some k → valid k ∧ is_finite k = true.

(** A key next to the file it was read from. *)
Definition key_of_file (kf : float * DcmFile) : Prop :=
  SliceLocation kf.2 = Some kf.1.

(** Keys in ascending order of value. *)
Fixpoint ascending {A} (l : list (float * A)) : Prop :=
  match l with
  | [] => True
  | kx :: rest => Forall (λ ky, units kx.1 ≤ units ky.1) rest ∧ ascending rest
  end.

End ct_files.
Import ct_files.

(** ** app/controllers/main_controller.py: the slider of a projection view *)

(** [__set_projection_view]: the arguments of
    [projection.set_slider(position=slices_count // 2, max_val=slices_count - 1)]. *)
Definition slider_setting (model : ProjectionModel) : Z * Z :=
  let slices_count := Z.of_nat (get_slices_count model) in
  (slices_count `div` 2, slices_count - 1).

(** ** Predicates on the state of the viewer *)

(** The extent of a volume along the axis a projection is cut across, and
    the size of its cross-sections. *)
Definition extent_of (sh : nat * nat * nat) (plain : Plain) : nat :=
  let '(x, y, z) := sh in
  match plain with
  | XY => z
  | XZ => y
  | YZ => x
  end.

Definition section_of (sh : nat * nat * nat) (plain : Plain) : nat * nat :=
  let '(x, y, z) := sh in
  match plain with
  | XY => (x, y)
  | XZ => (x, z)
  | YZ => (y, z)
  end.

(** The sizes recorded in the projections are those of the stored volume,
    and all zero while there is none. *)
Definition sizes_match (m : Model) : Prop :=
  let sh := match get_model_matrix m with
            | Some vol => shape3 vol
            | None => (0, 0, 0)%nat
            end in
  ∀ plain,
    get_slices_count (get_projection_model m plain) = extent_of sh plain ∧
    get_img_size (get_projection_model m plain) = section_of sh plain.

Definition image_keys : list string :=
  ["Plane"; "Slice"; "Window Width"; "Window Level"; "Size"; "Slice Thickness"].

Definition roi_keys : list string := ["Area"; "Mean"; "Std Dev"].

(** The two labels of every projection have the lines a load gives them,
    in its order. *)
Definition labels_laid_out (m : Model) : Prop :=
  ∀ plain,
    keys (get_img_metadata (get_projection_model m plain)) = image_keys ∧
    keys (get_roi_metadata (get_projection_model m plain)) = roi_keys.

(** The plane a notification is about. *)
Definition event_plane (ev : event) : option Plain :=
  match ev with
  | ChangeSlice _ plain | HistogramChanged _ plain | RoiChanged _ plain => Some plain
  | LoadModel _ | HistogramMode _ | RoiMode _ => None
  end.

(** ** Further inputs used by the examples *)

Module Series.



(** A CT file at [z] mm. *)
Definition file_at (z : Z) : DcmFile :=
  {| dataset := Examples.ct_slice (Examples.px z); SliceLocation := Some (of_int z) |}.

(** A file with neither [SliceLocation] nor [SliceThickness]. *)
Definition scout : DcmFile :=
  {| dataset := Examples.bare_slice (Examples.px 0); SliceLocation := None |}.

(** A file with a [SliceThickness] of 2 mm and no [SliceLocation]. *)
Definition unlocated : DcmFile :=
  {| dataset := Examples.ct_slice (Examples.px 0); SliceLocation := None |}.

(** The viewer after a load, with the histogram switched on. *)
Definition histogram_shown : MainController :=
  @run Examples.left_to_right MainController_init
    [LoadModel Examples.ct_stack; HistogramMode true].

End Series.

(** * Properties *)

(** ** Indexing and loops *)

Lemma norm_index_nonneg (i : Z) (n : nat) :
  0 ≤ i < Z.of_nat n → norm_index i n = Ok (Z.to_nat i).
Proof. intros Hi. unfold norm_index. by rewrite bool_decide_eq_true_2. Qed.

Lemma norm_index_negative (i : Z) (n : nat) :
  - Z.of_nat n ≤ i < 0 → norm_index i n = Ok (Z.to_nat (Z.of_nat n + i)).
Proof.
  intros Hi. unfold norm_index.
  rewrite bool_decide_eq_false_2 by lia.
  by rewrite bool_decide_eq_true_2.
Qed.

Lemma norm_index_outside (i : Z) (n : nat) :
  ¬ (- Z.of_nat n ≤ i < Z.of_nat n) → norm_index i n = Raise IndexError.
Proof.
  intros Hi. unfold norm_index.
  rewrite bool_decide_eq_false_2 by lia.
  by rewrite bool_decide_eq_false_2 by lia.
Qed.

Lemma norm_index_bound (i : Z) (n idx : nat) :
  norm_index i n = Ok idx → (idx < n)%nat.
Proof.
  unfold norm_index. repeat case_bool_decide; intros [= <-]; lia.
Qed.

(** The index [-z] the assembly loop writes at in its [z]-th round. *)
Lemma norm_index_minus (z : Z) (n : nat) :
  0 ≤ z < Z.of_nat n →
  norm_index (- z) n = Ok (Z.to_nat ((Z.of_nat n - z) `mod` Z.of_nat n)).
Proof.
  intros Hz. destruct (decide (z = 0)) as [->|Hne].
  - rewrite norm_index_nonneg by lia.
    by rewrite Z.sub_0_r, Z_mod_same_full.
  - rewrite norm_index_negative by lia.
    rewrite Z.mod_small by lia. reflexivity.
Qed.

Lemma for_enumerate_ext {S B} (f g : Z → B → S → result S) (z : Z) (l : list B) (s : S) :
  (∀ z x s, f z x s = g z x s) → for_enumerate f z l s = for_enumerate g z l s.
Proof.
  intros Hfg. revert z s. induction l as [|x l IH]; intros z s; simpl; [done|].
  rewrite Hfg. destruct (g z x s); simpl; [apply IH | done].
Qed.

Lemma getitem_nil {A} (i : Z) : getitem (@nil A) i = Raise IndexError.
Proof. unfold getitem. by rewrite norm_index_outside by (simpl; lia). Qed.

Lemma getitem_lookup {A} (l : list A) (i : nat) (x : A) :
  l !! i = Some x → getitem l (Z.of_nat i) = Ok x.
Proof.
  intros Hx. unfold getitem.
  rewrite norm_index_nonneg by (apply lookup_lt_Some in Hx; lia).
  simpl. by rewrite Nat2Z.id, Hx.
Qed.

Lemma half_lt_length {A} (l : list A) :
  l ≠ [] → (length l `div` 2 < length l)%nat.
Proof.
  intros Hl. destruct l as [|x l]; [done|]. apply Nat.div_lt; simpl; lia.
Qed.

Lemma Z_half_of_nat (n : nat) : Z.of_nat n `div` 2 = Z.of_nat (n `div` 2).
Proof. by rewrite (Nat2Z.inj_div n 2). Qed.

(** ** Shapes through the array operations *)

Section array_facts.
Context {A : Type}.
Implicit Types (a b : ndarray2 A) (m : ndarray3 A).

Lemma rot90_mod (a : ndarray2 A) (k : Z) : rot90 a (k `mod` 4) = rot90 a k.
Proof. unfold rot90. by rewrite Z.mod_mod. Qed.

Lemma rot90_multiple_of_4 (a : ndarray2 A) (k : Z) : k `mod` 4 = 0 → rot90 a k = a.
Proof. intros Hk. unfold rot90. by rewrite Hk. Qed.

Lemma broadcast_to_fits a sh :
  fits (shape2 a) sh → ∃ b, broadcast_to a sh = Ok b ∧ shape2 b = sh.
Proof.
  intros Hfit. unfold broadcast_to. rewrite bool_decide_eq_true_2 by done. eauto.
Qed.

Lemma broadcast_to_misfit a sh :
  ¬ fits (shape2 a) sh → broadcast_to a sh = Raise ValueError.
Proof. intros Hfit. unfold broadcast_to. by rewrite bool_decide_eq_false_2. Qed.

Lemma setitem_z_fits m k b x y n :
  shape3 m = (x, y, n) → - Z.of_nat n ≤ k < Z.of_nat n → fits (shape2 b) (x, y) →
  ∃ m', setitem_z m k b = Ok m' ∧ shape3 m' = (x, y, n).
Proof.
  intros Hsh Hk Hfit. unfold setitem_z. rewrite Hsh.
  destruct (norm_index k n) as [idx|e] eqn:Hidx.
  - destruct (broadcast_to_fits b (x, y) Hfit) as (b' & -> & _).
    simpl. eauto.
  - exfalso. unfold norm_index in Hidx.
    repeat case_bool_decide; (discriminate || lia).
Qed.

Lemma setitem_z_misfit m k b x y n :
  shape3 m = (x, y, n) → - Z.of_nat n ≤ k < Z.of_nat n → ¬ fits (shape2 b) (x, y) →
  setitem_z m k b = Raise ValueError.
Proof.
  intros Hsh Hk Hfit. unfold setitem_z. rewrite Hsh.
  destruct (norm_index k n) as [idx|e] eqn:Hidx.
  - simpl. by rewrite broadcast_to_misfit.
  - exfalso. unfold norm_index in Hidx.
    repeat case_bool_decide; (discriminate || lia).
Qed.

End array_facts.

Lemma astype_float_shape (a : ndarray2 Z) : shape2 (astype_float a) = shape2 a.
Proof. done. Qed.

(** ** The assembly loop *)

Section assembly_loop.
Variable placed : FileDataset → ndarray2 Z.
Variables x y n : nat.

Let body : Z → FileDataset → ndarray3 float → result (ndarray3 float) :=
  λ z ct_s m, setitem_z m (- z) (astype_float (placed ct_s)).

Lemma assembly_loop_fits (l : list FileDataset) (z : Z) (m : ndarray3 float) :
  shape3 m = (x, y, n) → 0 ≤ z → z + Z.of_nat (length l) ≤ Z.of_nat n →
  Forall (λ d, fits (shape2 (placed d)) (x, y)) l →
  ∃ m', for_enumerate body z l m = Ok m' ∧ shape3 m' = (x, y, n).
Proof.
  subst body. revert z m.
  induction l as [|d l IH]; intros z m Hsh Hz Hlen Hall; simpl.
  - eauto.
  - inversion_clear Hall as [|? ? Hd Hl]. simpl in Hlen.
    destruct (setitem_z_fits m (- z) (astype_float (placed d)) x y n)
      as (m1 & Hm1 & Hsh1); [done | lia | done |].
    rewrite Hm1. simpl.
    apply IH; [done | lia | lia | done].
Qed.

Lemma assembly_loop_misfit (l : list FileDataset) (z : Z) (m : ndarray3 float) :
  shape3 m = (x, y, n) → 0 ≤ z → z + Z.of_nat (length l) ≤ Z.of_nat n →
  Exists (λ d, ¬ fits (shape2 (placed d)) (x, y)) l →
  for_enumerate body z l m = Raise ValueError.
Proof.
  subst body. revert z m.
  induction l as [|d l IH]; intros z m Hsh Hz Hlen Hex; simpl.
  - inversion Hex.
  - simpl in Hlen.
    destruct (decide (fits (shape2 (placed d)) (x, y))) as [Hd|Hd].
    + destruct (setitem_z_fits m (- z) (astype_float (placed d)) x y n)
        as (m1 & Hm1 & Hsh1); [done | lia | done |].
      rewrite Hm1. simpl. apply IH; [done | lia | lia |].
      inversion Hex; [contradiction | done].
    + by rewrite (setitem_z_misfit m (- z) _ x y n) by (done || lia).
Qed.

End assembly_loop.

Lemma zeros_shape {A} (zero : A) (sh : nat * nat * nat) : shape3 (zeros zero sh) = sh.
Proof. by destruct sh as [[x y] z]. Qed.

(** [get_ct_model_as_matrix] on a stack with a middle slice, with both
    branches of the rotation test folded into [rot90]. *)
Lemma get_ct_model_as_matrix_unfold (dcm_files : list FileDataset) (rot_k : Z)
    (mid : FileDataset) :
  dcm_files !! (length dcm_files `div` 2)%nat = Some mid →
  get_ct_model_as_matrix dcm_files rot_k =
    for_enumerate
      (λ z ct_s m, setitem_z m (- z) (astype_float (rot90 (pixel_array ct_s) rot_k)))
      0 dcm_files
      (zeros (S754_zero false)
         ((shape2 (pixel_array mid)).1, (shape2 (pixel_array mid)).2, length dcm_files)).
Proof.
  intros Hmid. unfold get_ct_model_as_matrix.
  rewrite Z_half_of_nat, (getitem_lookup _ _ _ Hmid). simpl.
  destruct (shape2 (pixel_array mid)) as [x_size y_size]. simpl.
  case_bool_decide as Hrot; [done|].
  assert (rot_k `mod` 4 = 0) as Hk by (destruct (decide (rot_k `mod` 4 = 0)); tauto).
  apply for_enumerate_ext. intros z ct_s m.
  by rewrite rot90_multiple_of_4.
Qed.

(** ** Volume assembly *)

Import Examples.

(** Decide a closed decidable proposition by evaluation. *)
Ltac by_compute :=
  match goal with
  | |- ?P => apply (bool_decide_eq_true_1 P); vm_compute; reflexivity
  end.

Section wf_facts.
Context {A : Type}.
Implicit Types (a b : ndarray2 A) (m : ndarray3 A) (rows : list (list A)).

Lemma rows_have_shape_reverse r c rows :
  rows_have_shape r c rows → rows_have_shape r c (reverse rows).
Proof.
  intros [Hlen Hrows]. split; [by rewrite length_reverse|].
  by apply Forall_reverse.
Qed.

Lemma rows_have_shape_fmap_reverse r c rows :
  rows_have_shape r c rows → rows_have_shape r c (reverse <$> rows).
Proof.
  intros [Hlen Hrows]. split; [by rewrite length_fmap|].
  apply Forall_fmap. eapply Forall_impl; [exact Hrows|].
  intros row Hrow. simpl. by rewrite length_reverse.
Qed.

Lemma zip_with_cons_lengths (r : nat) (row : list A) (cols : list (list A)) :
  Forall (λ col, length col = r) cols →
  Forall (λ col, length col = S r) (zip_with cons row cols).
Proof.
  intros Hcols. revert row.
  induction Hcols as [|col cols Hcol Hcols IH]; intros [|v row]; simpl;
    try (by constructor).
  constructor; [simpl; by rewrite Hcol | apply IH].
Qed.

Lemma rows_have_shape_transpose r c rows :
  rows_have_shape r c rows → rows_have_shape c r (transpose_rows c rows).
Proof.
  intros [Hlen Hrows]. revert r Hlen.
  induction Hrows as [|row rows Hrow Hrows IH]; intros r Hlen; simpl in *.
  - subst r. split; [by rewrite length_replicate|].
    by apply Forall_replicate.
  - destruct r as [|r]; [done|]. injection Hlen as Hlen.
    destruct (IH r Hlen) as [Hlen' Hall]. split.
    + rewrite length_zip_with. lia.
    + by apply zip_with_cons_lengths.
Qed.

Lemma wf2_rot90 a (k : Z) : wf2 a → wf2 (rot90 a k).
Proof.
  intros Hwf. unfold rot90, wf2 in *. destruct a as [[r c] rows]. simpl in *.
  destruct (k `mod` 4) as [|[[|[]|]|[|[]|]|]|]; simpl;
    auto using rows_have_shape_reverse, rows_have_shape_fmap_reverse,
               rows_have_shape_transpose.
Qed.

End wf_facts.

Lemma wf2_astype_float (a : ndarray2 Z) : wf2 a → wf2 (astype_float a).
Proof.
  intros [Hlen Hrows]. split; simpl; [by rewrite length_fmap|].
  apply Forall_fmap. eapply Forall_impl; [exact Hrows|].
  intros row Hrow. simpl. by rewrite length_fmap.
Qed.

Section assembly_facts.
Context {A : Type}.
Implicit Types (a b : ndarray2 A) (m : ndarray3 A).

Lemma length_stretch {B} (n p : nat) (l : list B) :
  length l = p → broadcastable p n → length (stretch n p l) = n.
Proof.
  intros Hl Hb. unfold stretch. case_decide as Hp; [lia|].
  destruct Hb as [?| ->]; [done|].
  destruct l as [|v l]; [done|]. by rewrite length_replicate.
Qed.

Lemma Forall_stretch {B} (P : B → Prop) (n p : nat) (l : list B) :
  Forall P l → Forall P (stretch n p l).
Proof.
  intros Hl. unfold stretch. case_decide; [done|].
  destruct Hl as [|v l Hv Hl]; [done|]. by apply Forall_replicate.
Qed.

Lemma wf2_broadcast_to a b sh :
  wf2 a → broadcast_to a sh = Ok b → wf2 b ∧ shape2 b = sh.
Proof.
  intros [Hlen Hrows]. unfold broadcast_to.
  case_bool_decide as Hfit; [|done]. intros [= <-]. split; [|done].
  destruct Hfit as [Hr Hc]. split; simpl.
  - apply length_stretch; [by rewrite length_fmap | done].
  - apply Forall_stretch, Forall_fmap. eapply Forall_impl; [exact Hrows|].
    intros row Hrow. simpl. by apply length_stretch.
Qed.

Lemma wf3_zeros (zero : A) (sh : nat * nat * nat) : wf3 (zeros zero sh).
Proof.
  destruct sh as [[x y] z]. split; simpl; [by rewrite length_replicate|].
  apply Forall_replicate. split; [by rewrite length_replicate|].
  apply Forall_replicate. by rewrite length_replicate.
Qed.

(** Writing a value at [idx] in every column of a plane, then reading the
    plane at an index. *)
Lemma omap_insert_row (idx n : nat) (plane : list (list A)) (row : list A) :
  (idx < n)%nat → Forall (λ col, length col = n) plane → length row = length plane →
  omap (λ col : list A, col !! idx) (zip_with (λ col v, <[idx := v]> col) plane row) = row.
Proof.
  intros Hidx Hplane. revert row.
  induction Hplane as [|col plane Hcol Hplane IH]; intros [|v row] Hlen; try done.
  simpl in Hlen. cbn [zip_with].
  change (omap ?f (?x :: ?l)) with (match f x with Some y => y :: omap f l | None => omap f l end).
  rewrite list_lookup_insert_eq by lia. f_equal. apply IH. lia.
Qed.

Lemma omap_insert_row_ne (idx j : nat) (plane : list (list A)) (row : list A) :
  idx ≠ j → length row = length plane →
  omap (λ col : list A, col !! j) (zip_with (λ col v, <[idx := v]> col) plane row)
    = omap (λ col : list A, col !! j) plane.
Proof.
  intros Hne. revert row.
  induction plane as [|col plane IH]; intros [|v row] Hlen; try done.
  simpl in Hlen. cbn [zip_with].
  change (omap ?f (?x :: ?l)) with (match f x with Some y => y :: omap f l | None => omap f l end).
  rewrite list_lookup_insert_ne by done. rewrite IH by lia. done.
Qed.

Lemma rows_have_shape_insert (idx y n : nat) (plane : list (list A)) (row : list A) :
  rows_have_shape y n plane → length row = y →
  rows_have_shape y n (zip_with (λ col v, <[idx := v]> col) plane row).
Proof.
  intros [Hlen Hcols] Hrow. split; [rewrite length_zip_with; lia|].
  clear Hlen Hrow. revert row.
  induction Hcols as [|col plane Hcol Hcols IH]; intros [|v row]; simpl;
    try (by constructor).
  constructor; [simpl; by rewrite length_insert | apply IH].
Qed.

Lemma setitem_z_spec m (k : Z) b x y n :
  wf3 m → wf2 b → shape3 m = (x, y, n) →
  ∀ m', setitem_z m k b = Ok m' →
  ∃ idx b', norm_index k n = Ok idx ∧ broadcast_to b (x, y) = Ok b' ∧
    wf3 m' ∧ shape3 m' = (x, y, n) ∧
    take_z m' (Z.of_nat idx) = Ok b' ∧
    ∀ j, (j < n)%nat → j ≠ idx → take_z m' (Z.of_nat j) = take_z m (Z.of_nat j).
Proof.
  intros [Hlen Hplanes] Hb Hsh m'. unfold setitem_z. rewrite Hsh in *. simpl in *.
  destruct (norm_index k n) as [idx|e] eqn:Hidx; simpl; [|done].
  destruct (broadcast_to b (x, y)) as [b'|e] eqn:Hb'; simpl; [|done].
  intros [= <-]. exists idx, b'. split; [done|]. split; [done|].
  destruct (wf2_broadcast_to _ _ _ Hb Hb') as [[Hlen' Hrows'] Hsh'].
  rewrite Hsh' in Hlen', Hrows'. simpl in Hlen', Hrows'.
  pose proof (norm_index_bound _ _ _ Hidx) as Hlt.
  assert (Forall2 (λ plane row, rows_have_shape y n plane ∧ length row = y)
            (data3 m) (data2 b')) as Hpairs.
  { apply Forall2_same_length_lookup_2; [lia|]. intros i plane row Hp Hr. split.
    - exact (Forall_lookup_1 _ _ _ _ Hplanes Hp).
    - exact (Forall_lookup_1 _ _ _ _ Hrows' Hr). }
  split; [|split; [done|split]].
  - split; simpl; [rewrite length_zip_with; lia|].
    clear Hlen Hlen' Hplanes Hrows'.
    induction Hpairs as [|plane row planes rows [Hp Hr] _ IH]; simpl; constructor; [|done].
    by apply rows_have_shape_insert.
  - unfold take_z. simpl. rewrite norm_index_nonneg by lia. rewrite Nat2Z.id. simpl.
    destruct b' as [sh' rows']. simpl in *. subst sh'. f_equal. f_equal.
    clear Hlen Hlen' Hplanes Hrows' Hb'.
    induction Hpairs as [|plane row planes rows [[Hpl Hp] Hr] _ IH]; simpl; [done|].
    f_equal; [|done]. apply (omap_insert_row idx n); [done | done | lia].
  - intros j Hj Hne. unfold take_z. simpl. rewrite Hsh. simpl.
    rewrite norm_index_nonneg by lia. rewrite Nat2Z.id. simpl. f_equal. f_equal.
    clear Hlen Hlen' Hplanes Hrows' Hb'.
    induction Hpairs as [|plane row planes rows [[Hpl Hp] Hr] _ IH]; simpl; [done|].
    f_equal; [|done]. apply omap_insert_row_ne; [done | lia].
Qed.

End assembly_facts.

(** The Z index written in round [z] of the assembly loop. *)
Lemma z_index_inj (n : nat) (z1 z2 : Z) :
  0 ≤ z1 < Z.of_nat n → 0 ≤ z2 < Z.of_nat n →
  Z.to_nat ((Z.of_nat n - z1) `mod` Z.of_nat n)
    = Z.to_nat ((Z.of_nat n - z2) `mod` Z.of_nat n) →
  z1 = z2.
Proof.
  intros H1 H2.
  assert (∀ z, 0 ≤ z < Z.of_nat n →
            (Z.of_nat n - z) `mod` Z.of_nat n = if decide (z = 0) then 0 else Z.of_nat n - z)
    as Hmod.
  { intros z Hz. case_decide as Hz0.
    - subst z. by rewrite Z.sub_0_r, Z_mod_same_full.
    - apply Z.mod_small. lia. }
  rewrite !Hmod by done. repeat case_decide; lia.
Qed.

Section assembly_positions.
Variable placed : FileDataset → ndarray2 Z.
Variables x y n : nat.

Lemma assembly_loop_positions (l : list FileDataset) (z : Z) (m m' : ndarray3 float) :
  wf3 m → shape3 m = (x, y, n) → 0 ≤ z → z + Z.of_nat (length l) = Z.of_nat n →
  Forall (λ d, wf2 (placed d)) l →
  for_enumerate (λ z ct_s m, setitem_z m (- z) (astype_float (placed ct_s))) z l m = Ok m' →
  wf3 m' ∧ shape3 m' = (x, y, n) ∧
  (∀ (k : nat) d, l !! k = Some d →
     take_z m' (Z.of_nat (Z.to_nat ((Z.of_nat n - (z + Z.of_nat k)) `mod` Z.of_nat n)))
       = broadcast_to (astype_float (placed d)) (x, y)) ∧
  (∀ j : nat, (j < n)%nat →
     (∀ k : nat, (k < length l)%nat →
        j ≠ Z.to_nat ((Z.of_nat n - (z + Z.of_nat k)) `mod` Z.of_nat n)) →
     take_z m' (Z.of_nat j) = take_z m (Z.of_nat j)).
Proof.
  revert z m. induction l as [|d l IH]; intros z m Hwf Hsh Hz Hlen Hall; simpl.
  - intros [= <-]. split; [done|]. split; [done|]. split; [|done].
    intros k d Hk. by rewrite lookup_nil in Hk.
  - simpl in Hlen. inversion_clear Hall as [|? ? Hd Hl].
    destruct (setitem_z m (- z) (astype_float (placed d))) as [m1|e] eqn:Hm1; simpl; [|done].
    intros Hrest.
    destruct (setitem_z_spec m (- z) _ x y n Hwf (wf2_astype_float _ Hd) Hsh m1 Hm1)
      as (idx & b' & Hidx & Hb' & Hwf1 & Hsh1 & Hread & Hother).
    rewrite norm_index_minus in Hidx by lia. injection Hidx as <-.
    destruct (IH (z + 1) m1 Hwf1 Hsh1 ltac:(lia) ltac:(lia) Hl Hrest)
      as (Hwf' & Hsh' & Hpos & Hkeep).
    split; [done|]. split; [done|]. split.
    + intros [|k] d' Hk; simpl in Hk.
      * injection Hk as <-. rewrite Z.add_0_r. rewrite Hkeep.
        -- by rewrite Hread, Hb'.
        -- apply Nat2Z.inj_lt. rewrite Z2Nat.id by (apply Z.mod_pos_bound; lia).
           apply Z.mod_pos_bound. lia.
        -- intros k Hk Heq. apply z_index_inj in Heq; lia.
      * rewrite <- (Hpos k d' Hk). do 4 f_equal. lia.
    + intros j Hj Hfree. rewrite Hkeep.
      * apply Hother; [done|]. specialize (Hfree 0%nat ltac:(simpl; lia)).
        by rewrite Z.add_0_r in Hfree.
      * done.
      * intros k Hk. specialize (Hfree (S k) ltac:(simpl; lia)).
        by replace (z + 1 + Z.of_nat k) with (z + Z.of_nat (S k)) by lia.
Qed.

End assembly_positions.

(** Where the assembly puts each slice: the slice of input position [i]
    is found, broadcast to the in-plane shape, at Z index [(N - i) mod N],
    which is 0 for the first slice and [N - i] for the others. *)
Lemma assembled_slice_position (dcm_files : list FileDataset) (rot_k : Z)
    (vol : ndarray3 float) (mid : FileDataset) :
  dcm_files !! (length dcm_files `div` 2)%nat = Some mid →
  Forall (λ d, wf2 (pixel_array d)) dcm_files →
  get_ct_model_as_matrix dcm_files rot_k = Ok vol →
  wf3 vol ∧
  ∀ (i : nat) d, dcm_files !! i = Some d →
    let N := Z.of_nat (length dcm_files) in
    take_z vol (Z.of_nat (Z.to_nat ((N - Z.of_nat i) `mod` N)))
      = broadcast_to (astype_float (rot90 (pixel_array d) rot_k)) (shape2 (pixel_array mid)).
Proof.
  intros Hmid Hwf. rewrite (get_ct_model_as_matrix_unfold _ _ _ Hmid). intros Hloop.
  destruct (shape2 (pixel_array mid)) as [w h] eqn:Hshape. cbn [fst snd] in Hloop.
  assert (Forall (λ d, wf2 (rot90 (pixel_array d) rot_k)) dcm_files) as Hrot.
  { eapply Forall_impl; [exact Hwf|]. intros d Hd. by apply wf2_rot90. }
  destruct (assembly_loop_positions (λ d, rot90 (pixel_array d) rot_k) w h
              (length dcm_files) dcm_files 0
              (zeros (S754_zero false) (w, h, length dcm_files)) vol
              (wf3_zeros _ _) eq_refl ltac:(lia) ltac:(lia) Hrot Hloop)
    as (Hwf' & _ & Hpos & _).
  split; [done|]. intros i d Hi N. by rewrite <- (Hpos i d Hi).
Qed.

(** In a stack of equal well-formed shapes the first input slice is read
    back at Z index 0 and the second at the highest Z index. *)
Lemma first_slice_at_bottom (first second : FileDataset) (rest : list FileDataset)
    (vol : ndarray3 float) (mid : FileDataset) :
  let dcm_files := first :: second :: rest in
  dcm_files !! (length dcm_files `div` 2)%nat = Some mid →
  Forall (λ d, wf2 (pixel_array d)) dcm_files →
  get_ct_model_as_matrix dcm_files 0 = Ok vol →
  take_z vol 0 = broadcast_to (astype_float (pixel_array first)) (shape2 (pixel_array mid)) ∧
  take_z vol (Z.of_nat (length dcm_files) - 1)
    = broadcast_to (astype_float (pixel_array second)) (shape2 (pixel_array mid)).
Proof.
  intros dcm_files Hmid Hwf Hvol.
  destruct (assembled_slice_position dcm_files 0 vol mid Hmid Hwf Hvol) as [_ Hpos].
  split.
  - pose proof (Hpos 0%nat first eq_refl) as H0. cbn zeta in H0.
    rewrite Z.sub_0_r, Z_mod_same_full in H0. exact H0.
  - pose proof (Hpos 1%nat second eq_refl) as H1. cbn zeta in H1.
    rewrite Z.mod_small in H1 by (unfold dcm_files; simpl length; lia).
    rewrite Z2Nat.id in H1 by (unfold dcm_files; simpl length; lia). exact H1.
Qed.

(** C1 (the code against the claim). The loop writes the slice of input
    position [z] at index [-z]. For [z = 0] that is index 0, not the last
    index: of three input slices the first lands at Z index 0, the second at
    the highest Z index 2 and the third at Z index 1. The claim puts the
    first slice at Z index 2. *)
Theorem first_slice_stays_at_z0 :
  ∃ vol, get_ct_model_as_matrix stack3 0 = Ok vol ∧
    take_z vol 0 = Ok (astype_float (px 10)) ∧
    take_z vol 2 = Ok (astype_float (px 20)) ∧
    take_z vol 1 = Ok (astype_float (px 30)) ∧
    take_z vol (3 - 1 - 0) ≠ Ok (astype_float (px 10)).
Proof.
  eexists. split; [vm_compute; reflexivity|].
  repeat split; try (vm_compute; reflexivity).
  vm_compute. discriminate.
Qed.

(** C2, refuted as stated: the two slices of [mixed_stack] differ in shape,
    1x1 against 2x2, and the volume is built all the same, the single pixel
    repeated over its plane. *)
Lemma mismatched_shapes_accepted :
  (∃ d1 d2, d1 ∈ mixed_stack ∧ d2 ∈ mixed_stack ∧
     shape2 (pixel_array d1) ≠ shape2 (pixel_array d2)) ∧
  ¬ raises (get_ct_model_as_matrix mixed_stack 0) ∧
  ∃ vol, get_ct_model_as_matrix mixed_stack 0 = Ok vol ∧
    take_z vol 0 = Ok (astype_float (square 7 7 7 7)).
Proof.
  split; [|split].
  - exists (bare_slice (px 7)), (bare_slice (square 1 2 3 4)).
    unfold mixed_stack. repeat split; [repeat constructor.. | discriminate].
  - intros [e He]. vm_compute in He. discriminate.
  - eexists. split; vm_compute; reflexivity.
Qed.

(** C2, as the code has it. An empty stack raises [IndexError] at the read
    of the middle slice. A stack with a middle slice of shape (W,H) raises
    [ValueError] when the shape of some slice, after rotation, cannot be
    broadcast to (W,H): an axis that is neither equal to the target nor 1.
    When every slice can be broadcast, a volume of shape (W,H,N) is
    returned. An error of the assembly escapes the load handler, which
    leaves the controller as it was. *)
Theorem get_ct_model_as_matrix_failures `{Numerics}
    (dcm_files : list FileDataset) (rot_k : Z) :
  (dcm_files = [] → get_ct_model_as_matrix dcm_files rot_k = Raise IndexError) ∧
  (∀ mid, dcm_files !! (length dcm_files `div` 2)%nat = Some mid →
     let target := shape2 (pixel_array mid) in
     (Exists (λ d, ¬ fits (shape2 (rot90 (pixel_array d) rot_k)) target) dcm_files →
        get_ct_model_as_matrix dcm_files rot_k = Raise ValueError) ∧
     (Forall (λ d, fits (shape2 (rot90 (pixel_array d) rot_k)) target) dcm_files →
        ∃ vol, get_ct_model_as_matrix dcm_files rot_k = Ok vol ∧
               shape3 vol = (target.1, target.2, length dcm_files))) ∧
  (∀ self e, get_ct_model_as_matrix dcm_files 1 = Raise e →
     load_model_handle self dcm_files = (Raise e, self)).
Proof.
  split; [|split].
  - intros ->. unfold get_ct_model_as_matrix. by rewrite getitem_nil.
  - intros mid Hmid target.
    rewrite (get_ct_model_as_matrix_unfold _ _ _ Hmid). fold target.
    destruct target as [w h] eqn:Htarget. simpl. split.
    + intros Hex.
      apply (assembly_loop_misfit (λ d, rot90 (pixel_array d) rot_k) w h (length dcm_files));
        [done | lia | lia | done].
    + intros Hall.
      apply (assembly_loop_fits (λ d, rot90 (pixel_array d) rot_k) w h (length dcm_files));
        [done | lia | lia | done].
  - intros self e He. unfold load_model_handle, model_preset. by rewrite He.
Qed.

Lemma get_ct_model_as_matrix_failures_witness :
  get_ct_model_as_matrix [] 1 = Raise IndexError ∧
  get_ct_model_as_matrix wide_stack 1 = Raise ValueError ∧
  (∃ vol, get_ct_model_as_matrix mixed_stack 1 = Ok vol ∧ shape3 vol = (2, 2, 2)%nat) ∧
  @load_model_handle left_to_right MainController_init wide_stack
    = (Raise ValueError, MainController_init).
Proof.
  split; [|split; [|split]].
  - apply (@get_ct_model_as_matrix_failures left_to_right [] 1). reflexivity.
  - apply (@get_ct_model_as_matrix_failures left_to_right wide_stack 1)
      with (mid := bare_slice (Array2 (2, 3)%nat [[7; 8; 9]; [10; 11; 12]])).
    + reflexivity.
    + apply Exists_cons_hd. by_compute.
  - apply (@get_ct_model_as_matrix_failures left_to_right mixed_stack 1)
      with (mid := bare_slice (square 1 2 3 4)).
    + reflexivity.
    + repeat apply Forall_cons; try apply Forall_nil; by_compute.
  - apply (@get_ct_model_as_matrix_failures left_to_right wide_stack 1).
    vm_compute. reflexivity.
Defined.

(** C6. The rotation count only matters modulo 4: assembling with [rot_k]
    and with [rot_k mod 4] gives the same result, and a multiple of 4 gives
    the result of no rotation at all. *)
Theorem rotation_only_modulo_4 (dcm_files : list FileDataset) (rot_k : Z) :
  dcm_files ≠ [] →
  get_ct_model_as_matrix dcm_files rot_k
    = get_ct_model_as_matrix dcm_files (rot_k `mod` 4) ∧
  (rot_k `mod` 4 = 0 →
     get_ct_model_as_matrix dcm_files rot_k = get_ct_model_as_matrix dcm_files 0).
Proof.
  intros Hne.
  destruct (lookup_lt_is_Some_2 dcm_files (length dcm_files `div` 2)
              (half_lt_length _ Hne)) as [mid Hmid].
  rewrite !(get_ct_model_as_matrix_unfold _ _ _ Hmid). split.
  - apply for_enumerate_ext. intros z ct_s m. by rewrite rot90_mod.
  - intros Hk. apply for_enumerate_ext. intros z ct_s m.
    by rewrite !rot90_multiple_of_4.
Qed.

Lemma rotation_only_modulo_4_witness :
  get_ct_model_as_matrix mixed_stack 5 = get_ct_model_as_matrix mixed_stack (5 `mod` 4) ∧
  get_ct_model_as_matrix mixed_stack (-8) = get_ct_model_as_matrix mixed_stack 0.
Proof.
  split.
  - apply (rotation_only_modulo_4 mixed_stack 5). discriminate.
  - apply (rotation_only_modulo_4 mixed_stack (-8)); [discriminate | reflexivity].
Defined.

(** ** Patient and examination data *)

(** What the two readers return in general: the identifier as it is, the
    other elements after [str] and normalisation, each replaced by
    ["unknown"] when that text is empty. *)
Lemma get_patient_data_eq (ds : FileDataset) :
  get_patient_data ds = [
    ("Patient ID", unknown_if_falsy (PatientID ds));
    ("Name", unknown_if_falsy (Some (PyStr.upper (PyStr.str (PatientName ds)))));
    ("Age", unknown_if_falsy (Some (PyStr.str (PatientAge ds))));
    ("Sex", unknown_if_falsy (Some (PyStr.capitalize (PyStr.str (PatientSex ds)))))
  ].
Proof. reflexivity. Qed.


(** An absent name is shown as ["NONE"], whatever else the data set holds;
    an absent identifier is the one element that becomes ["unknown"]. *)
Lemma absent_name_reads_NONE (ds : FileDataset) :
  PatientName ds = None → Dict.get (get_patient_data ds) "Name" = Some "NONE".
Proof. intros Hname. rewrite get_patient_data_eq, Hname. reflexivity. Qed.

Lemma absent_id_reads_unknown (ds : FileDataset) :
  PatientID ds = None → Dict.get (get_patient_data ds) "Patient ID" = Some "unknown".
Proof. intros Hid. rewrite get_patient_data_eq, Hid. reflexivity. Qed.

(** C5 (the code against the claim). For a data set without any patient or
    examination element only the patient identifier reads ["unknown"]. The
    other values pass through [str] before the emptiness test, and
    [str(None)] is the non-empty text ["None"]: the name reads ["NONE"], age,
    sex, study identifier, date and body part read ["None"]. *)
Theorem absent_fields_read_None :
  get_patient_data (bare_slice (px 0)) =
    [("Patient ID", "unknown"); ("Name", "NONE"); ("Age", "None"); ("Sex", "None")] ∧
  get_examination_data (bare_slice (px 0)) =
    [("Study ID", "None"); ("Date", "None"); ("Body Part Examined", "None")].
Proof. split; reflexivity. Qed.

(** ** Dictionaries *)

Lemma filter_ext_in {A} (P Q : A → Prop) `{∀ x, Decision (P x)} `{∀ x, Decision (Q x)}
    (l : list A) :
  (∀ x, x ∈ l → (P x ↔ Q x)) → filter P l = filter Q l.
Proof.
  induction l as [|x l IH]; intros Hl; [done|].
  rewrite !filter_cons.
  assert (filter P l = filter Q l) as ->.
  { apply IH. intros y Hy. apply Hl. by apply list_elem_of_further. }
  pose proof (Hl x (list_elem_of_here x l)) as Hx.
  destruct (decide (P x)), (decide (Q x)); tauto || done.
Qed.

Section dict_facts.
Context {V : Type}.
Implicit Types (d p : dict V) (k : string) (v : V).

Lemma get_set d k v k' :
  Dict.get (Dict.set d k v) k' = if decide (k = k') then Some v else Dict.get d k'.
Proof.
  induction d as [|[k0 v0] d IH]; simpl.
  - by destruct (decide (k = k')).
  - destruct (decide (k0 = k)) as [->|Hne]; simpl.
    + by destruct (decide (k = k')).
    + destruct (decide (k0 = k')) as [->|Hne'].
      * by rewrite decide_False by done.
      * apply IH.
Qed.

Lemma get_None_keys d k : Dict.get d k = None ↔ k ∉ keys d.
Proof.
  unfold keys. induction d as [|[k0 v0] d IH]; simpl.
  - split; [intros _; apply not_elem_of_nil | done].
  - rewrite not_elem_of_cons. destruct (decide (k0 = k)) as [->|Hne].
    + split; [done | tauto].
    + rewrite IH. split; [intros ?; split; congruence || done | tauto].
Qed.

Lemma keys_set_old d k v : k ∈ keys d → keys (Dict.set d k v) = keys d.
Proof.
  unfold keys. induction d as [|[k0 v0] d IH]; simpl.
  - intros Hin. by apply elem_of_nil in Hin.
  - intros Hin. destruct (decide (k0 = k)) as [->|Hne]; simpl; [done|].
    f_equal. apply IH. apply elem_of_cons in Hin as [->|Hin]; done.
Qed.

Lemma keys_set_new d k v : k ∉ keys d → keys (Dict.set d k v) = keys d ++ [k].
Proof.
  unfold keys. induction d as [|[k0 v0] d IH]; simpl; [done|].
  intros [Hne Hin]%not_elem_of_cons.
  rewrite decide_False by done. simpl. f_equal. by apply IH.
Qed.

Lemma get_update d p k :
  NoDup (keys p) →
  Dict.get (update d p) k =
    match Dict.get p k with
    | Some v => Some v
    | None => Dict.get d k
    end.
Proof.
  unfold update, keys. revert d.
  induction p as [|[k0 v0] p IH]; intros d Hnd; simpl; [done|].
  apply NoDup_cons in Hnd as [Hk0 Hnd].
  rewrite IH by done.
  destruct (decide (k0 = k)) as [->|Hne].
  - apply (get_None_keys p k) in Hk0. rewrite Hk0.
    rewrite get_set. by rewrite decide_True.
  - rewrite get_set. by rewrite decide_False.
Qed.

Lemma keys_update d p :
  NoDup (keys p) →
  keys (update d p) = keys d ++ filter (λ k, k ∉ keys d) (keys p).
Proof.
  unfold update. revert d.
  induction p as [|[k0 v0] p IH]; intros d Hnd; simpl.
  - by rewrite filter_nil, app_nil_r.
  - apply NoDup_cons in Hnd as [Hk0 Hnd]. rewrite IH by done.
    rewrite filter_cons. simpl. destruct (decide (k0 ∈ keys d)) as [Hin|Hout].
    + rewrite keys_set_old by done.
      by rewrite decide_False by tauto.
    + rewrite keys_set_new by done.
      rewrite decide_True by done. rewrite <- app_assoc. simpl. do 2 f_equal.
      apply filter_ext_in. intros k Hk.
      rewrite elem_of_app, list_elem_of_singleton.
      split; [tauto|]. intros Hkd [?| ->]; [done|]. by apply Hk0.
Qed.

Lemma NoDup_keys_update d p :
  NoDup (keys d) → NoDup (keys p) → NoDup (keys (update d p)).
Proof.
  intros Hd Hp. rewrite keys_update by done.
  apply NoDup_app. split; [done|]. split.
  - intros k Hk [Hout _]%list_elem_of_filter. done.
  - by apply NoDup_filter.
Qed.

End dict_facts.

(** C8. Both update operations merge the partial map into the stored map
    and return the stored result: a key of the partial map reads the partial
    map's value, any other key reads what it read before; the keys the map
    had keep their positions and the new keys follow them, in the order of
    the partial map. *)
Theorem metadata_update_merges (self : ProjectionModel) (p : dict string) :
  NoDup (keys p) →
  (let '(ret, self') := update_img_metadata self p in
   let m := image_metadata self in
   ret = get_img_metadata self' ∧
   roi_metadata self' = roi_metadata self ∧
   (∀ k, Dict.get ret k = match Dict.get p k with
                          | Some v => Some v
                          | None => Dict.get m k
                          end) ∧
   keys ret = keys m ++ filter (λ k, k ∉ keys m) (keys p)) ∧
  (let '(ret, self') := update_roi_metadata self p in
   let m := roi_metadata self in
   ret = get_roi_metadata self' ∧
   image_metadata self' = image_metadata self ∧
   (∀ k, Dict.get ret k = match Dict.get p k with
                          | Some v => Some v
                          | None => Dict.get m k
                          end) ∧
   keys ret = keys m ++ filter (λ k, k ∉ keys m) (keys p)).
Proof.
  intros Hp. split; simpl.
  - split; [done|]. split; [done|]. split.
    + intros k. by apply get_update.
    + by apply keys_update.
  - split; [done|]. split; [done|]. split.
    + intros k. by apply get_update.
    + by apply keys_update.
Qed.

Lemma metadata_update_merges_witness :
  let self := set_img_metadata (ProjectionModel_init (Some XY))
                [("Plane", "Axial"); ("Slice", "unknown"); ("Size", "2x2")] in
  let p := [("Slice", "1/2"); ("Window Width", "4000")] in
  (update_img_metadata self p).1 =
    [("Plane", "Axial"); ("Slice", "1/2"); ("Size", "2x2"); ("Window Width", "4000")] ∧
  keys (update_img_metadata self p).1 =
    keys (image_metadata self) ++ filter (λ k, k ∉ keys (image_metadata self)) (keys p).
Proof.
  intros self p. split; [reflexivity|].
  assert (NoDup (keys p)) as Hp by by_compute.
  exact (proj2 (proj2 (proj2 (proj1 (metadata_update_merges self p Hp))))).
Defined.

(** ** Orthogonal slicing *)

Lemma omap_total {A B} (f : A → option B) (l : list A) :
  Forall (λ x, is_Some (f x)) l →
  length (omap f l) = length l ∧ ∀ i, omap f l !! i = l !! i ≫= f.
Proof.
  induction 1 as [|x l [y Hy] Hl [IHlen IHget]].
  - split; [done|]. by intros i.
  - change (omap f (x :: l)) with
      (match f x with Some y => y :: omap f l | None => omap f l end).
    rewrite Hy. split; [simpl; by f_equal|].
    intros [|i]; simpl; [by rewrite Hy | apply IHget].
Qed.

Lemma omap_total_Forall {A B} (f : A → option B) (P : B → Prop) (l : list A) :
  Forall (λ x, ∃ y, f x = Some y ∧ P y) l → Forall P (omap f l).
Proof.
  induction 1 as [|x l (y & Hy & HP) Hl IH]; [constructor|].
  change (omap f (x :: l)) with
    (match f x with Some y => y :: omap f l | None => omap f l end).
  rewrite Hy. by constructor.
Qed.

Section slicing_facts.
Context {A : Type}.
Implicit Types (m : ndarray3 A).

Lemma take_z_in_range m nx ny nz (n : nat) :
  wf3 m → shape3 m = (nx, ny, nz) → (n < nz)%nat →
  ∃ a, take_z m (Z.of_nat n) = Ok a ∧ shape2 a = (nx, ny) ∧ wf2 a ∧
       ∀ x y, getitem2 a x y = getitem3 m x y n.
Proof.
  intros [Hlen Hplanes] Hsh Hn. unfold take_z. rewrite Hsh in *. simpl in *.
  rewrite norm_index_nonneg by lia. rewrite Nat2Z.id. simpl.
  eexists. split; [reflexivity|]. split; [done|].
  assert (∀ plane : list (list A), rows_have_shape ny nz plane →
            Forall (λ col, is_Some (col !! n)) plane) as Htotal.
  { intros plane [_ Hcols]. eapply Forall_impl; [exact Hcols|].
    intros col Hcol. apply lookup_lt_is_Some_2. simpl in Hcol. lia. }
  split.
  - split; simpl; [by rewrite length_fmap|].
    apply Forall_fmap. eapply Forall_impl; [exact Hplanes|].
    intros plane Hplane.
    change (length (omap (λ col : list A, col !! n) plane) = ny).
    rewrite (proj1 (omap_total (λ col : list A, col !! n) _ (Htotal _ Hplane))).
    apply Hplane.
  - intros x y. unfold getitem2, getitem3. simpl.
    rewrite list_lookup_fmap.
    destruct (data3 m !! x) as [plane|] eqn:Hplane; simpl; [|done].
    apply (omap_total _ _ (Htotal plane (Forall_lookup_1 _ _ _ _ Hplanes Hplane))).
Qed.

Lemma take_y_in_range m nx ny nz (n : nat) :
  wf3 m → shape3 m = (nx, ny, nz) → (n < ny)%nat →
  ∃ a, take_y m (Z.of_nat n) = Ok a ∧ shape2 a = (nx, nz) ∧ wf2 a ∧
       ∀ x z, getitem2 a x z = getitem3 m x n z.
Proof.
  intros [Hlen Hplanes] Hsh Hn. unfold take_y. rewrite Hsh in *. simpl in *.
  rewrite norm_index_nonneg by lia. rewrite Nat2Z.id. simpl.
  eexists. split; [reflexivity|]. split; [done|].
  set (f := λ plane : list (list A), plane !! n).
  assert (Forall (λ plane, is_Some (f plane)) (data3 m)) as Htotal.
  { eapply Forall_impl; [exact Hplanes|].
    intros plane [Hrows _]. apply lookup_lt_is_Some_2. lia. }
  split.
  - unfold wf2, rows_have_shape. cbn [shape2 data2 fst snd].
    split; [by rewrite (proj1 (omap_total f _ Htotal))|].
    apply omap_total_Forall. eapply Forall_impl; [exact Hplanes|].
    intros plane [Hrows Hcols].
    destruct (lookup_lt_is_Some_2 plane n) as [col Hcol]; [lia|].
    exists col. split; [done|]. exact (Forall_lookup_1 _ _ _ _ Hcols Hcol).
  - intros x z. unfold getitem2, getitem3. cbn [data2].
    rewrite (proj2 (omap_total f _ Htotal)). unfold f.
    by destruct (data3 m !! x) as [plane|]; simpl; [destruct (plane !! n)|].
Qed.

Lemma take_x_in_range m nx ny nz (n : nat) :
  wf3 m → shape3 m = (nx, ny, nz) → (n < nx)%nat →
  ∃ a, take_x m (Z.of_nat n) = Ok a ∧ shape2 a = (ny, nz) ∧ wf2 a ∧
       ∀ y z, getitem2 a y z = getitem3 m n y z.
Proof.
  intros [Hlen Hplanes] Hsh Hn. unfold take_x. rewrite Hsh in *. simpl in *.
  rewrite norm_index_nonneg by lia. rewrite Nat2Z.id. simpl.
  destruct (lookup_lt_is_Some_2 (data3 m) n) as [plane Hplane]; [lia|].
  eexists. split; [reflexivity|]. split; [done|]. rewrite Hplane. simpl. split.
  - exact (Forall_lookup_1 _ _ _ _ Hplanes Hplane).
  - intros y z. unfold getitem2, getitem3. simpl. by rewrite Hplane.
Qed.

End slicing_facts.

Lemma set_model_matrix_matrix (m0 : Model) (vol : ndarray3 float) :
  get_model_matrix (set_model_matrix m0 vol) = Some vol.
Proof. unfold set_model_matrix. by destruct (shape3 vol) as [[? ?] ?]. Qed.

(** C4. With a volume of shape (Nx,Ny,Nz) in the model and an index in
    range, plane XY fixes the Z axis and returns an (Nx,Ny) array, plane XZ
    fixes the Y axis and returns an (Nx,Nz) array, plane YZ fixes the X axis
    and returns an (Ny,Nz) array; the data of each result fills its shape,
    and these are the sizes and slice counts [set_model_matrix] records for
    the three projections. *)
Theorem orthogonal_slicing_shapes (self : MainController)
    (vol : ndarray3 float) (nx ny nz : nat) (n : Z) :
  wf3 vol → shape3 vol = (nx, ny, nz) → get_model_matrix (model self) = Some vol →
  (0 ≤ n < Z.of_nat nz →
     ∃ img, orthogonal_slicing self n XY = Ok img ∧ shape2 img = (nx, ny) ∧ wf2 img ∧
       ∀ x y, getitem2 img x y = getitem3 vol x y (Z.to_nat n)) ∧
  (0 ≤ n < Z.of_nat ny →
     ∃ img, orthogonal_slicing self n XZ = Ok img ∧ shape2 img = (nx, nz) ∧ wf2 img ∧
       ∀ x z, getitem2 img x z = getitem3 vol x (Z.to_nat n) z) ∧
  (0 ≤ n < Z.of_nat nx →
     ∃ img, orthogonal_slicing self n YZ = Ok img ∧ shape2 img = (ny, nz) ∧ wf2 img ∧
       ∀ y z, getitem2 img y z = getitem3 vol (Z.to_nat n) y z) ∧
  (∀ m0 : Model,
     let proj := get_projection_model (set_model_matrix m0 vol) in
     get_img_size (proj XY) = (nx, ny) ∧ get_slices_count (proj XY) = nz ∧
     get_img_size (proj XZ) = (nx, nz) ∧ get_slices_count (proj XZ) = ny ∧
     get_img_size (proj YZ) = (ny, nz) ∧ get_slices_count (proj YZ) = nx).
Proof.
  intros Hwf Hsh Hmodel.
  unfold orthogonal_slicing. rewrite Hmodel.
  split; [|split; [|split]].
  - intros Hn. destruct (Z_of_nat_complete n) as [k ->]; [lia|].
    rewrite Nat2Z.id. apply (take_z_in_range vol nx ny nz); [done | done | lia].
  - intros Hn. destruct (Z_of_nat_complete n) as [k ->]; [lia|].
    rewrite Nat2Z.id. apply (take_y_in_range vol nx ny nz); [done | done | lia].
  - intros Hn. destruct (Z_of_nat_complete n) as [k ->]; [lia|].
    rewrite Nat2Z.id. apply (take_x_in_range vol nx ny nz); [done | done | lia].
  - intros m0. unfold set_model_matrix. by rewrite Hsh.
Qed.

Lemma orthogonal_slicing_shapes_witness :
  let self := with_model MainController_init (set_model_matrix Model_init volume_234) in
  (∃ img, orthogonal_slicing self 3 XY = Ok img ∧ shape2 img = (2, 3)%nat ∧ wf2 img ∧
     ∀ x y, getitem2 img x y = getitem3 volume_234 x y 3) ∧
  (∃ img, orthogonal_slicing self 2 XZ = Ok img ∧ shape2 img = (2, 4)%nat ∧ wf2 img ∧
     ∀ x z, getitem2 img x z = getitem3 volume_234 x 2 z) ∧
  (∃ img, orthogonal_slicing self 1 YZ = Ok img ∧ shape2 img = (3, 4)%nat ∧ wf2 img ∧
     ∀ y z, getitem2 img y z = getitem3 volume_234 1 y z).
Proof.
  intros self.
  assert (wf3 volume_234) as Hwf by by_compute.
  split; [|split].
  - apply (orthogonal_slicing_shapes self volume_234 2 3 4 3 Hwf);
      [reflexivity | reflexivity | lia].
  - apply (orthogonal_slicing_shapes self volume_234 2 3 4 2 Hwf);
      [reflexivity | reflexivity | lia].
  - apply (orthogonal_slicing_shapes self volume_234 2 3 4 1 Hwf);
      [reflexivity | reflexivity | lia].
Defined.

(** ** ROI statistics *)

Section roi_facts.
Context `{Numerics}.
Implicit Types (pm : ProjectionModel) (roi : ndarray2 float).






Lemma get_put_projection_model (m : Model) (plain : Plain) pm :
  get_projection_model (put_projection_model m plain pm) plain = pm.
Proof. by destruct plain. Qed.

Lemma get_put_projection_model_ne (m : Model) (plain plain' : Plain) pm :
  plain ≠ plain' →
  get_projection_model (put_projection_model m plain pm) plain' = get_projection_model m plain'.
Proof. by destruct plain, plain'. Qed.




End roi_facts.


(** ** The footprint record across events *)

Section footprint_facts.
Context `{Numerics}.
Implicit Types (self : MainController) (pm : ProjectionModel) (plain : Plain).


Lemma preset_metadata_prev pm :
  prev_roi_pix_size (preset_metadata pm) = prev_roi_pix_size pm.
Proof. done. Qed.

Lemma preset_metadata_roi pm :
  roi_metadata (preset_metadata pm) = [("Area", ""); ("Mean", ""); ("Std Dev", "")].
Proof. done. Qed.




Lemma model_preset_widgets self ct_slices plain :
  get_projection_widget (model_preset self ct_slices).2 plain = get_projection_widget self plain.
Proof.
  unfold model_preset.
  destruct (get_ct_model_as_matrix ct_slices 1) as [vol|e]; [|done].
  destruct (shape3 vol) as [[x y] z].
  destruct (getitem ct_slices _ ≫= _) as [[ms [rs cs]]|e]; by destruct plain.
Qed.










End footprint_facts.


(** ** What a load reads *)

Lemma setitem_z_shape {A} (m m' : ndarray3 A) (k : Z) (b : ndarray2 A) :
  setitem_z m k b = Ok m' → shape3 m' = shape3 m.
Proof.
  unfold setitem_z. destruct (shape3 m) as [[x y] n] eqn:Hsh.
  destruct (norm_index k n); simpl; [|done].
  destruct (broadcast_to b (x, y)); simpl; [|done].
  by intros [= <-].
Qed.

Lemma for_enumerate_shape {B} (f : Z → B → ndarray2 float) (l : list B) (z : Z)
    (m m' : ndarray3 float) :
  for_enumerate (λ z x m, setitem_z m (- z) (f z x)) z l m = Ok m' →
  shape3 m' = shape3 m.
Proof.
  revert z m. induction l as [|x l IH]; intros z m; simpl.
  - by intros [= <-].
  - destruct (setitem_z m (- z) (f z x)) as [m1|e] eqn:Hm1; simpl; [|done].
    intros Hrest. rewrite (IH _ _ Hrest). by apply setitem_z_shape in Hm1.
Qed.

(** The volume has the in-plane shape of the middle slice and one Z index
    per input slice. *)
Lemma get_ct_model_as_matrix_shape (dcm_files : list FileDataset) (rot_k : Z)
    (vol : ndarray3 float) (mid : FileDataset) :
  dcm_files !! (length dcm_files `div` 2)%nat = Some mid →
  get_ct_model_as_matrix dcm_files rot_k = Ok vol →
  shape3 vol =
    ((shape2 (pixel_array mid)).1, (shape2 (pixel_array mid)).2, length dcm_files).
Proof.
  intros Hmid. rewrite (get_ct_model_as_matrix_unfold _ _ _ Hmid). intros Hloop.
  apply (for_enumerate_shape (λ _ ct_s, astype_float (rot90 (pixel_array ct_s) rot_k)))
    in Hloop.
  by rewrite Hloop.
Qed.

Section load_facts.
Context `{Numerics}.

(** The model a load leaves when it returns. *)
Let loaded (m : Model) (vol : ndarray3 float) (mid : FileDataset)
    (row_spacing col_spacing : float) : Model :=
  let m := set_model_matrix m vol in {|
    matrix_3d := matrix_3d m;
    patient_metadata := Some (get_patient_data mid);
    examination_metadata := Some (get_examination_data mid);
    xy_projection :=
      preset_metadata
        (set_projection_orientation
           (set_anatomical_plane
              (set_spacings (xy_projection m)
                 (Some col_spacing) (Some row_spacing) (SliceThickness mid))
              "Axial")
           [("up", "P"); ("bottom", "A"); ("left", "R"); ("right", "L")]);
    xz_projection :=
      preset_metadata
        (set_projection_orientation
           (set_anatomical_plane
              (set_spacings (xz_projection m)
                 (Some col_spacing) (SliceThickness mid) (Some row_spacing))
              "Coronal")
           [("up", "S"); ("bottom", "I"); ("left", "R"); ("right", "L")]);
    yz_projection :=
      preset_metadata
        (set_projection_orientation
           (set_anatomical_plane
              (set_spacings (yz_projection m)
                 (Some row_spacing) (SliceThickness mid) (Some col_spacing))
              "Sagittal")
           [("up", "S"); ("bottom", "I"); ("left", "A"); ("right", "P")])
  |}.

Lemma model_preset_ok (self self' : MainController) (ct_slices : list FileDataset)
    (mid : FileDataset) :
  ct_slices !! (length ct_slices `div` 2)%nat = Some mid →
  model_preset self ct_slices = (Ok (), self') →
  ∃ vol row_spacing col_spacing,
    get_ct_model_as_matrix ct_slices 1 = Ok vol ∧
    PixelSpacing mid = Some (row_spacing, col_spacing) ∧
    self' = with_model self (loaded (model self) vol mid row_spacing col_spacing).
Proof.
  intros Hmid. unfold model_preset.
  destruct (get_ct_model_as_matrix ct_slices 1) as [vol|e] eqn:Hvol; [|done].
  rewrite (get_ct_model_as_matrix_shape _ _ _ _ Hmid Hvol).
  rewrite Z_half_of_nat, (getitem_lookup _ _ _ Hmid). simpl.
  unfold get_ct_pixel_spacing.
  destruct (PixelSpacing mid) as [[row_spacing col_spacing]|]; simpl; [|done].
  intros [= <-]. by exists vol, row_spacing, col_spacing.
Qed.

(** After a load of well-formed slices that returned, the model holds a
    volume whose data fills its shape. *)
Lemma loaded_volume_wf (self self' : MainController) (ct_slices : list FileDataset) :
  Forall (λ d, wf2 (pixel_array d)) ct_slices →
  model_preset self ct_slices = (Ok (), self') →
  ∃ vol, get_model_matrix (model self') = Some vol ∧ wf3 vol.
Proof.
  intros Hwf Hok.
  destruct (ct_slices !! (length ct_slices `div` 2)%nat) as [mid|] eqn:Hmid.
  - destruct (model_preset_ok _ _ _ _ Hmid Hok) as (vol & rs & cs & Hvol & _ & ->).
    exists vol. split.
    + unfold loaded, set_model_matrix. by destruct (shape3 vol) as [[? ?] ?].
    + by destruct (assembled_slice_position _ _ _ _ Hmid Hwf Hvol).
  - exfalso. apply lookup_ge_None in Hmid.
    destruct ct_slices as [|d l].
    + unfold model_preset, get_ct_model_as_matrix in Hok.
      by rewrite getitem_nil in Hok.
    + pose proof (half_lt_length (d :: l) ltac:(done)). lia.
Qed.

Lemma loaded_same_shape (m : Model) (vol vol' : ndarray3 float) (mid : FileDataset)
    (row_spacing col_spacing : float) :
  shape3 vol = shape3 vol' →
  let m1 := loaded m vol mid row_spacing col_spacing in
  let m2 := loaded m vol' mid row_spacing col_spacing in
  patient_metadata m1 = patient_metadata m2 ∧
  examination_metadata m1 = examination_metadata m2 ∧
  xy_projection m1 = xy_projection m2 ∧
  xz_projection m1 = xz_projection m2 ∧
  yz_projection m1 = yz_projection m2.
Proof.
  intros Hsh. unfold loaded, set_model_matrix. rewrite <- Hsh.
  by destruct (shape3 vol) as [[x y] z].
Qed.

(** C10. With [mid] the slice at index N // 2 of the stack: the volume has
    the in-plane shape of [mid]; a load that returns has stored the patient
    and examination data read from [mid] and, in every projection, the pixel
    spacing, the slice thickness and the image size of [mid]; and a second
    stack of the same length with the same slice at N // 2 loads the same
    patient data, examination data and projections, whatever its other
    slices are. *)
Theorem middle_slice_is_the_source (self : MainController)
    (ct_slices : list FileDataset) (mid : FileDataset) :
  ct_slices !! (length ct_slices `div` 2)%nat = Some mid →
  (∀ rot_k vol, get_ct_model_as_matrix ct_slices rot_k = Ok vol →
     shape3 vol =
       ((shape2 (pixel_array mid)).1, (shape2 (pixel_array mid)).2, length ct_slices)) ∧
  (∀ self', model_preset self ct_slices = (Ok (), self') →
     ∃ row_spacing col_spacing,
       PixelSpacing mid = Some (row_spacing, col_spacing) ∧
       patient_metadata (model self') = Some (get_patient_data mid) ∧
       examination_metadata (model self') = Some (get_examination_data mid) ∧
       get_spacings (xy_projection (model self')) = (Some col_spacing, Some row_spacing) ∧
       get_slices_thickness (xy_projection (model self')) = SliceThickness mid ∧
       get_spacings (xz_projection (model self')) = (Some col_spacing, SliceThickness mid) ∧
       get_slices_thickness (xz_projection (model self')) = Some row_spacing ∧
       get_spacings (yz_projection (model self')) = (Some row_spacing, SliceThickness mid) ∧
       get_slices_thickness (yz_projection (model self')) = Some col_spacing ∧
       get_img_size (xy_projection (model self')) = shape2 (pixel_array mid)) ∧
  (∀ other self1 self2,
     length other = length ct_slices →
     other !! (length ct_slices `div` 2)%nat = Some mid →
     model_preset self ct_slices = (Ok (), self1) →
     model_preset self other = (Ok (), self2) →
     patient_metadata (model self1) = patient_metadata (model self2) ∧
     examination_metadata (model self1) = examination_metadata (model self2) ∧
     xy_projection (model self1) = xy_projection (model self2) ∧
     xz_projection (model self1) = xz_projection (model self2) ∧
     yz_projection (model self1) = yz_projection (model self2)).
Proof.
  intros Hmid. split; [|split].
  - intros rot_k vol. by apply get_ct_model_as_matrix_shape.
  - intros self' Hok.
    destruct (model_preset_ok _ _ _ _ Hmid Hok) as (vol & rs & cs & Hvol & Hsp & ->).
    exists rs, cs. split; [done|].
    pose proof (get_ct_model_as_matrix_shape _ _ _ _ Hmid Hvol) as Hsh.
    unfold loaded, set_model_matrix. rewrite Hsh. simpl.
    repeat split. by destruct (shape2 (pixel_array mid)).
  - intros other self1 self2 Hlen Hmid' Hok1 Hok2.
    destruct (model_preset_ok _ _ _ _ Hmid Hok1) as (vol1 & rs1 & cs1 & Hvol1 & Hsp1 & ->).
    rewrite <- Hlen in Hmid'.
    destruct (model_preset_ok _ _ _ _ Hmid' Hok2) as (vol2 & rs2 & cs2 & Hvol2 & Hsp2 & ->).
    assert (rs2 = rs1 ∧ cs2 = cs1) as [-> ->] by (split; congruence).
    apply loaded_same_shape.
    rewrite (get_ct_model_as_matrix_shape _ _ _ _ Hmid Hvol1).
    rewrite (get_ct_model_as_matrix_shape _ _ _ _ Hmid' Hvol2).
    by rewrite Hlen.
Qed.

End load_facts.

Lemma middle_slice_is_the_source_witness :
  let other := [bare_slice (px 9); ct_slice (square 5 6 7 8)] in
  let self1 := (@model_preset left_to_right MainController_init ct_stack).2 in
  let self2 := (@model_preset left_to_right MainController_init other).2 in
  patient_metadata (model self1) =
    Some [("Patient ID", "P-01"); ("Name", "DOE^JOHN"); ("Age", "042Y"); ("Sex", "M")] ∧
  patient_metadata (model self1) = patient_metadata (model self2) ∧
  examination_metadata (model self1) = examination_metadata (model self2) ∧
  xy_projection (model self1) = xy_projection (model self2) ∧
  xz_projection (model self1) = xz_projection (model self2) ∧
  yz_projection (model self1) = yz_projection (model self2).
Proof.
  intros other self1 self2.
  destruct (@middle_slice_is_the_source left_to_right MainController_init ct_stack
              (ct_slice (square 5 6 7 8)) eq_refl) as (_ & Hread & Hsame).
  split.
  - destruct (Hread self1) as (rs & cs & _ & -> & _); [vm_compute; reflexivity|].
    reflexivity.
  - apply (Hsame other self1 self2); vm_compute; reflexivity.
Defined.

(** ** Rounding in binary64 *)

Lemma digits2_pos_bounds (m : positive) :
  2 ^ (Z.pos (digits2_pos m) - 1) ≤ Z.pos m < 2 ^ Z.pos (digits2_pos m).
Proof.
  induction m as [m IH|m IH|]; simpl digits2_pos.
  - rewrite Pos2Z.inj_succ. replace (Z.succ (Z.pos (digits2_pos m)) - 1) with (Z.pos (digits2_pos m)) by lia.
    rewrite Z.pow_succ_r by lia.
    replace (Z.pos (digits2_pos m)) with (Z.succ (Z.pos (digits2_pos m) - 1)) at 1 by lia.
    rewrite Z.pow_succ_r by lia. lia.
  - rewrite Pos2Z.inj_succ. replace (Z.succ (Z.pos (digits2_pos m)) - 1) with (Z.pos (digits2_pos m)) by lia.
    rewrite Z.pow_succ_r by lia.
    replace (Z.pos (digits2_pos m)) with (Z.succ (Z.pos (digits2_pos m) - 1)) at 1 by lia.
    rewrite Z.pow_succ_r by lia. lia.
  - simpl. lia.
Qed.

Lemma iter_pos_nat {A} (f : A → A) (p : positive) (x : A) :
  SpecFloat.iter_pos f p x = Nat.iter (Pos.to_nat p) f x.
Proof.
  revert x. induction p as [p IH|p IH|]; intros x; cbn [SpecFloat.iter_pos].
  - rewrite !IH. rewrite Pos2Nat.inj_xI.
    replace (S (2 * Pos.to_nat p)) with (Pos.to_nat p + (Pos.to_nat p + 1))%nat by lia.
    rewrite !Nat.iter_add. simpl. reflexivity.
  - rewrite !IH. rewrite Pos2Nat.inj_xO.
    replace (2 * Pos.to_nat p)%nat with (Pos.to_nat p + Pos.to_nat p)%nat by lia.
    by rewrite Nat.iter_add.
  - reflexivity.
Qed.

Lemma shr_1_spec (mrs : shr_record) :
  0 ≤ shr_m mrs →
  shr_m (shr_1 mrs) = shr_m mrs `div` 2 ∧
  shr_r (shr_1 mrs) = Z.odd (shr_m mrs) ∧
  shr_s (shr_1 mrs) = shr_r mrs || shr_s mrs.
Proof.
  destruct mrs as [m r s]. cbn [shr_m shr_r shr_s]. intros Hm.
  destruct m as [|[p|p|]|p]; cbn [shr_1 shr_m shr_r shr_s]; try lia.
  - done.
  - split; [|done]. apply (Z.div_unique _ 2 _ 1); lia.
  - split; [|done]. apply (Z.div_unique _ 2 _ 0); lia.
  - done.
Qed.

Lemma shr_iter_m (n : nat) (mrs : shr_record) :
  0 ≤ shr_m mrs →
  shr_m (Nat.iter n shr_1 mrs) = shr_m mrs `div` 2 ^ Z.of_nat n.
Proof.
  intros Hm. induction n as [|n IH].
  - simpl. by rewrite Z.div_1_r.
  - rewrite Nat2Z.inj_succ, Z.pow_succ_r by lia. rewrite Nat.iter_succ.
    destruct (shr_1_spec (Nat.iter n shr_1 mrs)) as [-> _].
    + rewrite IH. apply Z.div_pos; lia.
    + rewrite IH. rewrite Z.div_div by lia. f_equal. lia.
Qed.

Lemma loc_Exact_inv (mrs : shr_record) :
  loc_of_shr_record mrs = loc_Exact ↔ shr_r mrs = false ∧ shr_s mrs = false.
Proof. destruct mrs as [m [|] [|]]; simpl; split; (done || by intros [? ?]). Qed.

Lemma shr_iter_exact (n : nat) (mrs : shr_record) :
  0 ≤ shr_m mrs → shr_r mrs = false → shr_s mrs = false →
  shr_m mrs `mod` 2 ^ Z.of_nat n = 0 →
  loc_of_shr_record (Nat.iter n shr_1 mrs) = loc_Exact.
Proof.
  intros Hm Hr Hs. induction n as [|n IH]; intros Hmod.
  - by apply loc_Exact_inv.
  - rewrite Nat2Z.inj_succ, Z.pow_succ_r in Hmod by lia.
    apply Z.mod_divide in Hmod; [|lia]. destruct Hmod as [k Hk].
    assert (shr_m mrs `mod` 2 ^ Z.of_nat n = 0) as Hmod'.
    { apply Z.mod_divide; [lia|]. exists (k * 2). lia. }
    apply IH, loc_Exact_inv in Hmod' as [Hrn Hsn].
    pose proof (shr_iter_m n mrs Hm) as Hmn.
    rewrite Nat.iter_succ. set (x := Nat.iter n shr_1 mrs) in *.
    destruct (shr_1_spec x) as (Hm' & Hr' & Hs').
    { rewrite Hmn. apply Z.div_pos; lia. }
    apply loc_Exact_inv. rewrite Hr', Hs', Hrn, Hsn, Hmn. split; [|done].
    rewrite Hk. replace (k * (2 * 2 ^ Z.of_nat n)) with ((k * 2) * 2 ^ Z.of_nat n) by lia.
    rewrite Z.div_mul by lia. rewrite Z.odd_mul. simpl. apply andb_false_r.
Qed.

Lemma round_nearest_even_bounds (m : Z) (l : location) :
  m ≤ round_nearest_even m l ≤ m + 1.
Proof. destruct l as [|[| |]]; simpl; try lia. destruct (Z.even m); lia. Qed.

Lemma fexp_eq (e : Z) : fexp prec emax e = Z.max (e - 53) (-1074).
Proof. reflexivity. Qed.

Lemma digits2_pos_unique (m : positive) (d : Z) :
  2 ^ (d - 1) ≤ Z.pos m < 2 ^ d → Z.pos (digits2_pos m) = d.
Proof.
  intros [Hlo Hhi]. destruct (digits2_pos_bounds m) as [Hlo' Hhi'].
  set (D := Z.pos (digits2_pos m)) in *.
  assert (0 < D) by (unfold D; lia).
  destruct (Z.lt_trichotomy D d) as [Hlt | [Heq | Hgt]]; [|done|].
  - assert (2 ^ D ≤ 2 ^ (d - 1)) by (apply Z.pow_le_mono_r; lia). lia.
  - assert (0 ≤ d).
    { destruct (Z.lt_ge_cases d 0) as [Hneg|]; [|done].
      rewrite (Z.pow_neg_r 2 d) in Hhi by done. lia. }
    assert (2 ^ d ≤ 2 ^ (D - 1)) by (apply Z.pow_le_mono_r; lia). lia.
Qed.

Lemma shr_spec (m e n : Z) :
  0 ≤ m → 0 < n →
  ∃ mrs, shr {| shr_m := m; shr_r := false; shr_s := false |} e n = (mrs, e + n) ∧
    shr_m mrs = m `div` 2 ^ n ∧
    (m `mod` 2 ^ n = 0 → loc_of_shr_record mrs = loc_Exact).
Proof.
  intros Hm Hn. destruct n as [|p|p]; try lia.
  unfold shr. eexists. split; [reflexivity|].
  rewrite iter_pos_nat. rewrite <- (positive_nat_Z p). split.
  - by rewrite shr_iter_m.
  - intros Hmod. by apply shr_iter_exact.
Qed.

Lemma shr_fexp_small (m : positive) (e : Z) :
  Z.pos (digits2_pos m) ≤ 53 → -1074 ≤ e →
  shr_fexp prec emax (Z.pos m) e loc_Exact
    = ({| shr_m := Z.pos m; shr_r := false; shr_s := false |}, e).
Proof.
  intros HD He. unfold shr_fexp. rewrite fexp_eq.
  cbn [Zdigits2 shr_record_of_loc].
  destruct (Z.max (Z.pos (digits2_pos m) + e - 53) (-1074) - e) as [|p|p] eqn:Hn;
    [done | lia | done].
Qed.

Lemma shr_fexp_large (m : positive) (e : Z) :
  53 < Z.pos (digits2_pos m) → -1074 ≤ e →
  let n := Z.pos (digits2_pos m) - 53 in
  ∃ mrs, shr_fexp prec emax (Z.pos m) e loc_Exact = (mrs, e + n) ∧
    shr_m mrs = Z.pos m `div` 2 ^ n ∧
    (Z.pos m `mod` 2 ^ n = 0 → loc_of_shr_record mrs = loc_Exact).
Proof.
  intros HD He n. unfold shr_fexp. rewrite fexp_eq.
  cbn [Zdigits2 shr_record_of_loc].
  replace (Z.max (Z.pos (digits2_pos m) + e - 53) (-1074) - e) with n by (unfold n; lia).
  apply shr_spec; unfold n; lia.
Qed.

Lemma round_nearest_even_exact (m : Z) : round_nearest_even m loc_Exact = m.
Proof. done. Qed.

(** Powers of two that stay symbolic in the arithmetic below. *)
Lemma pow2_pos (k : Z) : 0 ≤ k → 0 < 2 ^ k.
Proof. intros. apply Z.pow_pos_nonneg; lia. Qed.

Lemma pow2_split (a b : Z) : 0 ≤ a → 0 ≤ b → 2 ^ (a + b) = 2 ^ a * 2 ^ b.
Proof. intros. by rewrite Z.pow_add_r. Qed.

Lemma pow2_ge_2046 (e : Z) : 972 ≤ e → 2 * 2 ^ 2045 ≤ 2 ^ (e + 1074).
Proof.
  intros He. change (2 * 2 ^ 2045) with (2 ^ 2046). apply Z.pow_le_mono_r; lia.
Qed.

Lemma pow2_ge_2045 (e : Z) : 971 ≤ e → 2 ^ 2045 ≤ 2 ^ (e + 1074).
Proof. intros He. apply Z.pow_le_mono_r; lia. Qed.

Lemma binary_round_aux_small (s : bool) (mz : positive) (ez : Z) :
  Z.pos (digits2_pos mz) ≤ 53 → -1074 ≤ ez →
  binary_round_aux prec emax s (Z.pos mz) ez loc_Exact
    = if ez <=? 971 then S754_finite s mz ez else S754_infinity s.
Proof.
  intros HD He. unfold binary_round_aux.
  rewrite shr_fexp_small by done. cbn [shr_m loc_of_shr_record round_nearest_even].
  rewrite shr_fexp_small by done. reflexivity.
Qed.

Lemma binary_round_aux_large (s : bool) (mz : positive) (ez : Z) :
  53 < Z.pos (digits2_pos mz) → -1074 ≤ ez →
  let n := Z.pos (digits2_pos mz) - 53 in
  let q := Z.pos mz `div` 2 ^ n in
  ∃ (m1 : positive) (e1 : Z),
    binary_round_aux prec emax s (Z.pos mz) ez loc_Exact
      = (if e1 <=? 971 then S754_finite s m1 e1 else S754_infinity s) ∧
    2 ^ 52 ≤ q < 2 ^ 53 ∧
    q * 2 ^ n ≤ Z.pos mz ∧
    ((Z.pos m1 = q ∧ e1 = ez + n) ∨
     (Z.pos m1 = q + 1 ∧ e1 = ez + n ∧ q + 1 < 2 ^ 53 ∧ q * 2 ^ n < Z.pos mz) ∨
     (Z.pos m1 = 2 ^ 52 ∧ e1 = ez + n + 1 ∧ q + 1 = 2 ^ 53 ∧ q * 2 ^ n < Z.pos mz)).
Proof.
  intros HD He n q.
  destruct (digits2_pos_bounds mz) as [Hlo Hhi].
  assert (0 < n) as Hn by (unfold n; lia).
  assert (0 < 2 ^ n) as Hpow by (apply pow2_pos; lia).
  replace (Z.pos (digits2_pos mz) - 1) with (52 + n) in Hlo by (unfold n; lia).
  replace (Z.pos (digits2_pos mz)) with (53 + n) in Hhi by (unfold n; lia).
  rewrite pow2_split in Hlo, Hhi by lia.
  assert (2 ^ 52 ≤ q < 2 ^ 53) as Hq.
  { unfold q. split.
    - apply Z.div_le_lower_bound; lia.
    - apply Z.div_lt_upper_bound; lia. }
  pose proof (Z.div_mod (Z.pos mz) (2 ^ n) ltac:(lia)) as Hdm. fold q in Hdm.
  pose proof (Z.mod_pos_bound (Z.pos mz) (2 ^ n) Hpow) as Hrem.
  assert (q * 2 ^ n ≤ Z.pos mz) as Hqm by lia.
  destruct (shr_fexp_large mz ez HD He) as (mrs & Hshr & Hm & Hex).
  fold n in Hshr, Hm, Hex. fold q in Hm.
  unfold binary_round_aux. rewrite Hshr.
  pose proof (round_nearest_even_bounds (shr_m mrs) (loc_of_shr_record mrs)) as Hrnd.
  set (r := round_nearest_even (shr_m mrs) (loc_of_shr_record mrs)) in *.
  rewrite Hm in Hrnd.
  assert (r = q ∨ (r = q + 1 ∧ q * 2 ^ n < Z.pos mz)) as Hr.
  { destruct (decide (Z.pos mz `mod` 2 ^ n = 0)) as [Hz|Hnz].
    - left. unfold r. by rewrite (Hex Hz), Hm.
    - destruct (decide (r = q)); [by left|]. right.
      split; [lia|]. lia. }
  clearbody r. destruct r as [|r|r]; try lia.
  destruct (decide (Z.pos r < 2 ^ 53)) as [Hlt|Hge].
  - assert (Z.pos (digits2_pos r) = 53) as Hdr by (apply digits2_pos_unique; lia).
    rewrite shr_fexp_small by lia. cbn [shr_m].
    exists r, (ez + n). split; [reflexivity|]. split; [done|]. split; [done|].
    destruct Hr as [Hr|[Hr Hlt']]; [left | right; left]; lia.
  - assert (Z.pos r = 2 ^ 53) as Hr53 by lia.
    assert (Z.pos (digits2_pos r) = 54) as Hdr by (apply digits2_pos_unique; lia).
    destruct (shr_fexp_large r (ez + n)) as (mrs2 & Hshr2 & Hm2 & _); [lia | lia |].
    rewrite Hdr in Hshr2, Hm2. rewrite Hshr2, Hm2, Hr53.
    change (2 ^ 53 `div` 2 ^ (54 - 53)) with (Z.pos (2 ^ 52)%positive).
    exists (2 ^ 52)%positive, (ez + n + 1).
    split; [by replace (ez + n + (54 - 53)) with (ez + n + 1) by lia|].
    split; [done|]. split; [done|]. right; right.
    destruct Hr as [Hr|[Hr Hlt']]; [lia|].
    repeat split; (done || lia).
Qed.

Lemma Nat_iter_xO (k : nat) (m : positive) :
  Z.pos (Nat.iter k xO m) = Z.pos m * 2 ^ Z.of_nat k.
Proof.
  induction k as [|k IH].
  - simpl. lia.
  - rewrite Nat.iter_succ, Nat2Z.inj_succ, Z.pow_succ_r by lia.
    rewrite Pos2Z.inj_xO, IH. lia.
Qed.

Lemma Pos_iter_xO (m d : positive) : Z.pos (Pos.iter xO m d) = Z.pos m * 2 ^ Z.pos d.
Proof.
  rewrite Pos2Nat.inj_iter.
  change (nat_rect _ m (λ _, xO) (Pos.to_nat d)) with (Nat.iter (Pos.to_nat d) xO m).
  by rewrite Nat_iter_xO, positive_nat_Z.
Qed.

Lemma shl_align_le (mx : positive) (ex ez : Z) :
  ez ≤ ex →
  (shl_align mx ex ez).2 = ez ∧
  Z.pos (shl_align mx ex ez).1 = Z.pos mx * 2 ^ (ex - ez).
Proof.
  intros Hle. unfold shl_align.
  destruct (ez - ex) as [|d|d] eqn:Hd; try lia; cbn [fst snd].
  - assert (ex = ez) as -> by lia. rewrite Z.sub_diag. simpl. lia.
  - rewrite Pos_iter_xO. split; [done|]. do 2 f_equal. lia.
Qed.

Lemma shl_align_ge (mx : positive) (ex ez : Z) :
  ex ≤ ez → shl_align mx ex ez = (mx, ex).
Proof.
  intros Hle. unfold shl_align.
  destruct (ez - ex) as [|d|d] eqn:Hd; try lia; done.
Qed.

(** The rounding of [m * 2^E], for [E] no smaller than the least exponent:
    the result is finite or an infinity of the given sign, it exceeds the
    exact value by at most one part in [2^52], and it is finite when the
    exact value is at most the largest float. *)
Lemma binary_round_spec (s : bool) (m : positive) (E : Z) :
  -1074 ≤ E →
  let v := Z.pos m * 2 ^ (E + 1074) in
  ∃ (m1 : positive) (e1 : Z),
    binary_round prec emax s m E
      = (if e1 <=? 971 then S754_finite s m1 e1 else S754_infinity s) ∧
    -1074 ≤ e1 ∧ Z.pos m1 < 2 ^ 53 ∧
    Z.pos m1 * 2 ^ (e1 + 1074) * 2 ^ 52 ≤ v * (2 ^ 52 + 1) ∧
    (v ≤ max_units → e1 ≤ 971).
Proof.
  intros HE v. unfold binary_round. rewrite fexp_eq.
  set (D := Z.pos (digits2_pos m)).
  destruct (digits2_pos_bounds m) as [Hlo Hhi]. fold D in Hlo, Hhi.
  assert (0 < 2 ^ (E + 1074)) as HS by (apply pow2_pos; lia).
  destruct (Z.lt_ge_cases (Z.max (D + E - 53) (-1074)) E) as [Hshift|Hkeep].
  - (* the mantissa is shifted left to the canonical exponent *)
    set (e' := Z.max (D + E - 53) (-1074)) in *.
    destruct (shl_align_le m E e') as [He' Hm']; [lia|].
    destruct (shl_align m E e') as [mz ez]. cbn [fst snd] in He', Hm'. subst ez.
    assert (Z.pos mz * 2 ^ (e' + 1074) = v) as Hv.
    { rewrite Hm'. unfold v. rewrite <- Z.mul_assoc, <- pow2_split by (unfold e'; lia).
      do 2 f_equal. lia. }
    assert (Z.pos (digits2_pos mz) = D + (E - e')) as HDz.
    { apply digits2_pos_unique. rewrite Hm'.
      replace (D + (E - e') - 1) with ((D - 1) + (E - e')) by lia.
      rewrite !pow2_split by (unfold D; lia).
      assert (0 < 2 ^ (E - e')) by (apply pow2_pos; lia). nia. }
    rewrite binary_round_aux_small by (unfold e' in *; lia).
    exists mz, e'. split; [reflexivity|]. split; [unfold e'; lia|].
    split.
    { destruct (digits2_pos_bounds mz) as [_ Hhiz]. rewrite HDz in Hhiz.
      assert (2 ^ (D + (E - e')) ≤ 2 ^ 53)
        by (apply Z.pow_le_mono_r; unfold e' in *; lia).
      lia. }
    rewrite Hv. split; [nia|].
    intros Hmax. destruct (Z.le_gt_cases e' 971) as [|Hbig]; [done|]. exfalso.
    assert (D + (E - e') = 53) as HD53 by (unfold e' in *; lia).
    destruct (digits2_pos_bounds mz) as [Hloz _]. rewrite HDz, HD53 in Hloz.
    pose proof (pow2_ge_2046 e' ltac:(lia)) as Hp.
    unfold max_units in Hmax. change (53 - 1) with 52 in Hloz. nia.
  - rewrite shl_align_ge by lia.
    destruct (Z.le_gt_cases D 53) as [Hsmall|Hlarge].
    + rewrite binary_round_aux_small by done.
      exists m, E. split; [reflexivity|]. split; [done|].
      split.
      { assert (2 ^ D ≤ 2 ^ 53) by (apply Z.pow_le_mono_r; lia). lia. }
      fold v. split; [nia|].
      intros Hmax. destruct (Z.le_gt_cases E 971) as [|Hbig]; [done|]. exfalso.
      assert (D = 53) as HD53 by lia. rewrite HD53 in Hlo. change (53 - 1) with 52 in Hlo.
      pose proof (pow2_ge_2046 E ltac:(lia)) as Hp.
      unfold max_units in Hmax. unfold v in Hmax. nia.
    + destruct (binary_round_aux_large s m E) as (m1 & e1 & Hres & Hq & Hqm & Hcases);
        [done | done |].
      fold D in Hres, Hq, Hqm, Hcases.
      set (n := D - 53) in *. set (q := Z.pos m `div` 2 ^ n) in *.
      assert (0 < 2 ^ n) as HN by (apply pow2_pos; unfold n; lia).
      set (B := 2 ^ n * 2 ^ (E + 1074)).
      assert (0 < B) as HB by (unfold B; nia).
      assert (2 ^ (E + n + 1074) = B) as HT.
      { unfold B. rewrite <- pow2_split by (unfold n; lia). f_equal. lia. }
      assert (q * B ≤ v) as HA.
      { unfold B, v. rewrite Z.mul_assoc. apply Z.mul_le_mono_nonneg_r; lia. }
      assert (2 ^ 52 * B ≤ q * B) as HqB by (apply Z.mul_le_mono_nonneg_r; lia).
      exists m1, e1. split; [done|].
      destruct Hcases as [[Hm1 He1] | [(Hm1 & He1 & Hlt & Hstrict) | (Hm1 & He1 & H53 & Hstrict)]].
      * rewrite Hm1, He1, HT. split; [unfold n; lia|]. split; [lia|]. split; [nia|].
        intros Hmax. destruct (Z.le_gt_cases (E + n) 971) as [|Hbig]; [done|]. exfalso.
        pose proof (pow2_ge_2046 (E + n) ltac:(lia)) as Hp. rewrite HT in Hp.
        unfold max_units in Hmax. nia.
      * rewrite Hm1, He1, HT. split; [unfold n; lia|]. split; [lia|]. split; [nia|].
        intros Hmax. destruct (Z.le_gt_cases (E + n) 971) as [|Hbig]; [done|]. exfalso.
        pose proof (pow2_ge_2046 (E + n) ltac:(lia)) as Hp. rewrite HT in Hp.
        unfold max_units in Hmax. nia.
      * rewrite Hm1, He1.
        replace (E + n + 1 + 1074) with (1 + (E + n + 1074)) by lia.
        rewrite pow2_split by (unfold n; lia). rewrite HT. change (2 ^ 1) with 2.
        split; [unfold n; lia|]. split; [lia|]. split; [nia|].
        intros Hmax. destruct (Z.le_gt_cases (E + n + 1) 971) as [|Hbig]; [done|]. exfalso.
        pose proof (pow2_ge_2045 (E + n) ltac:(lia)) as Hp. rewrite HT in Hp.
        assert (q * B < v) as Hlt.
        { unfold B, v. rewrite Z.mul_assoc. apply Z.mul_lt_mono_pos_r; lia. }
        unfold max_units in Hmax. nia.
Qed.

Lemma abs_cond_Zopp (s : bool) (z : Z) : Z.abs (cond_Zopp s z) = Z.abs z.
Proof. destruct s; simpl; lia. Qed.

Lemma finite_units_bound (s : bool) (m : positive) (e : Z) :
  Z.pos m < 2 ^ 53 → -1074 ≤ e ≤ 971 →
  Z.abs (units (S754_finite s m e)) ≤ max_units.
Proof.
  intros Hm He. cbn [units]. rewrite abs_cond_Zopp.
  assert (0 < 2 ^ (e + 1074)) by (apply pow2_pos; lia).
  assert (2 ^ (e + 1074) ≤ 2 ^ 2045) by (apply Z.pow_le_mono_r; lia).
  unfold max_units. nia.
Qed.

Lemma valid_units (x : float) :
  valid x → exponent_ok x ∧ Z.abs (units x) ≤ max_units.
Proof.
  destruct x as [s|s| |s m e]; try (intros _; split; [done | by vm_compute]).
  unfold valid. cbn [valid_binary]. unfold bounded, canonical_mantissa.
  rewrite fexp_eq. intros [Hcan Hle%Z.leb_le]%andb_prop. apply Z.eqb_eq in Hcan.
  change (emax - prec) with 971 in Hle.
  assert (-1074 ≤ e ∧ Z.pos (digits2_pos m) ≤ 53) as [He HD] by lia.
  split; [done|]. apply finite_units_bound; [|lia].
  destruct (digits2_pos_bounds m) as [_ Hhi].
  assert (2 ^ Z.pos (digits2_pos m) ≤ 2 ^ 53) by (apply Z.pow_le_mono_r; lia). lia.
Qed.

Lemma binary_normalize_spec (M E : Z) :
  -1074 ≤ E →
  let x := binary_normalize prec emax M E false in
  let v := Z.abs M * 2 ^ (E + 1074) in
  x ≠ S754_nan ∧
  (v ≤ max_units → is_finite x = true) ∧
  (is_finite x = true →
     exponent_ok x ∧ Z.abs (units x) ≤ max_units ∧
     Z.abs (units x) * 2 ^ 52 ≤ v * (2 ^ 52 + 1) ∧
     (0 ≤ M → 0 ≤ units x) ∧ (M ≤ 0 → units x ≤ 0)).
Proof.
  intros HE x v. unfold x, binary_normalize.
  destruct M as [|m|m].
  - split; [done|]. split; [done|]. intros _. by vm_compute.
  - destruct (binary_round_spec false m E HE) as (m1 & e1 & -> & He1 & Hm1 & Hrel & Hfin).
    destruct (Z.leb_spec e1 971) as [Hle|Hgt].
    + split; [done|]. split; [done|]. intros _. split; [done|].
      split; [by apply finite_units_bound|].
      cbn [units]. rewrite abs_cond_Zopp. unfold v.
      assert (0 < 2 ^ (e1 + 1074)) by (apply pow2_pos; lia).
      rewrite Z.abs_eq by lia. change (Z.abs (Z.pos m)) with (Z.pos m).
      split; [done|]. cbn [cond_Zopp]. split; lia.
    + split; [done|]. split; [|done].
      intros Hv. apply Hfin in Hv. lia.
  - destruct (binary_round_spec true m E HE) as (m1 & e1 & -> & He1 & Hm1 & Hrel & Hfin).
    destruct (Z.leb_spec e1 971) as [Hle|Hgt].
    + split; [done|]. split; [done|]. intros _. split; [done|].
      split; [by apply finite_units_bound|].
      cbn [units]. rewrite abs_cond_Zopp. unfold v.
      assert (0 < 2 ^ (e1 + 1074)) by (apply pow2_pos; lia).
      rewrite Z.abs_eq by lia. change (Z.abs (Z.neg m)) with (Z.pos m).
      split; [done|]. cbn [cond_Zopp]. split; lia.
    + split; [done|]. split; [|done].
      intros Hv. apply Hfin in Hv. lia.
Qed.

Lemma shl_align_units (s : bool) (m : positive) (e ez : Z) :
  -1074 ≤ ez → ez ≤ e →
  cond_Zopp s (Z.pos (shl_align m e ez).1) * 2 ^ (ez + 1074)
    = units (S754_finite s m e).
Proof.
  intros Hez Hle. destruct (shl_align_le m e ez Hle) as [_ ->]. cbn [units].
  replace (e + 1074) with ((e - ez) + (ez + 1074)) by lia.
  rewrite (pow2_split (e - ez) (ez + 1074)) by lia. destruct s; cbn [cond_Zopp]; ring.
Qed.

Lemma add_finite_normalize (sx : bool) (mx : positive) (ex : Z)
    (sy : bool) (my : positive) (ey : Z) :
  -1074 ≤ ex → -1074 ≤ ey →
  ∃ M E, add (S754_finite sx mx ex) (S754_finite sy my ey)
           = binary_normalize prec emax M E false ∧
    -1074 ≤ E ∧
    M * 2 ^ (E + 1074) = units (S754_finite sx mx ex) + units (S754_finite sy my ey).
Proof.
  intros Hex Hey. eexists _, (Z.min ex ey). split; [reflexivity|]. split; [lia|].
  rewrite Z.mul_add_distr_r.
  by rewrite !shl_align_units by lia.
Qed.

Lemma sub_finite_normalize (sx : bool) (mx : positive) (ex : Z)
    (sy : bool) (my : positive) (ey : Z) :
  -1074 ≤ ex → -1074 ≤ ey →
  ∃ M E, sub (S754_finite sx mx ex) (S754_finite sy my ey)
           = binary_normalize prec emax M E false ∧
    -1074 ≤ E ∧
    M * 2 ^ (E + 1074) = units (S754_finite sx mx ex) - units (S754_finite sy my ey).
Proof.
  intros Hex Hey. eexists _, (Z.min ex ey). split; [reflexivity|]. split; [lia|].
  rewrite Z.mul_sub_distr_r.
  by rewrite !shl_align_units by lia.
Qed.

Lemma abs_mul_pow2 (M k : Z) : 0 ≤ k → Z.abs M * 2 ^ k = Z.abs (M * 2 ^ k).
Proof.
  intros Hk. rewrite Z.abs_mul. f_equal. symmetry. apply Z.abs_eq.
  apply Z.pow_nonneg. lia.
Qed.

Lemma sign_mul_pow2 (M k : Z) :
  0 ≤ k → (0 ≤ M ↔ 0 ≤ M * 2 ^ k) ∧ (M ≤ 0 ↔ M * 2 ^ k ≤ 0).
Proof. intros Hk. pose proof (pow2_pos k Hk). split; split; nia. Qed.

(** The sum of two finite floats is not [nan], and it is finite when the
    exact sum is within the largest float. *)
Lemma add_spec (x y : float) :
  is_finite x = true → is_finite y = true → exponent_ok x → exponent_ok y →
  Z.abs (units x + units y) ≤ max_units →
  is_finite (add x y) = true.
Proof.
  destruct x as [sx| | |sx mx ex], y as [sy| | |sy my ey]; try done.
  - intros _ _ _ _ _. by destruct sx, sy.
  - intros _ _ Hex Hey Hsum.
    destruct (add_finite_normalize sx mx ex sy my ey Hex Hey) as (M & E & -> & HE & HM).
    apply (binary_normalize_spec M E HE).
    rewrite (abs_mul_pow2 M (E + 1074)) by lia. by rewrite HM.
Qed.

(** The difference of two finite floats, when it is finite, has the sign of
    the exact difference and exceeds it by at most one part in [2^52]. *)
Lemma sub_spec (x y : float) :
  is_finite x = true → is_finite y = true → valid x → valid y →
  is_finite (sub x y) = true →
  exponent_ok (sub x y) ∧ Z.abs (units (sub x y)) ≤ max_units ∧
  Z.abs (units (sub x y)) * 2 ^ 52 ≤ Z.abs (units x - units y) * (2 ^ 52 + 1) ∧
  (units y ≤ units x → 0 ≤ units (sub x y)) ∧
  (units x ≤ units y → units (sub x y) ≤ 0).
Proof.
  intros Hfx Hfy [Hex Hux]%valid_units [Hey Huy]%valid_units.
  destruct x as [sx| | |sx mx ex], y as [sy| | |sy my ey]; try done.
  - intros _. assert (units (sub (S754_zero sx) (S754_zero sy)) = 0) as ->
      by (by destruct sx, sy).
    split; [by destruct sx, sy|]. cbn [units]. lia.
  - intros _. cbn [sub SFsub exponent_ok].
    assert (units (S754_finite (negb sy) my ey) = - units (S754_finite sy my ey)) as ->
      by (cbn [units]; destruct sy; cbn [negb cond_Zopp]; lia).
    cbn [units exponent_ok] in *. lia.
  - intros _. cbn [sub SFsub]. cbn [units exponent_ok] in *. lia.
  - destruct (sub_finite_normalize sx mx ex sy my ey Hex Hey) as (M & E & -> & HE & HM).
    intros Hfin.
    destruct (binary_normalize_spec M E HE) as (_ & _ & Hspec).
    destruct (Hspec Hfin) as (Hexp & Hbound & Hrel & Hpos & Hneg).
    rewrite (abs_mul_pow2 M (E + 1074)), HM in Hrel by lia.
    destruct (sign_mul_pow2 M (E + 1074)) as [Hs1 Hs2]; [lia|]. rewrite HM in Hs1, Hs2.
    repeat split; try done.
    + intros Hle. apply Hpos, Hs1. lia.
    + intros Hle. apply Hneg, Hs2. lia.
Qed.

(** [int] of a finite float: the integer is no larger in magnitude and has
    the sign of the float. *)
Lemma to_int_spec (d : float) :
  is_finite d = true → exponent_ok d →
  ∃ w, to_int d = Ok w ∧ Z.abs w * 2 ^ 1074 ≤ Z.abs (units d) ∧
    (0 ≤ units d → 0 ≤ w) ∧ (units d ≤ 0 → w ≤ 0).
Proof.
  destruct d as [s| | |s m e]; try done.
  - intros _ _. exists 0. cbn [to_int units]. repeat split; lia.
  - intros _ He. cbn [exponent_ok] in He. eexists. split; [reflexivity|].
    cbn [units]. rewrite !abs_cond_Zopp.
    assert (0 < 2 ^ (e + 1074)) by (apply pow2_pos; lia).
    assert (0 ≤ Z.shiftl (Z.pos m) e) as Hnn by (apply Z.shiftl_nonneg; lia).
    rewrite (Z.abs_eq (Z.shiftl _ _)), (Z.abs_eq (_ * _)) by lia.
    split; [|destruct s; cbn [cond_Zopp]; split; nia].
    destruct (Z.le_gt_cases 0 e) as [Hpos|Hneg].
    + rewrite Z.shiftl_mul_pow2 by done.
      rewrite (Z.add_comm e), (pow2_split 1074 e) by lia. lia.
    + rewrite Z.shiftl_div_pow2 by lia.
      replace 1074 with ((- e) + (e + 1074)) at 1 by lia.
      rewrite (pow2_split (- e) (e + 1074)) by lia.
      assert (0 < 2 ^ (- e)) by (apply pow2_pos; lia).
      pose proof (Z.mul_div_le (Z.pos m) (2 ^ (- e)) ltac:(lia)). nia.
Qed.

(** Halving an integer whose magnitude is that of a float never overflows. *)
Lemma int_half_spec (w : Z) :
  Z.abs w * 2 ^ 1074 ≤ max_units →
  ∃ h, int_half w = Ok h ∧ is_finite h = true ∧ exponent_ok h ∧
    Z.abs (units h) * 2 ^ 52 * 2 ≤ Z.abs w * 2 ^ 1074 * (2 ^ 52 + 1) ∧
    (0 ≤ w → 0 ≤ units h) ∧ (w ≤ 0 → units h ≤ 0).
Proof.
  intros Hw. unfold int_half.
  destruct (binary_normalize_spec w (-1)) as (Hnan & Hfin & Hspec); [lia|].
  change (-1 + 1074) with 1073 in *.
  assert (Z.abs w * 2 ^ 1074 = Z.abs w * 2 ^ 1073 * 2) as Hdouble.
  { change (2 ^ 1074) with (2 ^ 1073 * 2). ring. }
  assert (is_finite (binary_normalize prec emax w (-1) false) = true) as Hf.
  { apply Hfin. lia. }
  destruct (Hspec Hf) as (Hexp & _ & Hrel & Hpos & Hneg).
  destruct (binary_normalize prec emax w (-1) false) as [s|s| |s m e] eqn:Hh; try done.
  - exists (S754_zero s). repeat split; try done. lia.
  - exists (S754_finite s m e). repeat split; try done. lia.
Qed.

Lemma sub_finite_not_nan (x y : float) :
  is_finite x = true → is_finite y = true → valid x → valid y →
  sub x y ≠ S754_nan.
Proof.
  intros Hfx Hfy [Hex _]%valid_units [Hey _]%valid_units.
  destruct x as [sx| | |sx mx ex], y as [sy| | |sy my ey]; try done.
  - by destruct sx, sy.
  - destruct (sub_finite_normalize sx mx ex sy my ey Hex Hey) as (M & E & -> & HE & _).
    apply (binary_normalize_spec M E HE).
Qed.

(** [int] truncates: the integer times [2^1074] is the largest multiple of
    [2^1074] within the magnitude of the float. *)
Lemma to_int_truncates (d : float) (w : Z) :
  exponent_ok d → to_int d = Ok w →
  Z.abs w * 2 ^ 1074 ≤ Z.abs (units d) < (Z.abs w + 1) * 2 ^ 1074.
Proof.
  destruct d as [s| | |s m e]; try done.
  - intros _ [= <-]. cbn [units]. by vm_compute.
  - cbn [exponent_ok]. intros He [= <-]. cbn [units]. rewrite !abs_cond_Zopp.
    assert (0 < 2 ^ (e + 1074)) by (apply pow2_pos; lia).
    assert (0 ≤ Z.shiftl (Z.pos m) e) as Hnn by (apply Z.shiftl_nonneg; lia).
    rewrite (Z.abs_eq (Z.shiftl _ _)), (Z.abs_eq (_ * _)) by lia.
    destruct (Z.le_gt_cases 0 e) as [Hpos|Hneg].
    + rewrite Z.shiftl_mul_pow2 by done.
      rewrite (Z.add_comm e), (pow2_split 1074 e) by lia.
      assert (0 < 2 ^ 1074) by (by vm_compute). nia.
    + rewrite Z.shiftl_div_pow2 by lia.
      assert (2 ^ 1074 = 2 ^ (- e) * 2 ^ (e + 1074)) as ->.
      { rewrite <- pow2_split by lia. f_equal. lia. }
      assert (0 < 2 ^ (- e)) by (apply pow2_pos; lia).
      pose proof (Z.mul_div_le (Z.pos m) (2 ^ (- e)) ltac:(lia)) as Hlo.
      pose proof (Z.mul_succ_div_gt (Z.pos m) (2 ^ (- e)) ltac:(lia)) as Hhi.
      apply (Z.mul_le_mono_nonneg_r _ _ (2 ^ (e + 1074))) in Hlo; [|lia].
      apply (Z.mul_lt_mono_pos_r (2 ^ (e + 1074))) in Hhi; [|lia].
      lia.
Qed.

(** ** Windowing *)

(** C7, refuted as stated: the largest float and its negative are finite,
    their difference overflows to infinity, and [int] of an infinity raises
    [OverflowError]. *)
Lemma compute_window_overflows :
  valid (SFopp max_float) ∧ valid max_float ∧
  is_finite (SFopp max_float) = true ∧ is_finite max_float = true ∧
  compute_window (SFopp max_float) max_float = Raise OverflowError.
Proof. repeat split; vm_compute; reflexivity. Qed.

(** C7, as the code has it. For finite floats [min_val] and [max_val] whose
    difference [max_val - min_val] is finite, the width is [int] of that
    difference and the centre is [int] of [min_val + width/2], and neither
    the halving nor the sum nor the two conversions fail. When the
    difference overflows, [OverflowError] is raised. Levels 0 and 4000 give
    (4000, 2000), levels 1000 and 3000 give (2000, 2000). *)
Theorem compute_window_total (min_val max_val : float) :
  valid min_val → valid max_val →
  is_finite min_val = true → is_finite max_val = true →
  (is_finite (sub max_val min_val) = true →
     ∃ width half center,
       to_int (sub max_val min_val) = Ok width ∧
       int_half width = Ok half ∧
       to_int (add min_val half) = Ok center ∧
       compute_window min_val max_val = Ok (width, center)) ∧
  (is_finite (sub max_val min_val) = false →
     compute_window min_val max_val = Raise OverflowError) ∧
  compute_window (of_int 0) (of_int 4000) = Ok (4000, 2000) ∧
  compute_window (of_int 1000) (of_int 3000) = Ok (2000, 2000).
Proof.
  intros Hvmin Hvmax Hfmin Hfmax. split; [|split; [|split; vm_compute; reflexivity]].
  - intros Hfd.
    destruct (sub_spec max_val min_val Hfmax Hfmin Hvmax Hvmin Hfd)
      as (Hed & Hbd & Hrel & Hpos & Hneg).
    destruct (valid_units _ Hvmin) as [Hemin Humin].
    destruct (valid_units _ Hvmax) as [_ Humax].
    destruct (to_int_spec _ Hfd Hed) as (w & Hw & Hwabs & Hwpos & Hwneg).
    destruct (int_half_spec w) as (h & Hh & Hfh & Heh & Hhrel & Hhpos & Hhneg); [lia|].
    assert (is_finite (add min_val h) = true) as Hfc.
    { apply add_spec; try done.
      set (a := units min_val) in *. set (b := units max_val) in *.
      set (d := units (sub max_val min_val)) in *. set (u := units h) in *.
      set (W := Z.abs w * 2 ^ 1074) in *.
      assert (Z.abs u ≤ Z.abs (b - a)) as Hu by lia.
      destruct (Z.le_gt_cases a b) as [Hab|Hba].
      - assert (0 ≤ u) by (apply Hhpos, Hwpos, Hpos; lia). lia.
      - assert (u ≤ 0) by (apply Hhneg, Hwneg, Hneg; lia). lia. }
    assert (∃ c, to_int (add min_val h) = Ok c) as [c Hc].
    { destruct (add min_val h) as [s| | |s m e]; try done; eexists; reflexivity. }
    exists w, h, c. repeat split; try done.
    unfold compute_window. rewrite Hw. simpl. rewrite Hh. simpl. by rewrite Hc.
  - intros Hinf. unfold compute_window.
    pose proof (sub_finite_not_nan max_val min_val Hfmax Hfmin Hvmax Hvmin) as Hnan.
    by destruct (sub max_val min_val) as [s|s| |s m e].
Qed.

Lemma compute_window_total_witness :
  ∃ width half center,
    to_int (sub (of_int 3000) (of_int 1000)) = Ok width ∧
    int_half width = Ok half ∧
    to_int (add (of_int 1000) half) = Ok center ∧
    compute_window (of_int 1000) (of_int 3000) = Ok (width, center).
Proof.
  apply (compute_window_total (of_int 1000) (of_int 3000)); vm_compute; reflexivity.
Defined.

(** * Further properties *)

Import Series.

(** ** The planes of an assembled volume *)

Lemma stretch_same {B} (n : nat) (l : list B) : stretch n n l = l.
Proof. unfold stretch. by rewrite decide_True. Qed.

(** Broadcasting an array to its own shape gives the array. *)
Lemma broadcast_to_same {A} (a : ndarray2 A) : broadcast_to a (shape2 a) = Ok a.
Proof.
  unfold broadcast_to. rewrite bool_decide_eq_true_2 by (split; by left).
  rewrite stretch_same.
  rewrite (list_fmap_ext (stretch (shape2 a).2 (shape2 a).2) id (data2 a))
    by (intros; apply stretch_same).
  rewrite list_fmap_id. by destruct a.
Qed.

Lemma z_index_surj (n j : nat) :
  (j < n)%nat →
  let i := Z.to_nat ((Z.of_nat n - Z.of_nat j) `mod` Z.of_nat n) in
  (i < n)%nat ∧ Z.to_nat ((Z.of_nat n - Z.of_nat i) `mod` Z.of_nat n) = j.
Proof.
  intros Hj i. subst i.
  destruct (decide (j = 0%nat)) as [->|Hne].
  - rewrite Z.sub_0_r, Z_mod_same_full. simpl.
    rewrite Z.sub_0_r, Z_mod_same_full. split; [lia | done].
  - rewrite (Z.mod_small (Z.of_nat n - Z.of_nat j)) by lia.
    rewrite Z2Nat.id by lia.
    replace (Z.of_nat n - (Z.of_nat n - Z.of_nat j)) with (Z.of_nat j) by lia.
    rewrite Z.mod_small by lia. split; lia.
Qed.

(** X1. In the volume assembled from [N] well-formed slices, the slice at
    input position [i] fills the plane at Z index [(N - i) mod N]: it is
    read back there broadcast to the in-plane shape, and unchanged when it
    has that shape. Distinct input positions go to distinct planes and
    every plane of the volume holds one of the input slices, so no slice is
    lost and no plane is left at zero. *)
Theorem every_plane_holds_one_slice (dcm_files : list FileDataset) (rot_k : Z)
    (vol : ndarray3 float) (mid : FileDataset) :
  dcm_files !! (length dcm_files `div` 2)%nat = Some mid →
  Forall (λ d, wf2 (pixel_array d)) dcm_files →
  get_ct_model_as_matrix dcm_files rot_k = Ok vol →
  let N := length dcm_files in
  let z_of (i : nat) := Z.to_nat ((Z.of_nat N - Z.of_nat i) `mod` Z.of_nat N) in
  let placed (d : FileDataset) := astype_float (rot90 (pixel_array d) rot_k) in
  wf3 vol ∧
  (∀ (i : nat) d, dcm_files !! i = Some d →
     (z_of i < N)%nat ∧
     take_z vol (Z.of_nat (z_of i)) = broadcast_to (placed d) (shape2 (pixel_array mid)) ∧
     (shape2 (placed d) = shape2 (pixel_array mid) →
        take_z vol (Z.of_nat (z_of i)) = Ok (placed d))) ∧
  (∀ i1 i2 : nat, (i1 < N)%nat → (i2 < N)%nat → z_of i1 = z_of i2 → i1 = i2) ∧
  (∀ j : nat, (j < N)%nat → ∃ (i : nat) d, dcm_files !! i = Some d ∧ z_of i = j).
Proof.
  intros Hmid Hwf Hvol N z_of placed.
  destruct (assembled_slice_position _ _ _ _ Hmid Hwf Hvol) as [Hwf3 Hpos].
  split; [done|]. split; [|split].
  - intros i d Hi.
    assert (i < N)%nat as HiN by (by eapply lookup_lt_Some).
    split; [|split].
    + subst z_of. simpl.
      pose proof (Z.mod_pos_bound (Z.of_nat N - Z.of_nat i) (Z.of_nat N)). lia.
    + apply (Hpos i d Hi).
    + intros Hsame. etrans; [apply (Hpos i d Hi)|].
      fold (placed d). rewrite <- Hsame. apply broadcast_to_same.
  - intros i1 i2 H1 H2 Heq.
    apply Nat2Z.inj. apply (z_index_inj N); [lia | lia | exact Heq].
  - intros j Hj.
    destruct (z_index_surj N j Hj) as [Hi Hz].
    destruct (lookup_lt_is_Some_2 dcm_files _ Hi) as [d Hd].
    eauto.
Qed.

Lemma every_plane_holds_one_slice_witness :
  ∃ vol, get_ct_model_as_matrix ct_stack 1 = Ok vol ∧ wf3 vol ∧
    take_z vol 0 = Ok (astype_float (rot90 (square 1 2 3 4) 1)) ∧
    take_z vol 1 = Ok (astype_float (rot90 (square 5 6 7 8) 1)).
Proof.
  eexists. split; [vm_compute; reflexivity|].
  pose proof (every_plane_holds_one_slice ct_stack 1 _ (ct_slice (square 5 6 7 8))
                eq_refl ltac:(repeat constructor; by_compute) eq_refl) as (Hwf & Hpos & _).
  split; [exact Hwf|]. split.
  - exact (proj2 (proj2 (Hpos 0%nat _ eq_refl)) eq_refl).
  - exact (proj2 (proj2 (Hpos 1%nat _ eq_refl)) eq_refl).
Defined.

(** ** The outcomes of a load *)

(** A quarter turn swaps the two extents. *)
Lemma shape2_rot90_quarter {A} (a : ndarray2 A) :
  shape2 (rot90 a 1) = ((shape2 a).2, (shape2 a).1).
Proof.
  unfold rot90. change (1 `mod` 4) with 1.
  unfold transpose, flip_lr. simpl. by destruct (shape2 a).
Qed.

Lemma fits_swapped (w h : nat) : fits (h, w) (w, h) ↔ w = h.
Proof.
  unfold fits, broadcastable. simpl. split; [|intros ->; split; by left].
  intros [[?|?] [?|?]]; congruence.
Qed.

Lemma middle_slice_lookup {A} (l : list A) :
  l ≠ [] → ∃ mid, l !! (length l `div` 2)%nat = Some mid.
Proof. intros Hne. apply lookup_lt_is_Some_2. by apply half_lt_length. Qed.

(** The middle slice itself, turned by a quarter, does not fit the shape
    it gave to the volume unless it is square. *)
Lemma quarter_turn_misfits (ct_slices : list FileDataset) (mid : FileDataset) :
  ct_slices !! (length ct_slices `div` 2)%nat = Some mid →
  (shape2 (pixel_array mid)).1 ≠ (shape2 (pixel_array mid)).2 →
  get_ct_model_as_matrix ct_slices 1 = Raise ValueError.
Proof.
  intros Hmid Hne.
  rewrite (get_ct_model_as_matrix_unfold _ _ _ Hmid).
  destruct (shape2 (pixel_array mid)) as [w h] eqn:Hshape. simpl in *.
  apply (assembly_loop_misfit (λ d, rot90 (pixel_array d) 1) w h (length ct_slices));
    [done | lia | lia |].
  apply Exists_exists. exists mid. split; [by eapply list_elem_of_lookup_2|].
  rewrite shape2_rot90_quarter, Hshape. simpl. by rewrite fits_swapped.
Qed.

Section load_outcomes.
Context `{Numerics}.

(** X2. The viewer loads square slices only. [__model_preset] assembles
    with one quarter turn while the volume takes its in-plane shape from
    the unrotated middle slice: when that slice is W x H with W ≠ H the
    assembly raises [ValueError], whatever the other slices are, and the
    load handler leaves the controller as it was. *)
Theorem only_square_slices_load (self : MainController)
    (ct_slices : list FileDataset) (mid : FileDataset) :
  ct_slices !! (length ct_slices `div` 2)%nat = Some mid →
  (shape2 (pixel_array mid)).1 ≠ (shape2 (pixel_array mid)).2 →
  get_ct_model_as_matrix ct_slices 1 = Raise ValueError ∧
  load_model_handle self ct_slices = (Raise ValueError, self).
Proof.
  intros Hmid Hne.
  pose proof (quarter_turn_misfits ct_slices mid Hmid Hne) as Hraise.
  split; [done|]. unfold load_model_handle, model_preset. by rewrite Hraise.
Qed.

(** X3. A load returns normally exactly when the stack has a middle slice,
    that slice carries [PixelSpacing], and every slice, turned by a
    quarter, can be broadcast to the shape of the middle slice. *)
Theorem load_returns_iff (self : MainController) (ct_slices : list FileDataset) :
  (load_model_handle self ct_slices).1 = Ok () ↔
  ∃ mid, ct_slices !! (length ct_slices `div` 2)%nat = Some mid ∧
    is_Some (PixelSpacing mid) ∧
    Forall (λ d, fits (shape2 (rot90 (pixel_array d) 1)) (shape2 (pixel_array mid)))
      ct_slices.
Proof.
  unfold load_model_handle. split.
  - intros Hok.
    destruct ct_slices as [|d0 l0] eqn:Hl.
    { unfold model_preset, get_ct_model_as_matrix in Hok.
      by rewrite getitem_nil in Hok. }
    rewrite <- Hl in *.
    destruct (middle_slice_lookup ct_slices) as [mid Hmid]; [by rewrite Hl|].
    exists mid. split; [done|].
    unfold model_preset in Hok.
    destruct (get_ct_model_as_matrix ct_slices 1) as [vol|e] eqn:Hvol; [|done].
    rewrite (get_ct_model_as_matrix_shape _ _ _ _ Hmid Hvol) in Hok.
    rewrite Z_half_of_nat, (getitem_lookup _ _ _ Hmid) in Hok. simpl in Hok.
    unfold get_ct_pixel_spacing in Hok.
    split.
    + destruct (PixelSpacing mid) as [[rs cs]|]; [by eexists | by simpl in Hok].
    + match goal with |- ?G => destruct (decide G) as [|Hex]; [done|] end.
      apply not_Forall_Exists in Hex; [|apply _].
      rewrite (get_ct_model_as_matrix_unfold _ _ _ Hmid) in Hvol.
      destruct (shape2 (pixel_array mid)) as [w h] eqn:Hshape. simpl in Hvol.
      by rewrite (assembly_loop_misfit (λ d, rot90 (pixel_array d) 1) w h
                    (length ct_slices)) in Hvol by (done || lia).
  - intros (mid & Hmid & [[rs cs] Hsp] & Hall).
    unfold model_preset.
    assert (∃ vol, get_ct_model_as_matrix ct_slices 1 = Ok vol) as [vol Hvol].
    { rewrite (get_ct_model_as_matrix_unfold _ _ _ Hmid).
      destruct (shape2 (pixel_array mid)) as [w h] eqn:Hshape. simpl.
      destruct (assembly_loop_fits (λ d, rot90 (pixel_array d) 1) w h (length ct_slices)
                  ct_slices 0 (zeros (S754_zero false) (w, h, length ct_slices)))
        as (vol & Hvol & _); [done | lia | lia | done | eauto]. }
    rewrite Hvol.
    rewrite (get_ct_model_as_matrix_shape _ _ _ _ Hmid Hvol).
    rewrite Z_half_of_nat, (getitem_lookup _ _ _ Hmid). simpl.
    unfold get_ct_pixel_spacing. by rewrite Hsp.
Qed.

(** X4. A load is not atomic. When the volume is assembled and the middle
    slice lacks [PixelSpacing], unpacking the spacing raises [TypeError]
    after [set_model_matrix] has run: the model then holds the new volume
    and the new sizes, next to the spacings, the labels, the current slice
    images and the patient and examination data of the previous series. *)
Theorem load_without_pixel_spacing (self : MainController)
    (ct_slices : list FileDataset) (mid : FileDataset) (vol : ndarray3 float) :
  ct_slices !! (length ct_slices `div` 2)%nat = Some mid →
  get_ct_model_as_matrix ct_slices 1 = Ok vol →
  PixelSpacing mid = None →
  let self' := (load_model_handle self ct_slices).2 in
  load_model_handle self ct_slices
    = (Raise TypeError, with_model self (set_model_matrix (model self) vol)) ∧
  get_model_matrix (model self') = Some vol ∧
  get_img_size (get_projection_model (model self') XY) = shape2 (pixel_array mid) ∧
  get_slices_count (get_projection_model (model self') XY) = length ct_slices ∧
  get_patient_metadata (model self') = get_patient_metadata (model self) ∧
  get_examination_metadata (model self') = get_examination_metadata (model self) ∧
  ∀ plain,
    let old := get_projection_model (model self) plain in
    let new := get_projection_model (model self') plain in
    get_spacings new = get_spacings old ∧
    get_slices_thickness new = get_slices_thickness old ∧
    get_img_metadata new = get_img_metadata old ∧
    get_roi_metadata new = get_roi_metadata old ∧
    get_current_slice_img new = get_current_slice_img old.
Proof.
  intros Hmid Hvol Hsp self'.
  assert (load_model_handle self ct_slices
            = (Raise TypeError, with_model self (set_model_matrix (model self) vol))) as Hload.
  { unfold load_model_handle, model_preset. rewrite Hvol.
    rewrite (get_ct_model_as_matrix_shape _ _ _ _ Hmid Hvol).
    rewrite Z_half_of_nat, (getitem_lookup _ _ _ Hmid). simpl.
    unfold get_ct_pixel_spacing. by rewrite Hsp. }
  subst self'. rewrite Hload. cbn [fst snd].
  pose proof (get_ct_model_as_matrix_shape _ _ _ _ Hmid Hvol) as Hshape.
  unfold set_model_matrix. rewrite Hshape. cbn [with_model model].
  do 6 (split; [by destruct (shape2 (pixel_array mid))|]).
  intros plain. by destruct plain.
Qed.

End load_outcomes.

Lemma only_square_slices_load_witness :
  get_ct_model_as_matrix wide_stack 1 = Raise ValueError ∧
  @load_model_handle left_to_right roi_shown wide_stack = (Raise ValueError, roi_shown).
Proof.
  apply (@only_square_slices_load left_to_right roi_shown wide_stack
           (bare_slice (Array2 (2, 3)%nat [[7; 8; 9]; [10; 11; 12]]))).
  - reflexivity.
  - simpl. lia.
Defined.

Lemma load_returns_iff_witness :
  (@load_model_handle left_to_right MainController_init ct_stack).1 = Ok ().
Proof.
  apply (@load_returns_iff left_to_right MainController_init ct_stack).
  exists (ct_slice (square 5 6 7 8)).
  split; [reflexivity|]. split; [by eexists|].
  repeat constructor; by_compute.
Defined.

Lemma load_without_pixel_spacing_witness :
  let self' := (@load_model_handle left_to_right roi_shown [bare_slice (px 7)]).2 in
  (@load_model_handle left_to_right roi_shown [bare_slice (px 7)]).1 = Raise TypeError ∧
  get_img_size (get_projection_model (model self') XY) = (1, 1)%nat ∧
  Dict.get (get_img_metadata (get_projection_model (model self') XY)) "Size" = Some "2x2".
Proof.
  pose proof (@load_without_pixel_spacing left_to_right roi_shown [bare_slice (px 7)]
                (bare_slice (px 7)) _ eq_refl eq_refl eq_refl)
    as (Hload & _ & Hsize & _ & _ & _ & Hrest).
  split; [by rewrite Hload|]. split; [exact Hsize|].
  destruct (Hrest XY) as (_ & _ & -> & _). reflexivity.
Defined.

(** ** Invariants of the viewer and its handlers *)

Lemma filter_none {A} (P : A → Prop) `{∀ x, Decision (P x)} (l : list A) :
  Forall (λ x, ¬ P x) l → filter P l = [].
Proof.
  induction 1 as [|x l Hx _ IH]; [done|]. by rewrite filter_cons_False.
Qed.

Lemma update_keeps_keys {V} (d p : dict V) :
  NoDup (keys p) → Forall (λ k, k ∈ keys d) (keys p) → keys (update d p) = keys d.
Proof.
  intros Hnd Hsub. rewrite keys_update by done.
  rewrite filter_none; [by rewrite app_nil_r|].
  eapply Forall_impl; [exact Hsub|]. intros k Hk Hn. by apply Hn.
Qed.


Lemma sizes_match_put (m : Model) (plain : Plain) (pm : ProjectionModel) :
  get_slices_count pm = get_slices_count (get_projection_model m plain) →
  get_img_size pm = get_img_size (get_projection_model m plain) →
  sizes_match m → sizes_match (put_projection_model m plain pm).
Proof.
  intros Hc Hs Hm plain'. specialize (Hm plain').
  change (get_model_matrix (put_projection_model m plain pm)) with (get_model_matrix m).
  destruct (decide (plain = plain')) as [<-|Hne].
  - rewrite get_put_projection_model. by rewrite Hc, Hs.
  - by rewrite get_put_projection_model_ne.
Qed.

Lemma sizes_match_set_model_matrix (m : Model) (vol : ndarray3 float) :
  sizes_match (set_model_matrix m vol).
Proof.
  unfold sizes_match. rewrite set_model_matrix_matrix.
  unfold set_model_matrix. destruct (shape3 vol) as [[x y] z].
  intros plain. by destruct plain.
Qed.

Section invariants.
Context `{Numerics}.

Lemma roi_stats_sizes pm roi :
  get_slices_count (roi_stats pm roi).2 = get_slices_count pm ∧
  get_img_size (roi_stats pm roi).2 = get_img_size pm.
Proof.
  unfold roi_stats.
  destruct (shape2 roi) as [w h], (get_spacings pm) as [cs rs].
  case_bool_decide; [|done].
  by destruct (roi_area w h cs rs).
Qed.

Lemma preset_metadata_sizes pm :
  get_slices_count (preset_metadata pm) = get_slices_count pm ∧
  get_img_size (preset_metadata pm) = get_img_size pm.
Proof. done. Qed.

Lemma model_preset_cases (self : MainController) (ct_slices : list FileDataset) :
  (∃ e, get_ct_model_as_matrix ct_slices 1 = Raise e ∧
     model_preset self ct_slices = (Raise e, self)) ∨
  (∃ vol, get_ct_model_as_matrix ct_slices 1 = Ok vol ∧
     model_preset self ct_slices
       = (Raise TypeError, with_model self (set_model_matrix (model self) vol))) ∨
  (∃ vol, get_ct_model_as_matrix ct_slices 1 = Ok vol ∧
     (model_preset self ct_slices).1 = Ok () ∧
     get_model_matrix (model (model_preset self ct_slices).2) = Some vol ∧
     ∀ plain,
       let new := get_projection_model (model (model_preset self ct_slices).2) plain in
       get_slices_count new = extent_of (shape3 vol) plain ∧
       get_img_size new = section_of (shape3 vol) plain ∧
       keys (get_img_metadata new) = image_keys ∧
       keys (get_roi_metadata new) = roi_keys).
Proof.
  unfold model_preset.
  destruct (get_ct_model_as_matrix ct_slices 1) as [vol|e] eqn:Hvol; [|left; eauto].
  right.
  destruct ct_slices as [|d0 l0] eqn:Hl.
  { unfold get_ct_model_as_matrix in Hvol. by rewrite getitem_nil in Hvol. }
  rewrite <- Hl in *.
  assert (∃ mid, ct_slices !! (length ct_slices `div` 2)%nat = Some mid) as [mid Hmid].
  { apply lookup_lt_is_Some_2, half_lt_length. by rewrite Hl. }
  rewrite (get_ct_model_as_matrix_shape _ _ _ _ Hmid Hvol).
  rewrite Z_half_of_nat, (getitem_lookup _ _ _ Hmid). simpl.
  unfold get_ct_pixel_spacing.
  destruct (PixelSpacing mid) as [[rs cs]|]; simpl.
  - right. exists vol. split; [done|]. split; [done|].
    pose proof (get_ct_model_as_matrix_shape _ _ _ _ Hmid Hvol) as Hshape.
    unfold set_model_matrix. rewrite Hshape. simpl. split; [done|].
    intros plain. by destruct plain.
  - left. exists vol. split; [done|].
    pose proof (get_ct_model_as_matrix_shape _ _ _ _ Hmid Hvol) as Hshape.
    unfold set_model_matrix. by rewrite Hshape.
Qed.

Lemma handle_sizes_match (self : MainController) (ev : event) :
  sizes_match (model self) → sizes_match (model (handle self ev).2).
Proof.
  intros Hm. destruct ev as [cts|n plain| |[lo hi] plain| |roi plain]; simpl.
  - unfold load_model_handle.
    destruct (model_preset_cases self cts)
      as [(e & _ & ->)|[(vol & _ & ->)|(vol & _ & _ & Hmat & Hnew)]].
    + done.
    + apply sizes_match_set_model_matrix.
    + unfold sizes_match. rewrite Hmat. intros plain.
      by destruct (Hnew plain) as (? & ? & _).
  - unfold change_slice_handle.
    destruct (orthogonal_slicing self n plain); [|done].
    by apply sizes_match_put.
  - done.
  - unfold histogram_changed_handle.
    destruct (histogram_is_visible _); [|done]. simpl.
    destruct (compute_window lo hi) as [[w c]|]; [|done].
    by apply sizes_match_put.
  - done.
  - unfold roi_changed_handle.
    destruct (roi_is_visible _); [|done]. simpl.
    destruct (roi_stats _ roi) as [o pm] eqn:Hst. simpl.
    pose proof (roi_stats_sizes (get_projection_model (model self) plain) roi) as [Hc Hs].
    rewrite Hst in Hc, Hs. by apply sizes_match_put.
Qed.

(** X5. Whatever notifications the viewer has handled since it started,
    whether they returned or raised, the slice count and the image size of
    each projection are those of the stored volume: (X,Y) and Z for the XY
    projection, (X,Z) and Y for XZ, (Y,Z) and X for YZ, and all zero while
    no volume is stored. *)
Theorem sizes_always_match_the_volume (evs : list event) :
  sizes_match (model (run MainController_init evs)).
Proof.
  assert (∀ self, sizes_match (model self) → sizes_match (model (run self evs))) as Hrun.
  { unfold run. induction evs as [|ev evs IH]; intros self Hself; [done|].
    simpl. apply IH. by apply handle_sizes_match. }
  apply Hrun. intros plain. by destruct plain.
Qed.

Lemma roi_stats_labels pm roi :
  keys (get_roi_metadata pm) = roi_keys →
  keys (get_roi_metadata (roi_stats pm roi).2) = roi_keys ∧
  get_img_metadata (roi_stats pm roi).2 = get_img_metadata pm.
Proof.
  unfold get_roi_metadata, get_img_metadata. intros Hk.
  assert (∀ (d : dict string) v, keys d = roi_keys →
            keys (update d (literal [("Area", v)])) = roi_keys) as Harea.
  { intros d v Hd. rewrite update_keeps_keys; [done| |].
    - by_compute.
    - rewrite Hd. repeat constructor. }
  assert (∀ (d : dict string) u v, keys d = roi_keys →
            keys (update d (literal [("Mean", u); ("Std Dev", v)])) = roi_keys) as Hmean.
  { intros d u v Hd. rewrite update_keeps_keys; [done| |].
    - by_compute.
    - rewrite Hd. repeat constructor. }
  unfold roi_stats.
  destruct (shape2 roi) as [w h], (get_spacings pm) as [cs rs].
  case_bool_decide.
  - destruct (roi_area w h cs rs); cbn [fst snd]; [|done].
    split; [|done]. apply Hmean. cbn. by apply Harea.
  - cbn [fst snd]. split; [|done]. by apply Hmean.
Qed.

Lemma labels_put (m : Model) (plain : Plain) (pm : ProjectionModel) :
  keys (get_img_metadata pm) = image_keys →
  keys (get_roi_metadata pm) = roi_keys →
  labels_laid_out m → labels_laid_out (put_projection_model m plain pm).
Proof.
  intros Hi Hr Hm plain'. specialize (Hm plain').
  destruct (decide (plain = plain')) as [<-|Hne].
  - by rewrite get_put_projection_model.
  - by rewrite get_put_projection_model_ne.
Qed.

Lemma image_keys_update (d p : dict string) :
  keys d = image_keys → NoDup (keys p) → Forall (λ k, k ∈ image_keys) (keys p) →
  keys (update d p) = image_keys.
Proof.
  intros Hd Hnd Hsub. rewrite update_keeps_keys; [done | done | by rewrite Hd].
Qed.

Lemma handle_labels (self : MainController) (ev : event) :
  labels_laid_out (model self) → labels_laid_out (model (handle self ev).2).
Proof.
  intros Hm. destruct ev as [cts|n plain| |[lo hi] plain| |roi plain]; simpl.
  - unfold load_model_handle.
    destruct (model_preset_cases self cts)
      as [(e & _ & ->)|[(vol & _ & ->)|(vol & _ & _ & _ & Hnew)]].
    + done.
    + intros plain. specialize (Hm plain). simpl.
      unfold set_model_matrix. destruct (shape3 vol) as [[x y] z].
      by destruct plain.
    + intros plain. by destruct (Hnew plain) as (_ & _ & ? & ?).
  - unfold change_slice_handle.
    destruct (orthogonal_slicing self n plain); [|done].
    destruct (Hm plain) as [Hi Hr].
    apply labels_put; [|done|done].
    apply image_keys_update; [done | by_compute | repeat constructor].
  - done.
  - unfold histogram_changed_handle.
    destruct (histogram_is_visible _); [|done]. simpl.
    destruct (compute_window lo hi) as [[w c]|]; [|done].
    destruct (Hm plain) as [Hi Hr].
    apply labels_put; [|done|done].
    change (keys (update (image_metadata (get_projection_model (model self) plain))
                    [("Window Width", pretty w); ("Window Level", pretty c)]) = image_keys).
    apply image_keys_update; [done | by_compute | repeat constructor].
  - done.
  - unfold roi_changed_handle.
    destruct (roi_is_visible _); [|done]. simpl.
    destruct (Hm plain) as [Hi Hr].
    destruct (roi_stats_labels (get_projection_model (model self) plain) roi Hr)
      as [Hr' Hi'].
    destruct (roi_stats _ roi) as [o pm] eqn:Hst. simpl in *.
    apply labels_put; [by rewrite Hi' | done | done].
Qed.

(** X6. After a load that returned, no later notification adds, removes
    or reorders a line of a label: the image label of every projection
    keeps the six keys Plane, Slice, Window Width, Window Level, Size,
    Slice Thickness and the ROI label the three keys Area, Mean, Std Dev,
    in this order, also across loads that fail. *)
Theorem label_layout_is_stable (self : MainController) (ct_slices : list FileDataset)
    (evs : list event) :
  (handle self (LoadModel ct_slices)).1 = Ok () →
  labels_laid_out (model (run (handle self (LoadModel ct_slices)).2 evs)).
Proof.
  intros Hok.
  assert (labels_laid_out (model (handle self (LoadModel ct_slices)).2)) as Hstart.
  { simpl in *. unfold load_model_handle in *.
    destruct (model_preset_cases self ct_slices)
      as [(e & _ & He)|[(vol & _ & He)|(vol & _ & _ & _ & Hnew)]].
    - by rewrite He in Hok.
    - by rewrite He in Hok.
    - intros plain. by destruct (Hnew plain) as (_ & _ & ? & ?). }
  revert Hstart. generalize (handle self (LoadModel ct_slices)).2. clear Hok.
  unfold run. induction evs as [|ev evs IH]; intros c Hc; [done|].
  simpl. apply IH. by apply handle_labels.
Qed.

Lemma change_slice_handle_ok (self : MainController) (n : Z) (plain : Plain)
    (img : ndarray2 float) :
  orthogonal_slicing self n plain = Ok img →
  let pm := get_projection_model (model self) plain in
  change_slice_handle self n plain =
    (Ok (), with_model self (put_projection_model (model self) plain
       (set_img_metadata (set_current_slice pm img n)
          (update (image_metadata pm)
             [("Slice", pretty (n + 1) +:+ "/" +:+ pretty (get_slices_count pm))])))).
Proof. intros Himg pm. unfold change_slice_handle. by rewrite Himg. Qed.

Lemma change_slice_handle_spec (self : MainController)
    (vol : ndarray3 float) (n : Z) (plain : Plain) :
  get_model_matrix (model self) = Some vol →
  sizes_match (model self) →
  let pm := get_projection_model (model self) plain in
  let count := get_slices_count pm in
  (- Z.of_nat count ≤ n < Z.of_nat count →
     ∃ img, orthogonal_slicing self n plain = Ok img ∧
       shape2 img = get_img_size pm ∧
       (n < 0 → orthogonal_slicing self (n + Z.of_nat count) plain = Ok img) ∧
       (change_slice_handle self n plain).1 = Ok () ∧
       let pm' := get_projection_model (model (change_slice_handle self n plain).2) plain in
       get_current_slice_img pm' = Some img ∧
       current_slice_num pm' = n ∧
       Dict.get (get_img_metadata pm') "Slice"
         = Some (pretty (n + 1) +:+ "/" +:+ pretty count) ∧
       ∀ k, k ≠ "Slice" →
         Dict.get (get_img_metadata pm') k = Dict.get (get_img_metadata pm) k) ∧
  (¬ (- Z.of_nat count ≤ n < Z.of_nat count) →
     change_slice_handle self n plain = (Raise IndexError, self)).
Proof.
  intros Hvol Hsizes pm count.
  destruct (Hsizes plain) as [Hcount Hsize]. rewrite Hvol in Hcount, Hsize.
  fold pm in Hcount, Hsize. fold count in Hcount.
  destruct (shape3 vol) as [[x y] z] eqn:Hshape.
  split.
  - intros Hn.
    assert (∃ idx, norm_index n count = Ok idx) as [idx Hidx].
    { unfold norm_index. repeat case_bool_decide; eauto. lia. }
    assert (n < 0 → norm_index (n + Z.of_nat count) count = Ok idx) as Hwrap.
    { intros Hneg. rewrite norm_index_negative in Hidx by lia.
      rewrite norm_index_nonneg by lia. injection Hidx as <-. do 2 f_equal. lia. }
    assert (∃ img, orthogonal_slicing self n plain = Ok img ∧ shape2 img = get_img_size pm ∧
              (n < 0 → orthogonal_slicing self (n + Z.of_nat count) plain = Ok img))
      as (img & Himg & Hshape2 & Hneg).
    { unfold orthogonal_slicing. rewrite Hvol.
      destruct plain; simpl in Hcount, Hsize;
        unfold take_x, take_y, take_z; rewrite Hshape, <- Hcount, Hidx; simpl;
        eexists; (split; [reflexivity|]); (split; [by rewrite Hsize|]);
        intros Hlt; by rewrite (Hwrap Hlt). }
    exists img. split; [done|]. split; [done|]. split; [done|].
    rewrite (change_slice_handle_ok _ _ _ _ Himg). cbn [fst snd model with_model].
    split; [done|]. rewrite get_put_projection_model.
    split; [done|]. split; [done|].
    cbn [image_metadata set_img_metadata get_img_metadata]. fold pm.
    split.
    + rewrite get_update by by_compute. simpl. done.
    + intros k Hk. rewrite get_update by by_compute. simpl.
      by rewrite decide_False.
  - intros Hn. unfold change_slice_handle.
    assert (orthogonal_slicing self n plain = Raise IndexError) as ->; [|done].
    unfold orthogonal_slicing. rewrite Hvol.
    destruct plain; simpl in Hcount;
      unfold take_x, take_y, take_z; rewrite Hshape, <- Hcount;
      by rewrite norm_index_outside.
Qed.

(** X7. [change_slice_handle] on a viewer that holds a volume, for a
    projection of [count] slices. A position [n] in [-count, count) selects
    a cross-section of the size the projection reports (a negative [n] the
    one of [n + count]); the handler returns, stores the image and [n] as
    the current slice, writes ["Slice"] as [n+1/count] and leaves the other
    lines of the label alone. Any other position raises [IndexError] and
    leaves the controller unchanged. *)
Theorem change_slice_in_and_out_of_range (self : MainController)
    (vol : ndarray3 float) (n : Z) (plain : Plain) :
  get_model_matrix (model self) = Some vol →
  sizes_match (model self) →
  let pm := get_projection_model (model self) plain in
  let count := get_slices_count pm in
  (- Z.of_nat count ≤ n < Z.of_nat count →
     ∃ img, orthogonal_slicing self n plain = Ok img ∧
       shape2 img = get_img_size pm ∧
       (n < 0 → orthogonal_slicing self (n + Z.of_nat count) plain = Ok img) ∧
       (change_slice_handle self n plain).1 = Ok () ∧
       let pm' := get_projection_model (model (change_slice_handle self n plain).2) plain in
       get_current_slice_img pm' = Some img ∧
       current_slice_num pm' = n ∧
       Dict.get (get_img_metadata pm') "Slice"
         = Some (pretty (n + 1) +:+ "/" +:+ pretty count) ∧
       ∀ k, k ≠ "Slice" →
         Dict.get (get_img_metadata pm') k = Dict.get (get_img_metadata pm) k) ∧
  (¬ (- Z.of_nat count ≤ n < Z.of_nat count) →
     change_slice_handle self n plain = (Raise IndexError, self)).
Proof. apply change_slice_handle_spec. Qed.

Lemma histogram_changed_handle_ok (self : MainController) (lo hi : float)
    (plain : Plain) (w c : Z) :
  histogram_is_visible (get_projection_widget self plain) = true →
  compute_window lo hi = Ok (w, c) →
  let pm := get_projection_model (model self) plain in
  histogram_changed_handle self (lo, hi) plain =
    (Ok (), with_model self (put_projection_model (model self) plain
       (set_img_metadata pm
          (update (image_metadata pm)
             [("Window Width", pretty w); ("Window Level", pretty c)])))).
Proof.
  intros Hvis Hwin pm. unfold histogram_changed_handle. by rewrite Hvis, Hwin.
Qed.

(** X8. [histogram_changed_handle]. With the histogram of the projection
    hidden it returns without any change. With the histogram shown, an
    error of the window computation escapes and the controller is
    unchanged; otherwise the width and the centre are written, as decimal
    integers, to ["Window Width"] and ["Window Level"], and the other
    lines, the ROI label and the current slice are untouched. *)
Theorem histogram_change_writes_the_window (self : MainController) (lo hi : float)
    (plain : Plain) :
  let pm := get_projection_model (model self) plain in
  let after := histogram_changed_handle self (lo, hi) plain in
  let pm' := get_projection_model (model after.2) plain in
  (histogram_is_visible (get_projection_widget self plain) = false →
     after = (Ok (), self)) ∧
  (histogram_is_visible (get_projection_widget self plain) = true →
     (∀ e, compute_window lo hi = Raise e → after = (Raise e, self)) ∧
     (∀ w c, compute_window lo hi = Ok (w, c) →
        after.1 = Ok () ∧
        Dict.get (get_img_metadata pm') "Window Width" = Some (pretty w) ∧
        Dict.get (get_img_metadata pm') "Window Level" = Some (pretty c) ∧
        (∀ k, k ≠ "Window Width" → k ≠ "Window Level" →
           Dict.get (get_img_metadata pm') k = Dict.get (get_img_metadata pm) k) ∧
        get_roi_metadata pm' = get_roi_metadata pm ∧
        get_current_slice_img pm' = get_current_slice_img pm ∧
        current_slice_num pm' = current_slice_num pm)).
Proof.
  intros pm after pm'. split.
  - intros Hvis. subst after. unfold histogram_changed_handle. by rewrite Hvis.
  - intros Hvis. split.
    + intros e He. subst after. unfold histogram_changed_handle. by rewrite Hvis, He.
    + intros w c Hwin. subst pm' after.
      rewrite (histogram_changed_handle_ok _ _ _ _ _ _ Hvis Hwin).
      cbn [fst snd model with_model]. rewrite get_put_projection_model.
      cbn [image_metadata set_img_metadata get_img_metadata]. fold pm.
      split; [done|]. split; [|split; [|split]].
      * rewrite get_update by by_compute. done.
      * rewrite get_update by by_compute. done.
      * intros k Hw Hl. rewrite get_update by by_compute. simpl.
        by rewrite !decide_False.
      * done.
Qed.

(** X9. A slice, histogram or ROI notification for one plane changes
    nothing but the projection model of that plane: the volume, the patient
    and examination data, the visibility flags of the three widgets and the
    projection models of the two other planes are the same afterwards. *)
Theorem plane_events_are_local (self : MainController) (ev : event) (plain0 : Plain) :
  event_plane ev = Some plain0 →
  let self' := (handle self ev).2 in
  get_model_matrix (model self') = get_model_matrix (model self) ∧
  get_patient_metadata (model self') = get_patient_metadata (model self) ∧
  get_examination_metadata (model self') = get_examination_metadata (model self) ∧
  (∀ plain, get_projection_widget self' plain = get_projection_widget self plain) ∧
  (∀ plain, plain ≠ plain0 →
     get_projection_model (model self') plain = get_projection_model (model self) plain).
Proof.
  intros Hev self'. subst self'.
  assert (∀ pm,
    let c := with_model self (put_projection_model (model self) plain0 pm) in
    get_model_matrix (model c) = get_model_matrix (model self) ∧
    get_patient_metadata (model c) = get_patient_metadata (model self) ∧
    get_examination_metadata (model c) = get_examination_metadata (model self) ∧
    (∀ plain, get_projection_widget c plain = get_projection_widget self plain) ∧
    (∀ plain, plain ≠ plain0 →
       get_projection_model (model c) plain = get_projection_model (model self) plain))
    as Hput.
  { intros pm c. subst c. do 3 (split; [done|]). split.
    - intros plain. by destruct plain.
    - intros plain Hne. simpl. by rewrite get_put_projection_model_ne. }
  destruct ev as [cts|n plain| |[lo hi] plain| |roi plain]; simplify_eq/=.
  - unfold change_slice_handle.
    destruct (orthogonal_slicing self n plain0); [apply Hput | done].
  - unfold histogram_changed_handle.
    destruct (histogram_is_visible _); [|done]. simpl.
    destruct (compute_window lo hi) as [[w c]|]; [apply Hput | done].
  - unfold roi_changed_handle.
    destruct (roi_is_visible _); [|done]. simpl.
    destruct (roi_stats _ roi) as [o pm]. apply Hput.
Qed.

Lemma roi_stats_raise pm roi e :
  (roi_stats pm roi).1 = Raise e →
  e = TypeError ∧ (roi_stats pm roi).2 = set_prev_roi_pix_size pm (shape2 roi).
Proof.
  unfold roi_stats.
  destruct (shape2 roi) as [w h], (get_spacings pm) as [cs rs].
  case_bool_decide; [|done].
  destruct (roi_area w h cs rs) as [a|e'] eqn:Harea; [done|].
  cbn [fst snd]. intros [= ->]. split; [|done].
  unfold roi_area, mul_opt in Harea. destruct cs, rs; simplify_eq/=; done.
Qed.

(** X10. What an exception leaves behind. A failed slice change or
    histogram change leaves the controller unchanged. The two mode switches
    never fail. A failed ROI change raised [TypeError] and has recorded the
    ROI footprint, and nothing else. A failed load either failed in the
    assembly and changed nothing, or raised [TypeError] after the new
    volume and its sizes were stored. *)
Theorem what_a_failed_handler_leaves (self : MainController) (ev : event) (e : exn) :
  (handle self ev).1 = Raise e →
  match ev with
  | ChangeSlice _ _ | HistogramChanged _ _ => (handle self ev).2 = self
  | HistogramMode _ | RoiMode _ => False
  | RoiChanged roi plain =>
      e = TypeError ∧
      (handle self ev).2 =
        with_model self
          (put_projection_model (model self) plain
             (set_prev_roi_pix_size (get_projection_model (model self) plain) (shape2 roi)))
  | LoadModel ct_slices =>
      (get_ct_model_as_matrix ct_slices 1 = Raise e ∧ (handle self ev).2 = self) ∨
      (e = TypeError ∧
       ∃ vol, get_ct_model_as_matrix ct_slices 1 = Ok vol ∧
         (handle self ev).2 = with_model self (set_model_matrix (model self) vol))
  end.
Proof.
  destruct ev as [cts|n plain| |[lo hi] plain| |roi plain]; simpl.
  - unfold load_model_handle. intros He.
    destruct (model_preset_cases self cts)
      as [(e' & Hvol & He')|[(vol & Hvol & He')|(vol & _ & Hok & _)]].
    + left. rewrite He' in He |- *. by simplify_eq/=.
    + right. rewrite He' in He |- *. simplify_eq/=. eauto.
    + by rewrite Hok in He.
  - unfold change_slice_handle.
    by destruct (orthogonal_slicing self n plain).
  - done.
  - unfold histogram_changed_handle.
    destruct (histogram_is_visible _); [|done]. simpl.
    by destruct (compute_window lo hi) as [[w c]|].
  - done.
  - unfold roi_changed_handle.
    destruct (roi_is_visible _); [|done]. simpl.
    intros He.
    destruct (roi_stats_raise (get_projection_model (model self) plain) roi e) as [-> Hpm].
    { by destruct (roi_stats _ roi). }
    split; [done|]. destruct (roi_stats _ roi) as [o pm]. simpl in *. by rewrite Hpm.
Qed.

End invariants.

Lemma label_layout_is_stable_witness :
  labels_laid_out
    (model (@run left_to_right
              (@handle left_to_right MainController_init (LoadModel ct_stack)).2
              [ChangeSlice 1 XY; HistogramMode true;
               HistogramChanged (of_int 0, of_int 100) XZ;
               LoadModel wide_stack; RoiMode true; RoiChanged roi_2x1 YZ])).
Proof.
  apply (@label_layout_is_stable left_to_right MainController_init ct_stack).
  vm_compute. reflexivity.
Defined.

Lemma change_slice_in_and_out_of_range_witness :
  (change_slice_handle roi_shown 1 XY).1 = Ok () ∧
  Dict.get
    (get_img_metadata
       (get_projection_model (model (change_slice_handle roi_shown 1 XY).2) XY))
    "Slice" = Some "2/2" ∧
  change_slice_handle roi_shown 2 XY = (Raise IndexError, roi_shown).
Proof.
  assert (sizes_match (model roi_shown)) as Hsizes
    by (intros plain; destruct plain; split; reflexivity).
  destruct (change_slice_in_and_out_of_range roi_shown _ 1 XY eq_refl Hsizes) as [Hin _].
  destruct (change_slice_in_and_out_of_range roi_shown _ 2 XY eq_refl Hsizes) as [_ Hout].
  destruct Hin as (img & _ & _ & _ & Hok & _ & _ & Hslice & _);
    [vm_compute; split; [discriminate | reflexivity]|].
  split; [exact Hok|]. split.
  - rewrite Hslice. vm_compute. reflexivity.
  - apply Hout. vm_compute. intros [_ Hlt]. discriminate Hlt.
Defined.

Lemma histogram_change_writes_the_window_witness :
  let after := histogram_changed_handle histogram_shown (of_int 1000, of_int 3000) XY in
  let labels := get_img_metadata (get_projection_model (model after.2) XY) in
  after.1 = Ok () ∧
  Dict.get labels "Window Width" = Some "2000" ∧
  Dict.get labels "Window Level" = Some "2000" ∧
  Dict.get labels "Size" = Some "2x2".
Proof.
  destruct (histogram_change_writes_the_window histogram_shown (of_int 1000) (of_int 3000) XY)
    as [_ Hshown].
  destruct (Hshown eq_refl) as [_ Hok].
  destruct (Hok 2000 2000 ltac:(vm_compute; reflexivity)) as (H1 & H2 & H3 & H4 & _).
  split; [exact H1|]. split; [|split].
  - rewrite H2. vm_compute. reflexivity.
  - rewrite H3. vm_compute. reflexivity.
  - rewrite H4 by discriminate. vm_compute. reflexivity.
Defined.

Lemma plane_events_are_local_witness :
  let after := (@handle left_to_right roi_shown (RoiChanged roi_2x1 XY)).2 in
  get_model_matrix (model after) = get_model_matrix (model roi_shown) ∧
  get_projection_model (model after) XZ = get_projection_model (model roi_shown) XZ ∧
  get_projection_model (model after) YZ = get_projection_model (model roi_shown) YZ.
Proof.
  destruct (@plane_events_are_local left_to_right roi_shown (RoiChanged roi_2x1 XY) XY eq_refl)
    as (Hvol & _ & _ & _ & Hother).
  split; [exact Hvol|]. split; apply Hother; discriminate.
Defined.

Lemma what_a_failed_handler_leaves_witness :
  (@handle left_to_right roi_shown (ChangeSlice 5 XY)).2 = roi_shown.
Proof.
  apply (@what_a_failed_handler_leaves left_to_right roi_shown (ChangeSlice 5 XY) IndexError).
  vm_compute. reflexivity.
Defined.

(** ** Patient and examination data *)






(** ** Dictionaries: an update applied twice *)

Section dict_more.
Context {V : Type}.
Implicit Types d p : dict V.





End dict_more.

(** ** A notification delivered twice *)


Lemma put_get_projection_model (m : Model) (plain : Plain) :
  put_projection_model m plain (get_projection_model m plain) = m.
Proof. destruct m, plain; reflexivity. Qed.

Section twice.
Context `{Numerics}.






End twice.

Section twice_load.
Context `{Numerics}.



End twice_load.

(** ** The ROI area of a series without slice thickness *)

Section thickness.
Context `{Numerics}.




End thickness.




(** ** The window width *)

(** X14. For finite levels with [min_val] not above [max_val], a window
    computation that returns gives a width that is not negative and that
    exceeds the exact difference of the levels by a factor of at most
    [1 + 2^-52], the rounding of the subtraction; equal levels give the
    width 0. Values are compared in units of [2^-1074]. *)
Theorem window_width_of_ordered_levels (min_val max_val : float) (width center : Z) :
  valid min_val → valid max_val →
  is_finite min_val = true → is_finite max_val = true →
  units min_val ≤ units max_val →
  compute_window min_val max_val = Ok (width, center) →
  0 ≤ width ∧
  width * 2 ^ 1074 * 2 ^ 52 ≤ (units max_val - units min_val) * (2 ^ 52 + 1) ∧
  (units min_val = units max_val → width = 0).
Proof.
  intros Hvmin Hvmax Hfmin Hfmax Hle Hwin.
  unfold compute_window in Hwin.
  destruct (to_int (sub max_val min_val)) as [w|e] eqn:Hw; [|done].
  simpl in Hwin.
  destruct (int_half w) as [h|e]; [|done]. simpl in Hwin.
  destruct (to_int (add min_val h)) as [c|e]; [|done]. simpl in Hwin.
  injection Hwin as <- <-.
  assert (is_finite (sub max_val min_val) = true) as Hfd.
  { by destruct (sub max_val min_val). }
  destruct (sub_spec max_val min_val Hfmax Hfmin Hvmax Hvmin Hfd)
    as (Hed & _ & Hrel & Hpos & _).
  destruct (to_int_spec _ Hfd Hed) as (w' & Hw' & Hwabs & Hwpos & _).
  rewrite Hw in Hw'. injection Hw' as <-.
  specialize (Hpos Hle). specialize (Hwpos Hpos).
  rewrite (Z.abs_eq w) in Hwabs by done.
  rewrite (Z.abs_eq (units (sub max_val min_val))) in Hwabs, Hrel by done.
  rewrite (Z.abs_eq (units max_val - units min_val)) in Hrel by lia.
  assert (0 < 2 ^ 1074) by (by vm_compute).
  assert (0 < 2 ^ 52) by (by vm_compute).
  split; [done|]. split.
  - apply (Z.mul_le_mono_nonneg_r _ _ (2 ^ 52)) in Hwabs; lia.
  - intros Heq. rewrite Heq, Z.sub_diag in Hrel. nia.
Qed.

Lemma window_width_of_ordered_levels_witness :
  0 ≤ 2000 ∧
  2000 * 2 ^ 1074 * 2 ^ 52
    ≤ (units (of_int 3000) - units (of_int 1000)) * (2 ^ 52 + 1) ∧
  (units (of_int 1000) = units (of_int 3000) → 2000 = 0).
Proof.
  apply (window_width_of_ordered_levels (of_int 1000) (of_int 3000) 2000 2000);
    vm_compute; (reflexivity || discriminate).
Defined.

(** ** From the files to the screen *)

Section shown.
Context `{Numerics}.

(** X15. From the files to the screen. After a load of well-formed
    slices that returned, the axial position [(N - i) mod N] shows the file
    at input position [i], turned by a quarter and converted to floats,
    when that file has the shape of the middle slice: the cross-section is
    that image, and [change_slice_handle] returns and makes it the current
    slice of the XY projection. *)
Theorem axial_position_shows_its_file (self : MainController)
    (ct_slices : list FileDataset) (mid d : FileDataset) (i : nat) :
  ct_slices !! (length ct_slices `div` 2)%nat = Some mid →
  Forall (λ d, wf2 (pixel_array d)) ct_slices →
  (load_model_handle self ct_slices).1 = Ok () →
  ct_slices !! i = Some d →
  shape2 (pixel_array d) = shape2 (pixel_array mid) →
  let N := Z.of_nat (length ct_slices) in
  let n := (N - Z.of_nat i) `mod` N in
  let loaded := (load_model_handle self ct_slices).2 in
  let img := astype_float (rot90 (pixel_array d) 1) in
  0 ≤ n < N ∧
  orthogonal_slicing loaded n XY = Ok img ∧
  (change_slice_handle loaded n XY).1 = Ok () ∧
  get_current_slice_img
    (get_projection_model (model (change_slice_handle loaded n XY).2) XY) = Some img.
Proof.
  intros Hmid Hwf Hok Hi Hsame N n loaded img. unfold load_model_handle in *.
  destruct (model_preset_cases self ct_slices)
    as [(e & _ & He)|[(vol & _ & He)|(vol & Hvol & _ & Hmat & _)]];
    [by rewrite He in Hok | by rewrite He in Hok |].
  fold loaded in Hmat.
  assert (0 < N) as HN.
  { pose proof (lookup_lt_Some _ _ _ Hi). lia. }
  assert (0 ≤ n < N) as Hn by (apply Z.mod_pos_bound; lia).
  (* the stack loads, so the slices are square *)
  assert ((shape2 (pixel_array mid)).1 = (shape2 (pixel_array mid)).2) as Hsq.
  { destruct (decide ((shape2 (pixel_array mid)).1 = (shape2 (pixel_array mid)).2))
      as [|Hne]; [done|].
    pose proof (quarter_turn_misfits ct_slices mid Hmid Hne). congruence. }
  destruct (assembled_slice_position _ _ _ _ Hmid Hwf Hvol) as [_ Hpos].
  specialize (Hpos i d Hi). cbn zeta in Hpos. fold N in Hpos. fold n in Hpos.
  rewrite Z2Nat.id in Hpos by lia.
  assert (orthogonal_slicing loaded n XY = Ok img) as Himg.
  { unfold orthogonal_slicing. rewrite Hmat, Hpos.
    assert (shape2 (pixel_array mid) = shape2 img) as ->; [|apply broadcast_to_same].
    subst img. rewrite astype_float_shape, shape2_rot90_quarter, Hsame.
    destruct (shape2 (pixel_array mid)); simpl in *; congruence. }
  split; [done|]. split; [done|].
  rewrite (change_slice_handle_ok _ _ _ _ Himg). cbn [fst snd model with_model].
  split; [done|]. by rewrite get_put_projection_model.
Qed.

End shown.

(** ** The samples of a stored slice *)

Lemma binary_round_small (s : bool) (m : positive) :
  Z.pos m < 2 ^ 53 →
  ∃ (mz : positive) (k : Z),
    binary_round prec emax s m 0 = S754_finite s mz (- k) ∧
    0 ≤ k ≤ 52 ∧ Z.pos mz = Z.pos m * 2 ^ k.
Proof.
  intros Hm.
  destruct (digits2_pos_bounds m) as [Hlo Hhi].
  set (d := Z.pos (digits2_pos m)) in *.
  assert (1 ≤ d ≤ 53) as Hd.
  { split; [unfold d; lia|].
    destruct (Z.le_gt_cases d 53) as [|Hgt]; [done|].
    assert (2 ^ 53 ≤ 2 ^ (d - 1)) by (apply Z.pow_le_mono_r; lia). lia. }
  unfold binary_round. fold d.
  rewrite Z.add_0_r, fexp_eq, Z.max_l by lia.
  destruct (shl_align_le m 0 (d - 53)) as [He Hmz]; [lia|].
  destruct (shl_align m 0 (d - 53)) as [mz ez]. simpl in He, Hmz. subst ez.
  replace (0 - (d - 53)) with (53 - d) in Hmz by lia.
  assert (Z.pos (digits2_pos mz) = 53) as Hdz.
  { apply digits2_pos_unique. rewrite Hmz. change (53 - 1) with 52.
    assert (0 < 2 ^ (53 - d)) by (apply pow2_pos; lia).
    assert (2 ^ 52 = 2 ^ (d - 1) * 2 ^ (53 - d)) as ->.
    { rewrite <- pow2_split by lia. f_equal. lia. }
    assert (2 ^ 53 = 2 ^ d * 2 ^ (53 - d)) as ->.
    { rewrite <- pow2_split by lia. f_equal. lia. }
    split; [apply Z.mul_le_mono_nonneg_r; lia | apply Z.mul_lt_mono_pos_r; lia]. }
  rewrite binary_round_aux_small by lia.
  rewrite (proj2 (Z.leb_le _ _)) by lia.
  exists mz, (53 - d). split; [f_equal; lia|]. split; [lia | done].
Qed.

Lemma to_int_of_int (v : Z) :
  Z.abs v < 2 ^ 53 → to_int (of_int v) = Ok v.
Proof.
  intros Hv. unfold of_int, binary_normalize.
  destruct v as [|m|m].
  - done.
  - destruct (binary_round_small false m) as (mz & k & -> & Hk & Hmz); [lia|].
    cbn [to_int cond_Zopp]. f_equal.
    rewrite Z.shiftl_opp_r, Z.shiftr_div_pow2 by lia.
    rewrite Hmz. apply Z.div_mul. apply Z.pow_nonzero; lia.
  - destruct (binary_round_small true m) as (mz & k & -> & Hk & Hmz); [lia|].
    cbn [to_int cond_Zopp]. f_equal.
    rewrite Z.shiftl_opp_r, Z.shiftr_div_pow2 by lia.
    rewrite Hmz, Z.div_mul by (apply Z.pow_nonzero; lia). done.
Qed.

Lemma getitem2_astype_float (a : ndarray2 Z) (x y : nat) :
  getitem2 (astype_float a) x y = of_int <$> getitem2 a x y.
Proof.
  unfold getitem2, astype_float. simpl. rewrite list_lookup_fmap.
  destruct (data2 a !! x) as [row|]; simpl; [|done].
  by rewrite list_lookup_fmap.
Qed.

(** X16. Storing a slice into the float volume does not alter its
    samples: a stored integer below [2^53] in magnitude is converted to a
    float whose integer value is the sample again. *)
Theorem stored_samples_are_exact (a : ndarray2 Z) (x y : nat) (v : Z) :
  getitem2 a x y = Some v → Z.abs v < 2 ^ 53 →
  ∃ f, getitem2 (astype_float a) x y = Some f ∧ to_int f = Ok v.
Proof.
  intros Hv Hsmall. exists (of_int v). split.
  - by rewrite getitem2_astype_float, Hv.
  - by apply to_int_of_int.
Qed.

(** ** The order of floats *)

Lemma valid_canonical (s : bool) (m : positive) (e : Z) :
  valid (S754_finite s m e) →
  -1074 ≤ e ∧ Z.pos (digits2_pos m) ≤ 53 ∧
  (e = -1074 ∨ Z.pos (digits2_pos m) = 53).
Proof.
  unfold valid. cbn [valid_binary]. unfold bounded, canonical_mantissa.
  rewrite fexp_eq. intros [Hcan _]%andb_prop. apply Z.eqb_eq in Hcan. lia.
Qed.

Lemma units_lt_exponent (m1 m2 : positive) (e1 e2 : Z) :
  valid (S754_finite false m1 e1) → valid (S754_finite false m2 e2) →
  e1 < e2 →
  Z.pos m1 * 2 ^ (e1 + 1074) < Z.pos m2 * 2 ^ (e2 + 1074).
Proof.
  intros (He1 & Hd1 & _)%valid_canonical (He2 & Hd2 & Hc2)%valid_canonical Hlt.
  destruct Hc2 as [->|Hd53]; [lia|].
  destruct (digits2_pos_bounds m1) as [_ Hhi1].
  destruct (digits2_pos_bounds m2) as [Hlo2 _].
  rewrite Hd53 in Hlo2. change (53 - 1) with 52 in Hlo2.
  assert (2 ^ Z.pos (digits2_pos m1) ≤ 2 ^ 53) by (apply Z.pow_le_mono_r; lia).
  assert (0 < 2 ^ (e1 + 1074)) by (apply pow2_pos; lia).
  assert (2 * 2 ^ (e1 + 1074) ≤ 2 ^ (e2 + 1074)).
  { replace (2 * 2 ^ (e1 + 1074)) with (2 ^ (e1 + 1 + 1074)).
    - apply Z.pow_le_mono_r; lia.
    - replace (e1 + 1 + 1074) with (Z.succ (e1 + 1074)) by lia.
      rewrite Z.pow_succ_r by lia. done. }
  change (2 ^ 53) with (2 * 2 ^ 52) in *.
  nia.
Qed.

Lemma valid_sign (s : bool) (m : positive) (e : Z) :
  valid (S754_finite s m e) → valid (S754_finite false m e).
Proof. done. Qed.

Lemma magnitude_compare (m1 m2 : positive) (e1 e2 : Z) :
  valid (S754_finite false m1 e1) → valid (S754_finite false m2 e2) →
  match e1 ?= e2 with
  | Lt => Lt
  | Gt => Gt
  | Eq => Pos.compare_cont Eq m1 m2
  end = (Z.pos m1 * 2 ^ (e1 + 1074) ?= Z.pos m2 * 2 ^ (e2 + 1074)).
Proof.
  intros H1 H2. destruct (Z.compare_spec e1 e2) as [->|Hlt|Hgt].
  - destruct (valid_canonical _ _ _ H2) as (He & _).
    assert (0 < 2 ^ (e2 + 1074)) by (apply pow2_pos; lia).
    change (Pos.compare_cont Eq m1 m2) with (Z.pos m1 ?= Z.pos m2).
    apply Zmult_compare_compat_r. lia.
  - symmetry. apply Z.compare_lt_iff. by apply units_lt_exponent.
  - symmetry. apply Z.compare_gt_iff. by apply units_lt_exponent.
Qed.

Lemma SFcompare_units (x y : float) :
  valid x → valid y → is_finite x = true → is_finite y = true →
  SFcompare x y = Some (units x ?= units y).
Proof.
  intros Hx Hy Hfx Hfy.
  destruct x as [sx| | |sx mx ex], y as [sy| | |sy my ey]; try done.
  - destruct (valid_canonical _ _ _ Hy) as (He & _).
    assert (0 < 2 ^ (ey + 1074)) by (apply pow2_pos; lia).
    cbn [SFcompare units]. f_equal.
    destruct sy; cbn [cond_Zopp]; symmetry.
    + apply Z.compare_gt_iff. lia.
    + apply Z.compare_lt_iff. lia.
  - destruct (valid_canonical _ _ _ Hx) as (He & _).
    assert (0 < 2 ^ (ex + 1074)) by (apply pow2_pos; lia).
    cbn [SFcompare units]. f_equal.
    destruct sx; cbn [cond_Zopp]; symmetry.
    + apply Z.compare_lt_iff. lia.
    + apply Z.compare_gt_iff. lia.
  - destruct (valid_canonical _ _ _ Hx) as (Hex & _).
    destruct (valid_canonical _ _ _ Hy) as (Hey & _).
    assert (0 < 2 ^ (ex + 1074)) by (apply pow2_pos; lia).
    assert (0 < 2 ^ (ey + 1074)) by (apply pow2_pos; lia).
    pose proof (magnitude_compare mx my ex ey (valid_sign _ _ _ Hx) (valid_sign _ _ _ Hy))
      as Hmag.
    pose proof (magnitude_compare my mx ey ex (valid_sign _ _ _ Hy) (valid_sign _ _ _ Hx))
      as Hmag'.
    cbn [SFcompare units]. f_equal.
    destruct sx, sy; cbn [cond_Zopp].
    + rewrite Z.compare_opp, <- Hmag'.
      rewrite (Z.compare_antisym ey ex).
      destruct (ey ?= ex); cbn; [|done|done].
      by rewrite Pos.compare_cont_antisym.
    + symmetry. apply Z.compare_lt_iff. lia.
    + symmetry. apply Z.compare_gt_iff. lia.
    + exact Hmag.
Qed.

Lemma SFltb_units (x y : float) :
  valid x → valid y → is_finite x = true → is_finite y = true →
  SFltb x y = bool_decide (units x < units y).
Proof.
  intros Hx Hy Hfx Hfy. unfold SFltb. rewrite SFcompare_units by done.
  destruct (Z.compare_spec (units x) (units y)); symmetry;
    [apply bool_decide_eq_false_2 | apply bool_decide_eq_true_2 | apply bool_decide_eq_false_2];
    lia.
Qed.

(** ** Sorting by key *)

Section sorting.
Context {A : Type}.
Implicit Types l acc : list (float * A).

(** A key that [<] compares by value. *)
Let ordered (kx : float * A) : Prop := valid kx.1 ∧ is_finite kx.1 = true.

Lemma insert_by_key_perm k x l : insert_by_key k x l ≡ₚ (k, x) :: l.
Proof.
  induction l as [|[k' y] l IH]; simpl; [done|].
  destruct (SFltb k k'); [done|]. rewrite IH. apply Permutation_swap.
Qed.

Lemma sorted_by_key_perm_acc l acc :
  foldl (λ acc kx, insert_by_key kx.1 kx.2 acc) acc l ≡ₚ acc ++ l.
Proof.
  revert acc. induction l as [|[k x] l IH]; intros acc; simpl.
  - by rewrite app_nil_r.
  - rewrite IH, insert_by_key_perm. simpl.
    by rewrite (Permutation_middle acc l (k, x)).
Qed.

Lemma sorted_by_key_perm l : sorted_by_key l ≡ₚ l.
Proof. unfold sorted_by_key. by rewrite sorted_by_key_perm_acc. Qed.

Lemma insert_by_key_ascending k x l :
  ordered (k, x) → Forall ordered l → ascending l → ascending (insert_by_key k x l).
Proof.
  intros [Hv Hf]. induction l as [|[k' y] l IH]; intros Hall Hasc; simpl.
  - by split.
  - inversion_clear Hall as [|? ? [Hv' Hf'] Hl]. destruct Hasc as [Hhd Htl].
    simpl in Hv', Hf', Hhd.
    rewrite SFltb_units by done. case_bool_decide as Hlt.
    + split; [|by split]. constructor; [simpl; lia|].
      eapply Forall_impl; [exact Hhd|]. simpl. intros; lia.
    + split; [|by apply IH].
      rewrite insert_by_key_perm. constructor; [simpl; lia | done].
Qed.

Lemma insert_by_key_stable k x l (u : Z) :
  ordered (k, x) → Forall ordered l → ascending l →
  filter (λ ky, units ky.1 = u) (insert_by_key k x l)
    = filter (λ ky, units ky.1 = u) l ++ filter (λ ky, units ky.1 = u) [(k, x)].
Proof.
  intros [Hv Hf]. induction l as [|[k' y] l IH]; intros Hall Hasc; simpl.
  - done.
  - inversion_clear Hall as [|? ? [Hv' Hf'] Hl]. destruct Hasc as [Hhd Htl].
    simpl in Hv', Hf', Hhd.
    rewrite SFltb_units by done. case_bool_decide as Hlt.
    + destruct (decide (units k = u)) as [Hu|Hu].
      * rewrite (filter_cons_True _ (k, x)) by done.
        rewrite (filter_cons_False _ (k', y)) by (simpl; lia).
        rewrite (filter_none (λ ky, units ky.1 = u) l).
        -- by rewrite filter_cons_True, filter_nil by done.
        -- eapply Forall_impl; [exact Hhd|]. simpl. intros; lia.
      * rewrite (filter_cons_False _ (k, x)) by done.
        rewrite (filter_cons_False _ (k, x) []) by done.
        by rewrite filter_nil, app_nil_r.
    + rewrite !(filter_cons _ (k', y)). rewrite IH by done.
      by destruct (decide _).
Qed.

Lemma insert_by_key_ordered k x l :
  ordered (k, x) → Forall ordered l → Forall ordered (insert_by_key k x l).
Proof. intros Hk Hl. rewrite insert_by_key_perm. by constructor. Qed.

Lemma sorted_by_key_acc l acc (u : Z) :
  Forall ordered acc → Forall ordered l → ascending acc →
  let out := foldl (λ acc kx, insert_by_key kx.1 kx.2 acc) acc l in
  ascending out ∧
  filter (λ ky, units ky.1 = u) out
    = filter (λ ky, units ky.1 = u) acc ++ filter (λ ky, units ky.1 = u) l.
Proof.
  revert acc. induction l as [|[k x] l IH]; intros acc Hacc Hl Hasc; simpl.
  - by rewrite app_nil_r.
  - inversion_clear Hl as [|? ? Hk Hl'].
    destruct (IH (insert_by_key k x acc)) as [Hout Hfilter];
      [by apply insert_by_key_ordered | done | by apply insert_by_key_ascending |].
    split; [done|]. rewrite Hfilter, insert_by_key_stable by done.
    rewrite <- app_assoc. f_equal. by rewrite <- filter_app.
Qed.

Lemma sorted_by_key_spec l :
  Forall ordered l →
  ascending (sorted_by_key l) ∧
  ∀ u, filter (λ ky, units ky.1 = u) (sorted_by_key l) = filter (λ ky, units ky.1 = u) l.
Proof.
  intros Hl. split.
  - by apply (sorted_by_key_acc l [] 0).
  - intros u. by apply (sorted_by_key_acc l [] u).
Qed.

Lemma ascending_lookup l (i j : nat) kx ky :
  ascending l → (i < j)%nat → l !! i = Some kx → l !! j = Some ky →
  units kx.1 ≤ units ky.1.
Proof.
  revert i j. induction l as [|kz l IH]; intros i j Hasc Hij Hi Hj; [done|].
  destruct Hasc as [Hhd Htl].
  destruct i as [|i], j as [|j]; try lia; simpl in *.
  - injection Hi as ->. rewrite Forall_lookup in Hhd. by apply (Hhd j).
  - apply (IH i j); [done | lia | done | done].
Qed.

End sorting.

(** ** Extraction of the CT files *)

Lemma keyed_Some (l : list DcmFile) (kl : list (float * DcmFile)) :
  keyed l = Some kl → kl.*2 = l ∧ Forall key_of_file kl.
Proof.
  revert kl. induction l as [|f l IH]; intros kl; simpl.
  - by intros [= <-].
  - destruct (SliceLocation f) as [k|] eqn:Hk; [|done]. simpl.
    destruct (keyed l) as [kl'|]; [|done]. simpl. intros [= <-].
    destruct (IH kl' eq_refl) as [Hl Hall].
    split; [by rewrite <- Hl | by constructor].
Qed.

Lemma keyed_None (l : list DcmFile) :
  keyed l = None ↔ Exists (λ f, SliceLocation f = None) l.
Proof.
  induction l as [|f l IH]; simpl.
  - split; [done | by inversion 1].
  - rewrite Exists_cons. destruct (SliceLocation f) as [k|]; simpl.
    + destruct (keyed l) as [kl|]; simpl.
      * split; [done|]. intros [?|Hex]; [done|]. by apply IH in Hex.
      * split; [|done]. intros _. right. by apply IH.
    + split; [by left | done].
Qed.

Lemma filter_keys_fmap (kl : list (float * DcmFile)) (u : Z) :
  Forall key_of_file kl →
  filter (λ f, slice_position f = u) kl.*2 = (filter (λ kf, units kf.1 = u) kl).*2.
Proof.
  induction 1 as [|[k f] kl Hk _ IH]; [done|].
  rewrite fmap_cons, !filter_cons. cbn [fst snd].
  assert (slice_position f = units k) as -> by (unfold slice_position; by rewrite Hk).
  destruct (decide (units k = u)); [rewrite fmap_cons|]; by rewrite IH.
Qed.

Lemma kept_with_location (dcm_files : list DcmFile) :
  Forall (λ f, is_ct f = true → is_Some (SliceLocation f)) dcm_files →
  filter (λ f, is_ct f = true) dcm_files
    = filter (λ f, is_Some (SliceLocation f)) dcm_files.
Proof.
  intros Hall. apply filter_ext_in. intros f Hf.
  rewrite Forall_forall in Hall. split; [by apply Hall|].
  intros [k Hk]. unfold is_ct. by rewrite Hk.
Qed.

(** X17. [extract_ct_from_dcm] on files whose [SliceLocation], where
    present, is a finite float, when every file kept by the CT test has a
    [SliceLocation]. The call returns the files that have a
    [SliceLocation], each as often as it was given, in ascending order of
    location; files with equal locations keep their input order. Files that
    have neither a [SliceLocation] nor a non-zero [SliceThickness] are
    dropped. *)
Theorem extracted_files_are_sorted (dcm_files : list DcmFile) :
  Forall located dcm_files →
  Forall (λ f, is_ct f = true → is_Some (SliceLocation f)) dcm_files →
  let with_location := filter (λ f, is_Some (SliceLocation f)) dcm_files in
  ∃ out, extract_ct_from_dcm dcm_files = Extracted out ∧
    out ≡ₚ with_location ∧
    (∀ (i j : nat) a b, (i < j)%nat → out !! i = Some a → out !! j = Some b →
       slice_position a ≤ slice_position b) ∧
    (∀ u, filter (λ f, slice_position f = u) out = filter (λ f, slice_position f = u) with_location).
Proof.
  intros Hloc Hkept with_location.
  unfold extract_ct_from_dcm. rewrite (kept_with_location _ Hkept). fold with_location.
  destruct (keyed with_location) as [kl|] eqn:Hkeyed.
  2: { apply keyed_None, Exists_exists in Hkeyed as (f & Hin & Hnone).
       apply list_elem_of_filter in Hin as [[k Hk] _]. congruence. }
  destruct (keyed_Some _ _ Hkeyed) as [Hfiles Hkeys].
  assert (Forall (λ kf : float * DcmFile, valid kf.1 ∧ is_finite kf.1 = true) kl) as Hord.
  { rewrite Forall_forall. intros [k f] Hin. simpl.
    rewrite Forall_forall in Hkeys. pose proof (Hkeys _ Hin) as Hk.
    unfold key_of_file in Hk. simpl in Hk.
    assert (f ∈ dcm_files) as Hf.
    { assert (f ∈ with_location) as Hw.
      { rewrite <- Hfiles. apply list_elem_of_fmap. by exists (k, f). }
      by apply list_elem_of_filter in Hw as [_ ?]. }
    rewrite Forall_forall in Hloc. by apply (Hloc f Hf). }
  destruct (sorted_by_key_spec kl Hord) as [Hasc Hstable].
  assert (Forall key_of_file (sorted_by_key kl)) as Hkeys'.
  { by rewrite sorted_by_key_perm. }
  eexists. split; [reflexivity|]. split; [|split].
  - by rewrite sorted_by_key_perm, Hfiles.
  - intros i j a b Hij Ha Hb.
    apply list_lookup_fmap_Some in Ha as ([ka a'] & -> & Ha).
    apply list_lookup_fmap_Some in Hb as ([kb b'] & -> & Hb).
    rewrite Forall_lookup in Hkeys'.
    pose proof (Hkeys' _ _ Ha) as Hka. pose proof (Hkeys' _ _ Hb) as Hkb.
    unfold key_of_file in Hka, Hkb. simpl in *.
    unfold slice_position. rewrite Hka, Hkb.
    apply (ascending_lookup _ i j (ka, a') (kb, b') Hasc Hij Ha Hb).
  - intros u. rewrite (filter_keys_fmap _ u Hkeys'), Hstable.
    by rewrite <- (filter_keys_fmap _ u Hkeys), Hfiles.
Qed.

(** X18. [extract_ct_from_dcm] raises [AttributeError] exactly when some
    file has no [SliceLocation] but a [SliceThickness] different from zero:
    the CT test keeps such a file and the sort then reads its missing
    [SliceLocation]. *)
Theorem extraction_raises_iff (dcm_files : list DcmFile) :
  extract_ct_from_dcm dcm_files = AttributeError ↔
  Exists (λ f, SliceLocation f = None ∧
               ∃ thickness, SliceThickness (dataset f) = Some thickness ∧
                            ne_zero thickness = true) dcm_files.
Proof.
  unfold extract_ct_from_dcm.
  destruct (keyed _) as [kl|] eqn:Hkeyed.
  - split; [done|]. intros Hex. exfalso.
    assert (keyed (filter (λ f, is_ct f = true) dcm_files) = None) as Hnone;
      [|congruence].
    apply keyed_None. apply Exists_exists in Hex as (f & Hin & Hloc & t & Ht & Hne).
    apply Exists_exists. exists f. split; [|done].
    apply list_elem_of_filter. split; [|done].
    unfold is_ct. by rewrite Hloc, Ht.
  - split; [|done]. intros _.
    apply keyed_None, Exists_exists in Hkeyed as (f & Hin & Hloc).
    apply list_elem_of_filter in Hin as [Hct Hin].
    apply Exists_exists. exists f. split; [done|]. split; [done|].
    unfold is_ct in Hct. rewrite Hloc in Hct.
    destruct (SliceThickness (dataset f)) as [t|]; [eauto | done].
Qed.

(** ** The slider of a projection view *)

Section slider.
Context `{Numerics}.

(** X19. After a load that returned, of a stack whose middle slice has
    positive extents, the slider of each projection is set up within the
    slices of that projection: the initial position [count // 2] lies
    between 0 and the maximum [count - 1], and [change_slice_handle]
    returns for every position from 0 to the maximum. *)
Theorem slider_positions_are_slices (self : MainController)
    (ct_slices : list FileDataset) (mid : FileDataset) (plain : Plain) :
  ct_slices !! (length ct_slices `div` 2)%nat = Some mid →
  (load_model_handle self ct_slices).1 = Ok () →
  (0 < (shape2 (pixel_array mid)).1)%nat →
  (0 < (shape2 (pixel_array mid)).2)%nat →
  let loaded := (load_model_handle self ct_slices).2 in
  let position := (slider_setting (get_projection_model (model loaded) plain)).1 in
  let max_val := (slider_setting (get_projection_model (model loaded) plain)).2 in
  0 ≤ position ≤ max_val ∧
  ∀ n, 0 ≤ n ≤ max_val → (change_slice_handle loaded n plain).1 = Ok ().
Proof.
  intros Hmid Hok Hx Hy loaded position max_val. unfold load_model_handle in *.
  destruct (model_preset_cases self ct_slices)
    as [(e & _ & He)|[(vol & _ & He)|(vol & Hvol & _ & Hmat & Hnew)]];
    [by rewrite He in Hok | by rewrite He in Hok |].
  fold loaded in Hmat, Hnew.
  pose proof (get_ct_model_as_matrix_shape _ _ _ _ Hmid Hvol) as Hshape.
  assert (sizes_match (model loaded)) as Hsizes.
  { unfold sizes_match. rewrite Hmat. intros p. by destruct (Hnew p) as (? & ? & _). }
  assert (0 < get_slices_count (get_projection_model (model loaded) plain))%nat as Hcount.
  { destruct (Hnew plain) as (-> & _). rewrite Hshape.
    assert (0 < length ct_slices)%nat.
    { pose proof (lookup_lt_Some _ _ _ Hmid). lia. }
    by destruct plain. }
  subst position max_val. unfold slider_setting. cbn [fst snd].
  set (count := get_slices_count (get_projection_model (model loaded) plain)) in *.
  split.
  - pose proof (Z.div_pos (Z.of_nat count) 2). 
    assert (Z.of_nat count `div` 2 < Z.of_nat count) by (apply Z.div_lt; lia). lia.
  - intros n Hn.
    destruct (change_slice_handle_spec loaded vol n plain Hmat Hsizes) as [Hin _].
    destruct Hin as (img & _ & _ & _ & Hok' & _); [fold count; lia | done].
Qed.

End slider.

Lemma axial_position_shows_its_file_witness :
  let loaded := (@load_model_handle left_to_right MainController_init ct_stack).2 in
  let img := astype_float (rot90 (square 5 6 7 8) 1) in
  0 ≤ 1 < 2 ∧
  orthogonal_slicing loaded 1 XY = Ok img ∧
  (change_slice_handle loaded 1 XY).1 = Ok () ∧
  get_current_slice_img
    (get_projection_model (model (change_slice_handle loaded 1 XY).2) XY) = Some img.
Proof.
  apply (@axial_position_shows_its_file left_to_right MainController_init ct_stack
           (ct_slice (square 5 6 7 8)) (ct_slice (square 5 6 7 8)) 1).
  - reflexivity.
  - repeat constructor; by_compute.
  - vm_compute. reflexivity.
  - reflexivity.
  - reflexivity.
Defined.

Lemma stored_samples_are_exact_witness :
  ∃ f, getitem2 (astype_float (square 1 2 3 4000)) 1 1 = Some f ∧ to_int f = Ok 4000.
Proof.
  apply (stored_samples_are_exact (square 1 2 3 4000) 1 1 4000).
  - reflexivity.
  - vm_compute. reflexivity.
Defined.

Lemma extracted_files_are_sorted_witness :
  let dcm_files := [file_at 30; scout; file_at 10; file_at 20] in
  let with_location := filter (λ f, is_Some (SliceLocation f)) dcm_files in
  ∃ out, extract_ct_from_dcm dcm_files = Extracted out ∧
    out ≡ₚ with_location ∧
    (∀ (i j : nat) a b, (i < j)%nat → out !! i = Some a → out !! j = Some b →
       slice_position a ≤ slice_position b) ∧
    (∀ u, filter (λ f, slice_position f = u) out = filter (λ f, slice_position f = u) with_location).
Proof.
  apply (extracted_files_are_sorted [file_at 30; scout; file_at 10; file_at 20]).
  - repeat (first
      [ apply Forall_nil_2
      | apply Forall_cons_2;
        [ intros k Hk; vm_compute in Hk;
          first [ discriminate Hk
                | injection Hk as <-; split; vm_compute; reflexivity ]
        | ] ]).
  - repeat (first
      [ apply Forall_nil_2
      | apply Forall_cons_2;
        [ intros Hct;
          first [ vm_compute in Hct; discriminate Hct | eexists; reflexivity ]
        | ] ]).
Defined.

Lemma extraction_raises_iff_witness :
  extract_ct_from_dcm [file_at 10; unlocated] = AttributeError.
Proof.
  apply (extraction_raises_iff [file_at 10; unlocated]).
  apply Exists_cons_tl, Exists_cons_hd.
  split; [reflexivity|]. eexists. split; [reflexivity|]. vm_compute. reflexivity.
Defined.

Lemma slider_positions_are_slices_witness :
  let loaded := (@load_model_handle left_to_right MainController_init ct_stack).2 in
  0 ≤ 1 ≤ 1 ∧
  ∀ n, 0 ≤ n ≤ 1 → (change_slice_handle loaded n XZ).1 = Ok ().
Proof.
  apply (@slider_positions_are_slices left_to_right MainController_init ct_stack
           (ct_slice (square 5 6 7 8)) XZ).
  - reflexivity.
  - vm_compute. reflexivity.
  - vm_compute. lia.
  - vm_compute. lia.
Defined.
